(** * comparellms.in: the index, sitemap and feed generator

    A shallow embedding of [scripts/generate_index_and_sitemap.py] and the
    properties of its four stages: metadata extraction, post collection,
    paginated index, sitemap and RSS feed.

    Conventions of the embedding.
    - A character is a code point below 256 (the type [ascii]); a Python
      [str] is a [string].  The classes of the Python runtime that the
      script relies on ([str.isspace], [str.lower], the regex classes
      [\s] and [\d], case-insensitive literals) are written out for this
      range.
    - A [dict] with string keys is a [gmap string string].
    - The operating system is a record of the four queries the script
      makes; what the script prints is a list of [event]s; what it writes
      is returned as a value (the JSON object, the XML element tree). *)

From Stdlib Require Import Ascii String ZArith Lia Bool.
From Stdlib Require Import DecimalString DecimalNat.
From stdpp Require Import gmap strings list fin_maps sorting.

Local Open Scope nat_scope.

(* ===================================================================== *)
(** * Characters and the [str] methods used by the script *)
(* ===================================================================== *)

Module Str.

Definition code (c : ascii) : nat := nat_of_ascii c.

Definition char_eqb (a b : ascii) : bool := Ascii.eqb a b.

(** The character [chr(34)], the double quote. *)
Definition dquote : ascii := ascii_of_nat 34.
(** The character [chr(39)], the single quote. *)
Definition squote : ascii := ascii_of_nat 39.

Definition between (lo hi n : nat) : bool := (lo <=? n) && (n <=? hi).

(** [str.isspace] on one character, also the regex class [\s]:
    TAB..CR, FS..US, SPACE, NEL and NBSP. *)
Definition isspace (c : ascii) : bool :=
  let n := code c in
  between 9 13 n || between 28 32 n || (n =? 133) || (n =? 160).

(** The regex class [\d]. *)
Definition isdigit (c : ascii) : bool := between 48 57 (code c).

(** [str.lower] on one character: A..Z and the upper-case letters of
    the Latin-1 block (all of 192..222 but the multiplication sign). *)
Definition lower_char (c : ascii) : ascii :=
  let n := code c in
  if between 65 90 n || (between 192 222 n && negb (n =? 215))
  then ascii_of_nat (n + 32) else c.

Fixpoint lower (s : string) : string :=
  match s with
  | EmptyString => EmptyString
  | String c s' => String (lower_char c) (lower s')
  end.

Fixpoint lstrip (s : string) : string :=
  match s with
  | EmptyString => EmptyString
  | String c s' => if isspace c then lstrip s' else s
  end.

Fixpoint rstrip (s : string) : string :=
  match s with
  | EmptyString => EmptyString
  | String c s' =>
      match rstrip s' with
      | EmptyString => if isspace c then EmptyString else String c EmptyString
      | r => String c r
      end
  end.

(** [s.strip()] *)
Definition strip (s : string) : string := lstrip (rstrip s).

(** [s.rstrip(ch)] for a one-character argument. *)
Fixpoint rstrip_char (ch : ascii) (s : string) : string :=
  match s with
  | EmptyString => EmptyString
  | String c s' =>
      match rstrip_char ch s' with
      | EmptyString => if char_eqb c ch then EmptyString else String c EmptyString
      | r => String c r
      end
  end.

(** [s.split(sep)] for a one-character separator: always at least one
    piece, one more than the number of separators. *)
Fixpoint split (sep : ascii) (s : string) : list string :=
  match s with
  | EmptyString => [EmptyString]
  | String c s' =>
      if char_eqb c sep then EmptyString :: split sep s'
      else match split sep s' with
           | h :: t => String c h :: t
           | [] => [String c EmptyString]
           end
  end.

(** Truth value of a string: the empty string is false. *)
Definition truthy (s : string) : bool :=
  match s with EmptyString => false | _ => true end.

(** [str(n)] for a non-negative integer. *)
Definition of_nat (n : nat) : string := NilZero.string_of_uint (Nat.to_uint n).

End Str.

(* ===================================================================== *)
(** * The regular expressions of the script, and how [re] runs them *)
(* ===================================================================== *)

Module Re.

Definition charset := ascii -> bool.

(** The fragment of the pattern language the script (and the date
    parser it calls) uses. [Rep min p] is the greedy repetition of a
    character class, [p*] for [min = 0] and [p+] for [min = 1]. *)
Inductive regex : Type :=
| Eps
| Chr (p : charset)
| Rep (min : nat) (p : charset)
| Seq (r1 r2 : regex)
| Alt (r1 r2 : regex)
| Grp (g : nat) (r : regex).

Abbreviation captures := (gmap nat string).

(** The text between the start [s] of a group and what is left, [s'],
    when the group closes. *)
Definition consumed (s s' : string) : string :=
  substring 0 (String.length s - String.length s') s.

Section Exec.
Context {A : Type}.

(** Greedy repetition with backtracking: take one more character when
    the class allows it, and give characters back one at a time while
    the rest of the pattern, [k], fails. *)
Fixpoint rep (p : charset) (k : string -> option A) (min : nat)
    (s : string) : option A :=
  let stop := match min with 0 => k s | S _ => None end in
  match s with
  | EmptyString => stop
  | String c s' =>
      if p c then
        match rep p k (Nat.pred min) s' with
        | Some x => Some x
        | None => stop
        end
      else stop
  end.

(** The backtracking matcher, in continuation-passing style: [k] is
    the rest of the pattern. Alternatives are tried left to right. *)
Fixpoint exec (r : regex) (s : string) (caps : captures)
    (k : string -> captures -> option A) : option A :=
  match r with
  | Eps => k s caps
  | Chr p =>
      match s with
      | String c s' => if p c then k s' caps else None
      | EmptyString => None
      end
  | Rep min p => rep p (fun s' => k s' caps) min s
  | Seq r1 r2 => exec r1 s caps (fun s' caps' => exec r2 s' caps' k)
  | Alt r1 r2 =>
      match exec r1 s caps k with
      | Some x => Some x
      | None => exec r2 s caps k
      end
  | Grp g r1 =>
      exec r1 s caps (fun s' caps' => k s' (<[g := consumed s s']> caps'))
  end.
End Exec.

(** [pattern.match(s)]: a match anchored at the start of [s]; the
    result is the groups and the text after the match. *)
Definition match_ (r : regex) (s : string) : option (captures * string) :=
  exec r s ∅ (fun s' caps => Some (caps, s')).

(** [m.group(g)] *)
Definition group (m : captures) (g : nat) : string := default EmptyString (m !! g).

(** [pattern.finditer(s)]: the leftmost match, then the leftmost match
    after its end, and so on.  One unit of fuel is spent per position
    tried, and [finditer] gives more fuel than the text has characters.
    Every pattern of the script starts with a literal character, so no
    match is empty and the fuel is enough ([META_RE_consumes],
    [finditer_fuel] below); the scan stops at an empty match, whose
    treatment by the library is not modelled. *)
Fixpoint finditer_from (fuel : nat) (r : regex) (s : string) : list captures :=
  match fuel with
  | 0 => []
  | S fuel' =>
      match match_ r s with
      | Some (m, rest) =>
          if String.length rest <? String.length s
          then m :: finditer_from fuel' r rest
          else [m]
      | None =>
          match s with
          | String _ s' => finditer_from fuel' r s'
          | EmptyString => []
          end
      end
  end.

Definition finditer (r : regex) (s : string) : list captures :=
  finditer_from (S (String.length s)) r s.

(** ** Building patterns *)

(** A literal character under [re.I]. *)
Definition lit (c : ascii) : regex :=
  Chr (fun x => Str.char_eqb (Str.lower_char x) (Str.lower_char c)).

(** A literal word under [re.I]. *)
Fixpoint word (w : string) : regex :=
  match w with
  | EmptyString => Eps
  | String c w' => Seq (lit c) (word w')
  end.

(** The class of the two quote characters, written Q below, and its
    complement. *)
Definition quote : charset :=
  fun c => Str.char_eqb c Str.dquote || Str.char_eqb c Str.squote.
Definition not_quote : charset := fun c => negb (quote c).

(** A character range [[lo-hi]]. *)
Definition range (lo hi : ascii) : charset :=
  fun c => Str.between (Str.code lo) (Str.code hi) (Str.code c).

Fixpoint seq_of (rs : list regex) : regex :=
  match rs with
  | [] => Eps
  | r :: rs' => Seq r (seq_of rs')
  end.

End Re.

(* ===================================================================== *)
(** * Configuration *)
(* ===================================================================== *)

Definition POSTS_DIR : string := "posts".
Definition OUTPUT_INDEX_PREFIX : string := "posts-index-page-".
Definition OUTPUT_INDEX_MAIN : string := "posts-index.json".
Definition SITEMAP : string := "sitemap.xml".
Definition RSS : string := "rss.xml".
Definition PER_PAGE : nat := 20.
Definition SITE_URL : string := "https://comparellms.in".
Definition SITE_NAME : string := "comparellms".
Definition SITE_DESCRIPTION : string := "Daily LLM comparisons and AI model benchmarks".

(** The primary pattern, under [re.I]; token by token, with Q the class
    of the single and the double quote:
    [<meta  \s+  name=  Q  ( [^Q]+ )  Q  \s+  content=  Q  ( [^Q]* )  Q]. *)
Definition META_RE : Re.regex :=
  Re.seq_of
    [ Re.word "<meta"; Re.Rep 1 Str.isspace; Re.word "name=";
      Re.Chr Re.quote; Re.Grp 1 (Re.Rep 1 Re.not_quote); Re.Chr Re.quote;
      Re.Rep 1 Str.isspace; Re.word "content=";
      Re.Chr Re.quote; Re.Grp 2 (Re.Rep 0 Re.not_quote); Re.Chr Re.quote ].

(** The alternate pattern, under [re.I]:
    [<meta  \s+  content=  Q  ( [^Q]* )  Q  s+  name=  Q  ( [^Q]+ )  Q].
    Between the two attributes the source has [s+], the letter, where
    [META_RE] has [\s+]. *)
Definition META_RE_ALT : Re.regex :=
  Re.seq_of
    [ Re.word "<meta"; Re.Rep 1 Str.isspace; Re.word "content=";
      Re.Chr Re.quote; Re.Grp 1 (Re.Rep 0 Re.not_quote); Re.Chr Re.quote;
      Re.Rep 1 (fun x => Str.char_eqb (Str.lower_char x) "s"%char); Re.word "name=";
      Re.Chr Re.quote; Re.Grp 2 (Re.Rep 1 Re.not_quote); Re.Chr Re.quote ].

(* ===================================================================== *)
(** * Calendar dates: the part of [datetime] the script calls *)
(* ===================================================================== *)

Module Datetime.

Local Open Scope Z_scope.

Record date : Type := Date { year : Z; month : Z; day : Z }.

Definition is_leap (y : Z) : bool :=
  (y mod 4 =? 0) && (negb (y mod 100 =? 0) || (y mod 400 =? 0)).

Definition days_in_month (y m : Z) : Z :=
  if (m =? 2) && is_leap y then 29
  else nth (Z.to_nat m) [0; 31; 28; 31; 30; 31; 30; 31; 31; 30; 31; 30; 31] 0.

Definition days_before_year (y : Z) : Z :=
  let y1 := y - 1 in y1 * 365 + y1 / 4 - y1 / 100 + y1 / 400.

Definition days_before_month (y m : Z) : Z :=
  nth (Z.to_nat m) [0; 0; 31; 59; 90; 120; 151; 181; 212; 243; 273; 304; 334] 0
  + (if (2 <? m) && is_leap y then 1 else 0).

(** [date(y, m, d).toordinal()]: day 1 is 0001-01-01. *)
Definition toordinal (d : date) : Z :=
  days_before_year (year d) + days_before_month (year d) (month d) + day d.

(** [date.weekday()]: Monday is 0. *)
Definition weekday (d : date) : Z := (toordinal d + 6) mod 7.

(** The constructor's range check; [None] stands for [ValueError]. *)
Definition make (y m d : Z) : option date :=
  if (1 <=? y) && (y <=? 9999) && (1 <=? m) && (m <=? 12)
     && (1 <=? d) && (d <=? days_in_month y m)
  then Some (Date y m d) else None.

Definition digit_value (c : ascii) : Z := Z.of_nat (Str.code c) - 48.

Fixpoint digits (acc : Z) (s : string) : option Z :=
  match s with
  | EmptyString => Some acc
  | String c s' =>
      if Str.isdigit c then digits (10 * acc + digit_value c) s' else None
  end.

(** [int(s)]: blanks around the digits are allowed; [None] stands for
    [ValueError]. *)
Definition int (s : string) : option Z :=
  match Str.strip s with
  | EmptyString => None
  | t => digits 0 t
  end.

(** The pattern [strptime] compiles the format [%Y-%m-%d] to: four
    digits; a month [1[0-2]|0[1-9]|[1-9]]; a day
    [3[0-1]|[1-2]\d|0[1-9]|[1-9]| [1-9]]. *)
Definition Y_RE : Re.regex :=
  Re.seq_of [Re.Chr Str.isdigit; Re.Chr Str.isdigit; Re.Chr Str.isdigit; Re.Chr Str.isdigit].
Definition m_RE : Re.regex :=
  Re.Alt (Re.Seq (Re.lit "1") (Re.Chr (Re.range "0" "2")))
 (Re.Alt (Re.Seq (Re.lit "0") (Re.Chr (Re.range "1" "9")))
         (Re.Chr (Re.range "1" "9"))).
Definition d_RE : Re.regex :=
  Re.Alt (Re.Seq (Re.lit "3") (Re.Chr (Re.range "0" "1")))
 (Re.Alt (Re.Seq (Re.Chr (Re.range "1" "2")) (Re.Chr Str.isdigit))
 (Re.Alt (Re.Seq (Re.lit "0") (Re.Chr (Re.range "1" "9")))
 (Re.Alt (Re.Chr (Re.range "1" "9"))
         (Re.Seq (Re.lit " ") (Re.Chr (Re.range "1" "9")))))).
Definition Ymd_RE : Re.regex :=
  Re.seq_of [Re.Grp 1 Y_RE; Re.lit "-"; Re.Grp 2 m_RE; Re.lit "-"; Re.Grp 3 d_RE].

(** [datetime.strptime(s, '%Y-%m-%d')]; [None] stands for [ValueError]:
    no match at the start of [s], text left over after the match, or a
    date the calendar does not have. *)
Definition strptime (s : string) : option date :=
  match Re.match_ Ymd_RE s with
  | Some (m, EmptyString) =>
      y ← int (Re.group m 1);
      mo ← int (Re.group m 2);
      d ← int (Re.group m 3);
      make y mo d
  | _ => None
  end.

Definition DAYNAMES : list string := ["Mon"; "Tue"; "Wed"; "Thu"; "Fri"; "Sat"; "Sun"].
Definition MONTHNAMES : list string :=
  [""; "Jan"; "Feb"; "Mar"; "Apr"; "May"; "Jun"; "Jul"; "Aug"; "Sep"; "Oct"; "Nov"; "Dec"].

Definition two_digits (n : Z) : string :=
  (if n <? 10 then "0" else "") +:+ Str.of_nat (Z.to_nat n).

(** [dt.strftime('%a, %d %b %Y 00:00:00 GMT')] in the C locale. [%Y] is
    the year in decimal as the C library prints it; from the year 1000
    on that is four digits. *)
Definition strftime (d : date) : string :=
  nth (Z.to_nat (weekday d)) DAYNAMES "" +:+ ", " +:+ two_digits (day d) +:+ " "
  +:+ nth (Z.to_nat (month d)) MONTHNAMES "" +:+ " " +:+ Str.of_nat (Z.to_nat (year d))
  +:+ " 00:00:00 GMT".

End Datetime.

(* ===================================================================== *)
(** * What the script sees and what it prints *)
(* ===================================================================== *)

(** The file system, as far as the script queries it. [read_text p] is
    [open(p, 'r', encoding='utf-8').read()], [None] when that raises. *)
Record OS : Type := {
  path_isdir : string -> bool;
  path_exists : string -> bool;
  listdir : string -> list string;
  read_text : string -> option string
}.

(** [os.path.join(a, b)] *)
Definition path_join (a b : string) : string :=
  match b with
  | String "/" _ => b
  | _ =>
      match a with
      | EmptyString => b
      | _ => if String.eqb (Str.rstrip_char "/" a) a then a +:+ "/" +:+ b else a +:+ b
      end
  end.

(** The lines the script prints, one constructor per [print] with its
    interpolated values. *)
Inductive event : Type :=
| ERROR_could_not_read (path : string)
| WARN_posts_dir_not_found
| WARN_no_index_html (folder : string)
| WARN_missing_post_date (slug : string)
| WARN_invalid_date_format (slug date : string)
| INFO_found_valid_posts (n : nat)
| INFO_wrote (filename : string).

Definition is_warning (e : event) : bool :=
  match e with
  | WARN_posts_dir_not_found | WARN_no_index_html _
  | WARN_missing_post_date _ | WARN_invalid_date_format _ _ => true
  | _ => false
  end.

(* ===================================================================== *)
(** * Metadata Extractor: [read_meta_from_html] *)
(* ===================================================================== *)

(** First loop: every match of [META_RE], in order, is stored under its
    lower-cased name. *)
Definition store_primary (data : gmap string string) (m : Re.captures) : gmap string string :=
  let name := Str.lower (Str.strip (Re.group m 1)) in
  let content := Str.strip (Re.group m 2) in
  <[name := content]> data.

(** Second loop: a match of [META_RE_ALT] is stored only under a name
    that is not in [data] yet. *)
Definition store_alternate (data : gmap string string) (m : Re.captures) : gmap string string :=
  let content := Str.strip (Re.group m 1) in
  let name := Str.lower (Str.strip (Re.group m 2)) in
  match data !! name with
  | None => <[name := content]> data
  | Some _ => data
  end.

Definition meta_of_html (html : string) : gmap string string :=
  let data := foldl store_primary ∅ (Re.finditer META_RE html) in
  foldl store_alternate data (Re.finditer META_RE_ALT html).

Definition read_meta_from_html (os : OS) (path : string) : gmap string string * list event :=
  match read_text os path with
  | Some html => (meta_of_html html, [])
  | None => (∅, [ERROR_could_not_read path])
  end.

(* ===================================================================== *)
(** * Post Collector: [gather_posts] *)
(* ===================================================================== *)

Record post : Type := Post {
  slug : string;
  url : string;
  title : string;
  date : string;
  updated : string;
  summary : string;
  thumb : string;
  tags : list string
}.

(** [a or b] where both sides are the result of [dict.get]: [None] and
    the empty string are false. *)
Definition or_get (a b : option string) : option string :=
  match a with
  | Some s => if Str.truthy s then a else b
  | None => b
  end.

(** [a or s] where [s] is a string. *)
Definition or_str (a : option string) (s : string) : string :=
  match a with
  | Some t => if Str.truthy t then t else s
  | None => s
  end.

(** [[t.strip() for t in tags_raw.split(',') if t.strip()]] *)
Definition parse_tags (tags_raw : string) : list string :=
  omap (fun t => let t' := Str.strip t in if Str.truthy t' then Some t' else None)
       (Str.split "," tags_raw).

(** The loop body from the field extraction on: the record of the post,
    or the warning with which it is skipped. *)
Definition post_of_meta (name : string) (meta : gmap string string) : post + event :=
  let slug := or_str (meta !! "post-slug") name in
  let date := meta !! "post-date" in
  let title := or_str (or_get (meta !! "post-title") (meta !! "title")) slug in
  let summary := or_str (meta !! "post-summary") (default "" (meta !! "description")) in
  let thumb := default "" (meta !! "post-thumb") in
  let tags_raw := default "" (meta !! "post-tags") in
  let updated := default "" (meta !! "post-updated") in
  let tags := parse_tags tags_raw in
  match date with
  | None => inr (WARN_missing_post_date slug)
  | Some date =>
      if negb (Str.truthy date) then inr (WARN_missing_post_date slug)
      else
        match Datetime.strptime date with
        | None => inr (WARN_invalid_date_format slug date)
        | Some _ =>
            inl {| slug := slug; url := "/posts/" +:+ slug +:+ "/"; title := title;
                   date := date; updated := updated; summary := summary;
                   thumb := thumb; tags := tags |}
        end
  end.

(** One turn of [for name in os.listdir(POSTS_DIR)], on the list built so
    far and the lines printed so far. *)
Definition gather_step (os : OS) (st : list post * list event) (name : string)
    : list post * list event :=
  let '(posts, log) := st in
  let folder := path_join POSTS_DIR name in
  let index_file := path_join folder "index.html" in
  if negb (path_isdir os folder) then (posts, log)
  else if negb (path_exists os index_file) then (posts, log ++ [WARN_no_index_html folder])
  else
    let '(meta, printed) := read_meta_from_html os index_file in
    match post_of_meta name meta with
    | inl p => (posts ++ [p], log ++ printed)
    | inr w => (posts, log ++ printed ++ [w])
    end.

(** [posts.sort(key=lambda p: p['date'], reverse=True)].  The library's
    sort is stable, also under [reverse=True]: records with equal keys
    keep their order.  Keys are compared as strings, code point by code
    point.  The model is a stable insertion sort. *)
Definition key_lt (p q : post) : bool := String.ltb (date p) (date q).

Fixpoint insert_desc (p : post) (l : list post) : list post :=
  match l with
  | [] => [p]
  | q :: l' => if key_lt p q then q :: insert_desc p l' else p :: l
  end.

Fixpoint sort_desc (l : list post) : list post :=
  match l with
  | [] => []
  | p :: l' => insert_desc p (sort_desc l')
  end.

(** The whole loop: the records in the order the directories are
    listed (the discovery order), and the lines printed. *)
Definition discover (os : OS) : list post * list event :=
  foldl (gather_step os) ([], []) (listdir os POSTS_DIR).

Definition gather_posts (os : OS) : list post * list event :=
  if negb (path_isdir os POSTS_DIR) then ([], [WARN_posts_dir_not_found])
  else
    let '(posts, log) := discover os in
    let posts := sort_desc posts in
    (posts, log ++ [INFO_found_valid_posts (length posts)]).

(* ===================================================================== *)
(** * Index Writer: [write_paginated_indexes] *)
(* ===================================================================== *)

(** The JSON object of a page; the pointer has no [posts] member. *)
Record index_json : Type := IndexJson {
  page : nat;
  per_page : nat;
  total_posts : nat;
  total_pages : nat;
  page_posts : option (list post)
}.

(** [posts[start:end]] *)
Definition slice {A} (l : list A) (start end_ : nat) : list A :=
  take (end_ - start) (drop start l).

Definition page_count (total : nat) : nat := Nat.max 1 ((total + PER_PAGE - 1) / PER_PAGE).

(** The file written for page number [page]. *)
Definition page_file (posts : list post) (page : nat) : string * index_json :=
  let total := length posts in
  let start := (page - 1) * PER_PAGE in
  let end_ := start + PER_PAGE in
  (OUTPUT_INDEX_PREFIX +:+ Str.of_nat page +:+ ".json",
   {| page := page; per_page := PER_PAGE; total_posts := total;
      total_pages := page_count total; page_posts := Some (slice posts start end_) |}).

(** The result is the files written, in order (name and content), and
    the lines printed. *)
Definition write_paginated_indexes (posts : list post)
    : list (string * index_json) * list event :=
  let total := length posts in
  let total_pages := page_count total in
  let pages := page_file posts <$> seq 1 total_pages in
  let main := {| page := 1; per_page := PER_PAGE; total_posts := total;
                 total_pages := total_pages; page_posts := None |} in
  (pages ++ [(OUTPUT_INDEX_MAIN, main)],
   ((fun f => INFO_wrote (fst f)) <$> pages) ++ [INFO_wrote OUTPUT_INDEX_MAIN]).

(** The page artifacts among the files written: all but the pointer. *)
Definition page_artifacts (posts : list post) : list index_json :=
  omap (fun f => if String.eqb (fst f) OUTPUT_INDEX_MAIN then None else Some (snd f))
       (fst (write_paginated_indexes posts)).

(* ===================================================================== *)
(** * Feed Writers: [write_sitemap], [format_rss_date], [write_rss] *)
(* ===================================================================== *)

(** An [xml.etree] element: tag, attributes, text, children. *)
#[local] Set Warnings "-register-all".
Inductive element : Type :=
| Element (tag : string) (attrib : list (string * string)) (text : option string)
    (children : list element).

Definition tag_of (e : element) : string := let 'Element t _ _ _ := e in t.
Definition text_of (e : element) : option string := let 'Element _ _ x _ := e in x.
Definition children_of (e : element) : list element := let 'Element _ _ _ c := e in c.

(** [SubElement(parent, tag).text = s], the element it adds. *)
Definition leaf (tag s : string) : element := Element tag [] (Some s) [].

Definition static_pages : list (string * string * string * string) :=
  [ ("/", "2025-01-01", "daily", "1.0");
    ("/blog/", "2025-01-01", "daily", "0.9");
    ("/about.html", "2025-01-01", "monthly", "0.5");
    ("/contact.html", "2025-01-01", "monthly", "0.5");
    ("/ai-content-policy.html", "2025-01-01", "monthly", "0.5") ].

Definition static_url (sp : string * string * string * string) : element :=
  let '(path, lastmod, freq, priority) := sp in
  Element "url" [] None
    [ leaf "loc" (Str.rstrip_char "/" SITE_URL +:+ path);
      leaf "lastmod" lastmod;
      leaf "changefreq" freq;
      leaf "priority" priority ].

(** [post.get('updated') or post['date']] *)
Definition post_lastmod (p : post) : string :=
  if Str.truthy (updated p) then updated p else date p.

Definition post_url (p : post) : element :=
  Element "url" [] None
    [ leaf "loc" (Str.rstrip_char "/" SITE_URL +:+ url p);
      leaf "lastmod" (post_lastmod p);
      leaf "changefreq" "monthly";
      leaf "priority" "0.7" ].

(** The tree written to [sitemap.xml]. *)
Definition write_sitemap (posts : list post) : element * list event :=
  (Element "urlset" [("xmlns", "http://www.sitemaps.org/schemas/sitemap/0.9")] None
     ((static_url <$> static_pages) ++ (post_url <$> posts)),
   [INFO_wrote SITEMAP]).

Definition format_rss_date (date_str : string) : string :=
  match Datetime.strptime date_str with
  | Some dt => Datetime.strftime dt
  | None => date_str
  end.

Definition rss_item (p : post) : element :=
  Element "item" [] None
    ([ leaf "title" (title p);
       leaf "link" (Str.rstrip_char "/" SITE_URL +:+ url p);
       leaf "guid" (Str.rstrip_char "/" SITE_URL +:+ url p);
       leaf "pubDate" (format_rss_date (date p));
       leaf "description" (summary p) ]
     ++ (leaf "category" <$> tags p)).

(** The tree written to [rss.xml]. [build_date] is the clock reading
    [datetime.utcnow()] as the script formats it. *)
Definition write_rss (build_date : string) (posts : list post) : element * list event :=
  let channel :=
    Element "channel" [] None
      ([ leaf "title" SITE_NAME;
         leaf "link" SITE_URL;
         leaf "description" SITE_DESCRIPTION;
         leaf "language" "en-us";
         leaf "lastBuildDate" build_date;
         Element "{http://www.w3.org/2005/Atom}link"
           [("href", SITE_URL +:+ "/rss.xml"); ("rel", "self");
            ("type", "application/rss+xml")] None [] ]
       ++ (rss_item <$> take 50 posts)) in
  (Element "rss" [("version", "2.0"); ("xmlns:atom", "http://www.w3.org/2005/Atom")] None
     [channel],
   [INFO_wrote RSS]).

(** The entries of the sitemap and the items of the feed. *)
Definition sitemap_entries (posts : list post) : list element :=
  children_of (fst (write_sitemap posts)).

Definition rss_items (build_date : string) (posts : list post) : list element :=
  filter (fun e => tag_of e = "item")
    (children_of (fst (write_rss build_date posts)) ≫= children_of).



(* ===================================================================== *)
(** * The working directory: [cleanup_old_index_files] and [main] *)
(* ===================================================================== *)

(** What a file of the working directory holds: an index object, an XML
    tree, or anything else. *)
Inductive artifact : Type :=
| JsonFile (j : index_json)
| XmlFile (e : element)
| OtherFile (content : string).

(** What the operating system answers when the script removes or opens
    for writing a name of the working directory (permissions, a
    directory in the way, a read-only disk).  The script removes a name
    at most once and opens it for writing at most once in a run, so one
    answer per name describes a run. *)
Record permissions : Type := {
  can_remove : string -> bool;
  can_write : string -> bool
}.

(** [s] ends with [suffix]. *)
Fixpoint ends_with (suffix s : string) : bool :=
  String.eqb s suffix
  || match s with
     | String _ s' => ends_with suffix s'
     | EmptyString => false
     end.

(** What is left of [s] after its prefix [p]. *)
Fixpoint strip_prefix (p s : string) : option string :=
  match p, s with
  | EmptyString, _ => Some s
  | String a p', String b s' => if Str.char_eqb a b then strip_prefix p' s' else None
  | String _ _, EmptyString => None
  end.

(** A name matches the pattern [posts-index-page-*.json]: the prefix,
    any text, the suffix. *)
Definition matches_page_pattern (name : string) : bool :=
  match strip_prefix OUTPUT_INDEX_PREFIX name with
  | Some rest => ends_with ".json" rest
  | None => false
  end.

(** [glob.glob(pattern)] in the working directory; the order of the
    names is the one of the directory listing. *)
Definition glob_pages (cwd : gmap string artifact) : list string :=
  filter (fun name => matches_page_pattern name = true) (map_to_list cwd).*1.

(** The lines [main] and [cleanup_old_index_files] print, next to those
    of the stages. *)
Inductive line : Type :=
| Stage (e : event)
| RULE
| TITLE
| WARN_no_posts_found
| WARN_could_not_remove (filepath : string)
| GENERATION_COMPLETE
| TOTAL_POSTS (n : nat)
| INDEX_PAGES (n : nat).

(** One turn of the loop of [cleanup_old_index_files]. *)
Definition remove_step (perm : permissions) (st : gmap string artifact * list line)
    (filepath : string) : gmap string artifact * list line :=
  if can_remove perm filepath then (delete filepath st.1, st.2)
  else (st.1, st.2 ++ [WARN_could_not_remove filepath]).

Definition cleanup_old_index_files (perm : permissions) (cwd : gmap string artifact)
    : gmap string artifact * list line :=
  foldl (remove_step perm) (cwd, []) (glob_pages cwd).

(** How a run ends: normally, or with the exception of the [open] that
    failed, which nothing catches. *)
Inductive outcome : Type :=
| Completed
| Raised (filename : string).

(** The writes of the three output stages, in order: each one opens the
    file, writes it and prints its line; the first [open] that fails
    ends the run. *)
Fixpoint write_all (perm : permissions) (files : list (string * artifact))
    (st : gmap string artifact * list line) : gmap string artifact * list line * outcome :=
  match files with
  | [] => (st, Completed)
  | f :: rest =>
      if can_write perm f.1
      then write_all perm rest (<[f.1 := f.2]> st.1, st.2 ++ [Stage (INFO_wrote f.1)])
      else (st, Raised f.1)
  end.

(** The files of a run, in the order of the three stages
    [write_paginated_indexes], [write_sitemap], [write_rss]. *)
Definition output_files (build_date : string) (posts : list post) : list (string * artifact) :=
  ((fun f => (f.1, JsonFile f.2)) <$> (write_paginated_indexes posts).1)
  ++ [(SITEMAP, XmlFile (write_sitemap posts).1);
      (RSS, XmlFile (write_rss build_date posts).1)].

(** [main()]: the working directory after the run, the lines printed and
    how the run ended. *)
Definition main (os : OS) (perm : permissions) (build_date : string)
    (cwd : gmap string artifact) : gmap string artifact * list line * outcome :=
  let posts := (gather_posts os).1 in
  let head := [RULE; TITLE; RULE] ++ (Stage <$> (gather_posts os).2)
              ++ (match posts with [] => [WARN_no_posts_found] | _ => [] end) in
  let cleaned := cleanup_old_index_files perm cwd in
  match write_all perm (output_files build_date posts) (cleaned.1, head ++ cleaned.2) with
  | (st, Completed) =>
      (st.1,
       st.2 ++ [RULE; GENERATION_COMPLETE; TOTAL_POSTS (length posts);
                INDEX_PAGES (Nat.max 1 ((length posts + PER_PAGE - 1) / PER_PAGE)); RULE],
       Completed)
  | failed => failed
  end.


(* ===================================================================== *)
(** * Notions used to state the properties *)
(* ===================================================================== *)

(** ** Metadata declarations *)

(** What one match of the primary pattern stores: the lower-cased name
    and the content. *)
Definition primary_entry (m : Re.captures) : string * string :=
  (Str.lower (Str.strip (Re.group m 1)), Str.strip (Re.group m 2)).

(** The matches of the primary pattern in a file, in the order found. *)
Definition primary_entries (html : string) : list (string * string) :=
  primary_entry <$> Re.finditer META_RE html.

(** Every character of the string is in the class. *)
Fixpoint all_chars (p : Re.charset) (s : string) : bool :=
  match s with
  | EmptyString => true
  | String c s' => p c && all_chars p s'
  end.

(** A character other than [<], and a character that is neither a quote
    nor [<]: the characters of a plain attribute value. *)
Definition not_lt : Re.charset := fun x => negb (Str.char_eqb x "<").
Definition plain : Re.charset := fun x => Re.not_quote x && not_lt x.

(** The pattern can only match at a [<]. *)
Definition starts_with_lt (r : Re.regex) : Prop :=
  Re.match_ r EmptyString = None
  /\ forall (a : ascii) (s : string), not_lt a = true -> Re.match_ r (String a s) = None.

(** A declaration with the attributes in the primary order, [name] then
    [content], and in the alternate order, [content] then [name]: [q] is
    the quote character and [ws] the text between the two attributes. *)
Definition primary_declaration (q : ascii) (n ws c : string) : string :=
  "<meta name=" +:+ String q (n +:+ String q (ws +:+ "content=" +:+ String q (c +:+ String q ">"))).
Definition alternate_declaration (q : ascii) (c ws n : string) : string :=
  "<meta content=" +:+ String q (c +:+ String q (ws +:+ "name=" +:+ String q (n +:+ String q ">"))).

(** The same with one blank between the attributes: values in single
    quotes, and values in double quotes. *)
Definition meta_name_content (n c : string) : string :=
  "<meta name='" +:+ n +:+ "' content='" +:+ c +:+ "'>".
Definition meta_content_name (c n : string) : string :=
  "<meta content='" +:+ c +:+ "' name='" +:+ n +:+ "'>".

Definition dq : string := String Str.dquote EmptyString.
Definition meta_name_content_dq (n c : string) : string :=
  "<meta name=" +:+ dq +:+ n +:+ dq +:+ " content=" +:+ dq +:+ c +:+ dq +:+ ">".
Definition meta_content_name_dq (c n : string) : string :=
  "<meta content=" +:+ dq +:+ c +:+ dq +:+ " name=" +:+ dq +:+ n +:+ dq +:+ ">".

(** ** The collection *)

(** The string is accepted by the date check of the collector. *)
Definition date_parses (s : string) : Prop := is_Some (Datetime.strptime s).

(** The two paths the collector derives from a directory name. *)
Definition folder_of (name : string) : string := path_join POSTS_DIR name.
Definition index_file_of (name : string) : string := path_join (folder_of name) "index.html".

(** The warning with which a post is skipped for its date. *)
Definition is_date_warning (e : event) : Prop :=
  match e with
  | WARN_missing_post_date _ | WARN_invalid_date_format _ _ => True
  | _ => False
  end.

(** The record a directory entry contributes to the collection, if any:
    the entry is a directory, has an index file, and its metadata pass
    the date check. *)
Definition collected (os : OS) (name : string) : option post :=
  if path_isdir os (folder_of name) && path_exists os (index_file_of name) then
    match post_of_meta name (read_meta_from_html os (index_file_of name)).1 with
    | inl p => Some p
    | inr _ => None
    end
  else None.

(** [p] may stand before [q] in the sorted list: the key of [p] is not
    below that of [q]. *)
Definition not_below (p q : post) : Prop := key_lt p q = false.

(** A date written the way the format spells it: the year on four
    digits, the month and the day on two, zero-padded. *)
Definition digit (a : nat) : ascii := ascii_of_nat (48 + a).

Fixpoint padded (w n : nat) : string :=
  match w with
  | 0 => EmptyString
  | S w' => String (digit (n / 10 ^ w')) (padded w' (n mod 10 ^ w'))
  end.

Definition iso_date (y m d : nat) : string :=
  padded 4 y +:+ "-" +:+ padded 2 m +:+ "-" +:+ padded 2 d.

(** The metadata names whose fallback the collector decides by truth
    value. *)
Definition fallback_keys : list string :=
  ["post-slug"; "post-title"; "post-summary"; "post-date"].

(** ** Pages *)

(** [ceil(n / d)] for natural numbers: the quotient, and one more when
    the division leaves a remainder. *)
Definition ceil_div (n d : nat) : nat := n / d + (if n mod d =? 0 then 0 else 1).

(** The slices of the page artifacts, in page order. *)
Definition page_slices (posts : list post) : list (list post) :=
  omap page_posts (page_artifacts posts).

(** ** Sitemap entries and feed items *)

(** The entry of the sitemap for a post, field by field. *)
Definition sitemap_post_entry (p : post) : element :=
  Element "url" [] None
    [ leaf "loc" (SITE_URL +:+ url p);
      leaf "lastmod" (if decide (updated p = "") then date p else updated p);
      leaf "changefreq" "monthly";
      leaf "priority" "0.7" ].

(** The five entries of the static pages, written out. *)
Definition sitemap_static_entries : list element :=
  [ Element "url" [] None
      [ leaf "loc" "https://comparellms.in/"; leaf "lastmod" "2025-01-01";
        leaf "changefreq" "daily"; leaf "priority" "1.0" ];
    Element "url" [] None
      [ leaf "loc" "https://comparellms.in/blog/"; leaf "lastmod" "2025-01-01";
        leaf "changefreq" "daily"; leaf "priority" "0.9" ];
    Element "url" [] None
      [ leaf "loc" "https://comparellms.in/about.html"; leaf "lastmod" "2025-01-01";
        leaf "changefreq" "monthly"; leaf "priority" "0.5" ];
    Element "url" [] None
      [ leaf "loc" "https://comparellms.in/contact.html"; leaf "lastmod" "2025-01-01";
        leaf "changefreq" "monthly"; leaf "priority" "0.5" ];
    Element "url" [] None
      [ leaf "loc" "https://comparellms.in/ai-content-policy.html";
        leaf "lastmod" "2025-01-01"; leaf "changefreq" "monthly"; leaf "priority" "0.5" ] ].

(** The item of the feed for a post, field by field; [pub_date] is the
    text of its publish date. *)
Definition feed_item (p : post) (pub_date : string) : element :=
  Element "item" [] None
    ([ leaf "title" (title p);
       leaf "link" (SITE_URL +:+ url p);
       leaf "guid" (SITE_URL +:+ url p);
       leaf "pubDate" pub_date;
       leaf "description" (summary p) ]
     ++ (leaf "category" <$> tags p)).

(** The day of the week of a date of the Gregorian calendar, by Zeller's
    congruence: 0 is Saturday, 1 Sunday, and so on to 6, Friday.  January
    and February count as the months 13 and 14 of the year before. *)
Definition zeller (y m d : Z) : Z :=
  let y' := if (m <=? 2)%Z then (y - 1)%Z else y in
  let m' := if (m <=? 2)%Z then (m + 12)%Z else m in
  ((d + 13 * (m' + 1) / 5 + y' mod 100 + (y' mod 100) / 4 + (y' / 100) / 4
    + 5 * (y' / 100)) mod 7)%Z.

Definition day_name (y m d : Z) : string :=
  nth (Z.to_nat (zeller y m d)) ["Sat"; "Sun"; "Mon"; "Tue"; "Wed"; "Thu"; "Fri"] "".

Definition month_name (m : Z) : string :=
  nth (Z.to_nat (m - 1))
    ["Jan"; "Feb"; "Mar"; "Apr"; "May"; "Jun"; "Jul"; "Aug"; "Sep"; "Oct"; "Nov"; "Dec"] "".

(** Midnight GMT of the day [y]-[m]-[d] as a date-time of RFC 822: the
    name of the day, the day of the month on two digits, the name of the
    month, the year, the time and the zone.  [year_text] is the text of
    the year. *)
Definition date_text (y m d : Z) (year_text : string) : string :=
  day_name y m d +:+ ", " +:+ padded 2 (Z.to_nat d) +:+ " " +:+ month_name m +:+ " "
  +:+ year_text +:+ " 00:00:00 GMT".

(** The RFC-822 rendering: the year on four digits (RFC 822 has two
    digits, RFC 1123 and RSS 2.0 four, which is what [%Y] stands for). *)
Definition rfc822 (y m d : Z) : string := date_text y m d (padded 4 (Z.to_nat y)).

(** ** Newest first *)

(** [a] is an earlier day than [b]. *)
Definition earlier (a b : Datetime.date) : Prop :=
  (Datetime.year a < Datetime.year b
   \/ (Datetime.year a = Datetime.year b
       /\ (Datetime.month a < Datetime.month b
           \/ (Datetime.month a = Datetime.month b
               /\ Datetime.day a < Datetime.day b))))%Z.

(** The list is sorted by date, newest first: a record dated a later day
    than another one stands before it. *)
Definition newest_first (posts : list post) : Prop :=
  forall (i j : nat) (A B : post) (dA dB : Datetime.date),
    posts !! i = Some A -> posts !! j = Some B ->
    Datetime.strptime (date A) = Some dA -> Datetime.strptime (date B) = Some dB ->
    earlier dB dA -> i < j.

(** ** Sample inputs *)

(** A file system in which every path is a directory, every file exists
    and reads as [html], and the posts directory lists [names]. *)
Definition os_of (names : list string) (html : string -> string) : OS :=
  {| path_isdir := fun _ => true;
     path_exists := fun _ => true;
     listdir := fun _ => names;
     read_text := fun p => Some (html p) |}.

(** A posts directory with four entries: a post dated 2025-06-01 with a
    title and two tags, a post dated 2025-07-01 with an empty slug, a post
    with an empty date and a post whose date does not parse. *)
Definition example_html (path : string) : string :=
  if String.eqb path "posts/a/index.html" then
    meta_name_content "post-date" "2025-06-01" +:+ meta_name_content "post-title" "Foo"
    +:+ meta_name_content "post-tags" "a, b"
  else if String.eqb path "posts/b/index.html" then
    meta_name_content "post-date" "2025-07-01" +:+ meta_name_content "post-slug" ""
  else if String.eqb path "posts/c/index.html" then
    meta_name_content "post-date" ""
  else meta_name_content "post-date" "June".

Definition example_os : OS := os_of ["a"; "b"; "c"; "d"] example_html.

(** Two posts, the second with a date that is not padded. *)
Definition unpadded_os : OS :=
  os_of ["december"; "june"]
    (fun p => if String.eqb p "posts/june/index.html"
              then meta_name_content "post-date" "2025-6-1"
              else meta_name_content "post-date" "2025-12-31").

(** One post directory, [foo]: date 2025-06-01, title Foo, tags [a, b]. *)
Definition roundtrip_os : OS :=
  os_of ["foo"]
    (fun _ => meta_name_content_dq "post-date" "2025-06-01"
              +:+ meta_name_content_dq "post-title" "Foo"
              +:+ meta_name_content_dq "post-tags" "a, b").

(** Three posts of 2025: 15 January, 30 September with the month not
    padded, and 1 October. *)
Definition autumn_os : OS :=
  os_of ["jan"; "sep"; "oct"]
    (fun p => if String.eqb p "posts/jan/index.html"
              then meta_name_content "post-date" "2025-01-15"
              else if String.eqb p "posts/sep/index.html"
              then meta_name_content "post-date" "2025-9-30"
              else meta_name_content "post-date" "2025-10-01").

(** One post, dated the first day of the year 1. *)
Definition year_one_os : OS :=
  os_of ["old"] (fun _ => meta_name_content "post-date" "0001-01-01").

(** A mapping whose only entry is an empty [post-date], and a mapping
    with a date, empty [post-slug], [post-title] and [post-summary], and a
    [title] and a [description]. *)
Definition empty_date_meta : gmap string string := {["post-date" := ""]}.
Definition empty_fields_meta : gmap string string :=
  {[ "post-date" := "2025-06-01"; "post-slug" := ""; "post-title" := "";
     "title" := "T"; "post-summary" := ""; "description" := "D" ]}.

(** A list of [n] records, told apart by their slug. *)
Definition numbered_post (i : nat) : post :=
  Post (Str.of_nat i) ("/posts/" +:+ Str.of_nat i +:+ "/") "t" "2025-06-01" "" "" "" [].
Definition numbered_posts (n : nat) : list post := numbered_post <$> seq 0 n.


(* ===================================================================== *)
(** * Further notions: texts, tags, files *)
(* ===================================================================== *)

(** A text without surrounding white space. *)
Definition trimmed (s : string) : Prop := Str.strip s = s.

(** A text in lower case. *)
Definition lower_case (s : string) : Prop := Str.lower s = s.

(** What the extractor stores for a declaration with name [e.1] and
    content [e.2]. *)
Definition stored (e : string * string) : string * string :=
  (Str.lower (Str.strip e.1), Str.strip e.2).

(** A file made of declarations in the primary order, each followed by
    the text [sep]. *)
Fixpoint render_meta (q w : ascii) (ws sep : string) (l : list (string * string)) : string :=
  match l with
  | [] => EmptyString
  | e :: l' => primary_declaration q e.1 (String w ws) e.2 +:+ sep +:+ render_meta q w ws sep l'
  end.

(** A name and a content that a declaration can carry as they are. *)
Definition plain_entry (e : string * string) : Prop :=
  e.1 <> EmptyString /\ all_chars plain e.1 = true /\ all_chars plain e.2 = true.

(** What holds of every entry the two loops of the extractor store. *)
Definition tidy_entry (k v : string) : Prop := lower_case k /\ trimmed k /\ trimmed v.

(** A declaration in the primary order with every part left free: the
    three keywords (in any letter case), the two runs of white space and
    the four quote characters. *)
Definition free_declaration (kw_meta ws0 kw_name : string) (q1 : ascii) (n : string)
    (q2 : ascii) (ws1 kw_content : string) (q3 : ascii) (c : string) (q4 : ascii) : string :=
  kw_meta +:+ ws0 +:+ kw_name +:+ String q1 (n +:+ String q2 (ws1 +:+ kw_content
    +:+ String q3 (c +:+ String q4 EmptyString))).

(** A tag as the collector keeps it: not empty, no white space around
    it, no comma in it. *)
Definition not_comma : Re.charset := fun x => negb (Str.char_eqb x ",").
Definition clean_tag (t : string) : Prop :=
  t <> EmptyString /\ trimmed t /\ all_chars not_comma t = true.

(** [', '.join(tags)] *)
Fixpoint join_tags (l : list string) : string :=
  match l with
  | [] => EmptyString
  | [t] => t
  | t :: l' => t +:+ ", " +:+ join_tags l'
  end.

(** The entry of the listing is a directory. *)
Definition is_directory (os : OS) (name : string) : Prop :=
  path_isdir os (folder_of name) = true.

(** The warnings among the lines printed. *)
Definition warnings (log : list event) : list event :=
  filter (fun e => is_warning e = true) log.

#[global] Instance is_directory_dec (os : OS) (name : string) :
  Decision (is_directory os name) :=
  decide (path_isdir os (folder_of name) = true).

(** The same file system with another listing of the posts directory. *)
Definition with_listing (os : OS) (names : list string) : OS :=
  {| path_isdir := path_isdir os;
     path_exists := path_exists os;
     listdir := fun _ => names;
     read_text := read_text os |}.

(** A posts directory with a file, a directory without index file, a
    directory whose index file cannot be read, and a post. *)
Definition mixed_os : OS :=
  {| path_isdir := fun p => negb (String.eqb p "posts/README.md");
     path_exists := fun p => negb (String.eqb p "posts/draft/index.html");
     listdir := fun _ => ["README.md"; "draft"; "locked"; "hello"];
     read_text := fun p =>
       if String.eqb p "posts/hello/index.html"
       then Some (meta_name_content "post-date" "2025-06-01"
                  +:+ meta_name_content "post-tags" "a, b")
       else None |}.

(** The name of the file of page [N], and the pointer artifact for a
    list of [n] records. *)
Definition page_name (N : nat) : string :=
  OUTPUT_INDEX_PREFIX +:+ Str.of_nat N +:+ ".json".
Definition pointer (n : nat) : index_json :=
  IndexJson 1 PER_PAGE n (page_count n) None.

(** ** The working directory *)

(** The directory after the files have been written over it, in order. *)
Definition written (files : list (string * artifact)) (m : gmap string artifact)
    : gmap string artifact :=
  foldl (fun m f => <[f.1 := f.2]> m) m files.

(** The lines of the files written. *)
Definition wrote_lines (files : list (string * artifact)) : list line :=
  (fun f => Stage (INFO_wrote f.1)) <$> files.

(** The names the run writes, and the lines it prints before it cleans
    up. *)
Definition output_names (posts : list post) : list string :=
  (page_name <$> seq 1 (page_count (length posts))) ++ [OUTPUT_INDEX_MAIN; SITEMAP; RSS].

Definition head_lines (os : OS) : list line :=
  [RULE; TITLE; RULE] ++ (Stage <$> (gather_posts os).2)
  ++ (match (gather_posts os).1 with [] => [WARN_no_posts_found] | _ => [] end).

(** The five lines that close a completed run. *)
Definition summary_lines (posts pages : nat) : list line :=
  [RULE; GENERATION_COMPLETE; TOTAL_POSTS posts; INDEX_PAGES pages; RULE].

(** Sample permissions: everything allowed; everything but writing the
    sitemap; everything but removing page 7. *)
Definition allow_all : permissions :=
  {| can_remove := fun _ => true; can_write := fun _ => true |}.
Definition sitemap_locked : permissions :=
  {| can_remove := fun _ => true; can_write := fun name => negb (String.eqb name SITEMAP) |}.
Definition page_7_locked : permissions :=
  {| can_remove := fun name => negb (String.eqb name (page_name 7));
     can_write := fun _ => true |}.

(** A working directory that holds a home page, and the pages 1, 7 and
    8 of an earlier run. *)
Definition earlier_cwd : gmap string artifact :=
  {[ "index.html" := OtherFile "home";
     page_name 1 := OtherFile "old page 1";
     page_name 7 := OtherFile "old page 7";
     page_name 8 := OtherFile "old page 8" ]}.

(** A file system without the posts directory. *)
Definition no_posts_dir : OS :=
  {| path_isdir := fun _ => false;
     path_exists := fun _ => false;
     listdir := fun _ => [];
     read_text := fun _ => None |}.
(* ===================================================================== *)
(** * Facts about the string order and the sort *)
(* ===================================================================== *)

Section StringOrder.

Lemma string_app_nil_r (s : string) : s +:+ EmptyString = s.
Proof.
  induction s as [|a s IH]; [reflexivity|].
  change (String a s +:+ EmptyString) with (String a (s +:+ EmptyString)). now rewrite IH.
Qed.

Lemma ascii_compare_refl (a : ascii) : Ascii.compare a a = Eq.
Proof. unfold Ascii.compare. apply N.compare_refl. Qed.

Lemma string_compare_refl (s : string) : String.compare s s = Eq.
Proof.
  induction s as [|a s IH]; simpl; [reflexivity|].
  now rewrite ascii_compare_refl.
Qed.

Lemma string_ltb_irrefl (s : string) : String.ltb s s = false.
Proof. unfold String.ltb. now rewrite string_compare_refl. Qed.

(** [>=] on strings is transitive. *)
Lemma string_compare_ge_trans (a b c : string) :
  String.compare a b <> Lt -> String.compare b c <> Lt -> String.compare a c <> Lt.
Proof.
  revert b c. induction a as [|x a IH]; intros [|y b] [|z c]; simpl; try congruence.
  unfold Ascii.compare.
  destruct (N.compare_spec (N_of_ascii x) (N_of_ascii y)) as [Hxy|Hxy|Hxy];
    destruct (N.compare_spec (N_of_ascii y) (N_of_ascii z)) as [Hyz|Hyz|Hyz];
    destruct (N.compare_spec (N_of_ascii x) (N_of_ascii z)) as [Hxz|Hxz|Hxz];
    try congruence; try lia.
  apply IH.
Qed.

Lemma string_ltb_false_trans (a b c : string) :
  String.ltb a b = false -> String.ltb b c = false -> String.ltb a c = false.
Proof.
  unfold String.ltb. intros Hab Hbc.
  pose proof (string_compare_ge_trans a b c) as H.
  destruct (String.compare a b), (String.compare b c), (String.compare a c);
    try reflexivity; try discriminate; exfalso; apply H; congruence.
Qed.

End StringOrder.

Section Sort.

Lemma not_below_trans p q r : not_below p q -> not_below q r -> not_below p r.
Proof. unfold not_below, key_lt. apply string_ltb_false_trans. Qed.

Lemma insert_desc_perm p l : insert_desc p l ≡ₚ p :: l.
Proof.
  induction l as [|q l IH]; simpl; [reflexivity|].
  destruct (key_lt p q); [|reflexivity].
  rewrite IH. apply Permutation_swap.
Qed.

Lemma sort_desc_perm l : sort_desc l ≡ₚ l.
Proof.
  induction l as [|p l IH]; simpl; [reflexivity|].
  rewrite insert_desc_perm. now rewrite IH.
Qed.

Lemma insert_desc_sorted p l :
  StronglySorted not_below l -> StronglySorted not_below (insert_desc p l).
Proof.
  induction 1 as [|q l Hs IH Hq]; simpl.
  - repeat constructor.
  - destruct (key_lt p q) eqn:Hpq.
    + constructor; [exact IH|].
      rewrite insert_desc_perm. constructor; [|exact Hq].
      (* [p < q] as strings, so [q] is not below [p] *)
      unfold not_below, key_lt in *. unfold String.ltb in *.
      rewrite String.compare_antisym.
      destruct (String.compare (date p) (date q)); simpl; congruence.
    + constructor; [constructor; assumption|].
      constructor; [exact Hpq|].
      eapply Forall_impl; [exact Hq|].
      intros r Hr. eapply not_below_trans; eassumption.
Qed.

Lemma sort_desc_sorted l : StronglySorted not_below (sort_desc l).
Proof.
  induction l as [|p l IH]; simpl; [constructor|].
  now apply insert_desc_sorted.
Qed.

Lemma strongly_sorted_lookup (l : list post) i j a b :
  StronglySorted not_below l ->
  l !! i = Some a -> l !! j = Some b -> i < j -> not_below a b.
Proof.
  intros Hs. revert i j. induction Hs as [|q l Hs IH Hq]; intros i j Hi Hj Hlt.
  - discriminate.
  - destruct j as [|j]; [lia|]. destruct i as [|i]; simpl in *.
    + injection Hi as <-. rewrite Forall_forall in Hq. apply Hq.
      eapply list_elem_of_lookup_2; eassumption.
    + eapply IH; eauto. lia.
Qed.

(** Stability: the records of one date keep their order. *)
Lemma insert_desc_filter (d : string) p l :
  filter (fun q => date q = d) (insert_desc p l)
  = filter (fun q => date q = d) (p :: l).
Proof.
  induction l as [|q l IH]; simpl; [reflexivity|].
  destruct (key_lt p q) eqn:Hpq; [|reflexivity].
  rewrite filter_cons, IH, !filter_cons.
  destruct (decide (date q = d)) as [Hq|Hq]; [|reflexivity].
  destruct (decide (date p = d)) as [Hp|Hp]; [|reflexivity].
  exfalso. unfold key_lt in Hpq. rewrite Hq, Hp, string_ltb_irrefl in Hpq. discriminate.
Qed.

Lemma sort_desc_filter (d : string) l :
  filter (fun q => date q = d) (sort_desc l) = filter (fun q => date q = d) l.
Proof.
  induction l as [|p l IH]; simpl; [reflexivity|].
  rewrite insert_desc_filter, !filter_cons, IH. reflexivity.
Qed.

End Sort.

Section PaddedDates.

#[local] Arguments String.append !_ _ / : simpl nomatch.

Lemma ascii_compare_digit (a b : nat) :
  a < 10 -> b < 10 -> Ascii.compare (digit a) (digit b) = Nat.compare a b.
Proof.
  intros Ha Hb. unfold Ascii.compare, digit.
  rewrite <- (N2Nat.id (N_of_ascii (ascii_of_nat (48 + a)))).
  rewrite <- (N2Nat.id (N_of_ascii (ascii_of_nat (48 + b)))).
  change (N.to_nat (N_of_ascii ?x)) with (nat_of_ascii x).
  rewrite !nat_ascii_embedding by lia.
  rewrite <- Nat2N.inj_compare.
  destruct (Nat.compare_spec (48 + a) (48 + b)), (Nat.compare_spec a b);
    try reflexivity; lia.
Qed.

(** Numbers written on the same number of digits compare as strings the
    way they compare as numbers. *)
Lemma compare_padded (w : nat) :
  forall (n1 n2 : nat) (s1 s2 : string),
    n1 < 10 ^ w -> n2 < 10 ^ w ->
    String.compare (padded w n1 +:+ s1) (padded w n2 +:+ s2)
    = match Nat.compare n1 n2 with
      | Eq => String.compare s1 s2
      | c => c
      end.
Proof.
  induction w as [|w IH]; intros n1 n2 s1 s2 H1 H2.
  - simpl in *. assert (n1 = 0) as -> by lia. assert (n2 = 0) as -> by lia. reflexivity.
  - cbn [padded]. simpl String.append. cbn [String.compare].
    set (P := 10 ^ w) in *.
    assert (0 < P) as HP by (apply Nat.neq_0_lt_0, Nat.pow_nonzero; lia).
    assert (10 ^ S w = 10 * P) as HS by (unfold P; apply Nat.pow_succ_r').
    rewrite HS in H1, H2.
    pose proof (Nat.div_mod_eq n1 P) as E1. pose proof (Nat.div_mod_eq n2 P) as E2.
    pose proof (Nat.mod_upper_bound n1 P ltac:(lia)) as R1.
    pose proof (Nat.mod_upper_bound n2 P ltac:(lia)) as R2.
    assert (n1 / P < 10) as Q1 by (apply Nat.Div0.div_lt_upper_bound; lia).
    assert (n2 / P < 10) as Q2 by (apply Nat.Div0.div_lt_upper_bound; lia).
    rewrite ascii_compare_digit by assumption.
    rewrite IH by assumption.
    destruct (Nat.compare_spec (n1 / P) (n2 / P)) as [Hq|Hq|Hq];
      destruct (Nat.compare_spec (n1 mod P) (n2 mod P)) as [Hr|Hr|Hr];
      destruct (Nat.compare_spec n1 n2) as [Hn|Hn|Hn];
      try reflexivity; exfalso; nia.
Qed.

(** For dates in the padded form the order of the strings is the order
    of the calendar. *)
Lemma padded_dates_order (y1 m1 d1 y2 m2 d2 : nat) :
  y1 < 10 ^ 4 -> y2 < 10 ^ 4 -> m1 < 10 ^ 2 -> m2 < 10 ^ 2 -> d1 < 10 ^ 2 -> d2 < 10 ^ 2 ->
  String.ltb (iso_date y1 m1 d1) (iso_date y2 m2 d2) = true
  <-> y1 < y2 \/ (y1 = y2 /\ (m1 < m2 \/ (m1 = m2 /\ d1 < d2))).
Proof.
  intros Hy1 Hy2 Hm1 Hm2 Hd1 Hd2. unfold String.ltb, iso_date.
  rewrite (compare_padded 4) by assumption. cbn [String.append String.compare].
  change (Ascii.compare "-" "-") with Eq. cbv iota.
  rewrite (compare_padded 2) by assumption. cbn [String.append String.compare].
  change (Ascii.compare "-" "-") with Eq. cbv iota.
  rewrite <- (string_app_nil_r (padded 2 d1)), <- (string_app_nil_r (padded 2 d2)).
  rewrite (compare_padded 2) by assumption. cbn [String.compare].
  destruct (Nat.compare_spec y1 y2); destruct (Nat.compare_spec m1 m2);
    destruct (Nat.compare_spec d1 d2); split; intros Hlt;
    try discriminate; try reflexivity; lia.
Qed.

Example iso_date_example :
  iso_date 2025 6 1 = "2025-06-01"
  /\ Datetime.strptime (iso_date 2025 6 1) = Some (Datetime.Date 2025 6 1).
Proof. split; vm_compute; reflexivity. Qed.

End PaddedDates.

(* ===================================================================== *)
(** * Facts about the matcher *)
(* ===================================================================== *)

Section Matcher.

Context {A : Type}.
Implicit Types (k : string -> option A) (p : Re.charset).

(** In this section [simpl] may unfold the concatenation of strings. *)
#[local] Arguments String.append !_ _ / : simpl nomatch.

Lemma string_app_assoc (a b c : string) : (a +:+ b) +:+ c = a +:+ (b +:+ c).
Proof. induction a as [|x a IH]; simpl; [reflexivity|now rewrite IH]. Qed.

(** A repetition fails when the rest of the pattern fails wherever the
    repetition may stop. *)
Lemma rep_fails p k (post : string) :
  match post with String a _ => p a = false | EmptyString => True end ->
  forall (pre : string) (min : nat),
    (forall t1 t2 : string, pre = t1 +:+ t2 -> k (t2 +:+ post) = None) ->
    Re.rep p k min (pre +:+ post) = None.
Proof.
  intros Hpost pre. induction pre as [|a pre IH]; intros min Hk.
  - pose proof (Hk EmptyString EmptyString eq_refl) as Hk0. simpl in *.
    destruct post as [|b post]; simpl; [by destruct min|].
    rewrite Hpost. by destruct min.
  - pose proof (Hk EmptyString (String a pre) eq_refl) as Hk0. simpl in *.
    rewrite IH; [by destruct (p a), min|].
    intros t1 t2 ->. apply (Hk (String a t1) t2). reflexivity.
Qed.

(** A repetition over a run of the class stops at its end when the rest
    of the pattern succeeds there. *)
Lemma rep_succeeds p k (post : string) (x : A) :
  match post with String a _ => p a = false | EmptyString => True end ->
  k post = Some x ->
  forall (pre : string) (min : nat),
    all_chars p pre = true -> min <= String.length pre ->
    Re.rep p k min (pre +:+ post) = Some x.
Proof.
  intros Hpost Hk pre. induction pre as [|a pre IH]; intros min Hpre Hmin.
  - simpl in *. assert (min = 0) as -> by lia.
    destruct post as [|b post]; simpl; [exact Hk|]. now rewrite Hpost.
  - simpl in *. apply andb_prop in Hpre as [-> Hpre].
    rewrite IH; [reflexivity|exact Hpre|lia].
Qed.

(** The rest of the pattern runs on what a construct leaves, which is
    never longer than what the construct was given. *)
Lemma rep_continues p k (min : nat) (s : string) (x : A) :
  Re.rep p k min s = Some x ->
  exists s' : string, k s' = Some x /\ String.length s' <= String.length s.
Proof.
  revert min. induction s as [|a s IH]; intros min; simpl.
  - destruct min; [|discriminate]. intros Hk. exists EmptyString. split; [exact Hk|simpl; lia].
  - assert ((match min with 0 => k (String a s) | S _ => None end) = Some x ->
            exists s', k s' = Some x /\ String.length s' <= S (String.length s)) as Hstop.
    { destruct min; [|discriminate]. intros Hk. exists (String a s). split; [exact Hk|simpl; lia]. }
    destruct (p a); [|exact Hstop].
    destruct (Re.rep p k (Nat.pred min) s) as [y|] eqn:Hrec; [|exact Hstop].
    intros [= ->]. destruct (IH _ Hrec) as (s' & Hk & Hlen). exists s'. split; [exact Hk|lia].
Qed.

Lemma exec_continues (r : Re.regex) (s : string) (caps : gmap nat string)
    (k : string -> gmap nat string -> option A) (x : A) :
  Re.exec r s caps k = Some x ->
  exists (s' : string) (caps' : gmap nat string),
    k s' caps' = Some x /\ String.length s' <= String.length s.
Proof.
  revert s caps k. induction r as [|p|min p|r1 IH1 r2 IH2|r1 IH1 r2 IH2|g r1 IH1];
    intros s caps k; simpl.
  - intros Hk. exists s, caps. split; [exact Hk|lia].
  - destruct s as [|a s]; [discriminate|]. destruct (p a); [|discriminate].
    intros Hk. exists s, caps. split; [exact Hk|simpl; lia].
  - intros Hrep. apply rep_continues in Hrep as (s' & Hk & Hlen). eauto.
  - intros H1. apply IH1 in H1 as (s1 & caps1 & H2 & Hlen1).
    apply IH2 in H2 as (s2 & caps2 & Hk & Hlen2). exists s2, caps2. split; [exact Hk|lia].
  - destruct (Re.exec r1 s caps k) as [y|] eqn:H1.
    + intros [= ->]. now apply IH1 in H1.
    + apply IH2.
  - intros H1. apply IH1 in H1 as (s1 & caps1 & Hk & Hlen). eauto.
Qed.

End Matcher.

Section Consumes.

Lemma finditer_from_S (fuel : nat) (r : Re.regex) (s : string) :
  Re.finditer_from (S fuel) r s
  = match Re.match_ r s with
    | Some (m, rest) =>
        if String.length rest <? String.length s
        then m :: Re.finditer_from fuel r rest
        else [m]
    | None =>
        match s with
        | String _ s' => Re.finditer_from fuel r s'
        | EmptyString => []
        end
    end.
Proof. reflexivity. Qed.


(** A match of a pattern that starts with a single character is not
    empty: what is left is shorter than the text. *)
Lemma match_consumes (p : Re.charset) (r1 r2 : Re.regex) (s rest : string)
    (m : gmap nat string) :
  Re.match_ (Re.Seq (Re.Seq (Re.Chr p) r1) r2) s = Some (m, rest) ->
  String.length rest < String.length s.
Proof.
  unfold Re.match_. simpl. destruct s as [|a s]; [discriminate|].
  destruct (p a); [|discriminate]. intros H.
  apply exec_continues in H as (s1 & caps1 & H & Hlen1).
  apply exec_continues in H as (s2 & caps2 & [= _ ->] & Hlen2). simpl. lia.
Qed.

Lemma META_RE_consumes (s rest : string) (m : gmap nat string) :
  Re.match_ META_RE s = Some (m, rest) -> String.length rest < String.length s.
Proof. apply match_consumes. Qed.

Lemma META_RE_ALT_consumes (s rest : string) (m : gmap nat string) :
  Re.match_ META_RE_ALT s = Some (m, rest) -> String.length rest < String.length s.
Proof. apply match_consumes. Qed.

(** With a pattern whose matches are not empty the scan does not depend
    on the fuel, once there is more of it than characters: the fuel that
    [finditer] gives is enough. *)
Lemma finditer_fuel (r : Re.regex) :
  (forall s rest m, Re.match_ r s = Some (m, rest) -> String.length rest < String.length s) ->
  forall (fuel1 fuel2 : nat) (s : string),
    String.length s < fuel1 -> String.length s < fuel2 ->
    Re.finditer_from fuel1 r s = Re.finditer_from fuel2 r s.
Proof.
  intros Hr fuel1. induction fuel1 as [|fuel1 IH]; intros fuel2 s H1 H2; [lia|].
  destruct fuel2 as [|fuel2]; [lia|]. rewrite !finditer_from_S.
  destruct (Re.match_ r s) as [[m rest]|] eqn:Hm.
  - pose proof (Hr _ _ _ Hm) as Hlt.
    destruct (String.length rest <? String.length s); [|reflexivity].
    f_equal. apply IH; lia.
  - destruct s as [|a s]; [reflexivity|]. simpl in *. apply IH; lia.
Qed.

Lemma finditer_META_RE_fuel (fuel : nat) (s : string) :
  String.length s < fuel -> Re.finditer_from fuel META_RE s = Re.finditer META_RE s.
Proof.
  intros H. unfold Re.finditer. apply (finditer_fuel META_RE META_RE_consumes); lia.
Qed.

Lemma finditer_META_RE_ALT_fuel (fuel : nat) (s : string) :
  String.length s < fuel -> Re.finditer_from fuel META_RE_ALT s = Re.finditer META_RE_ALT s.
Proof.
  intros H. unfold Re.finditer. apply (finditer_fuel META_RE_ALT META_RE_ALT_consumes); lia.
Qed.

End Consumes.

Section Declarations.

#[local] Arguments String.append !_ _ / : simpl nomatch.

Lemma all_chars_app p (s t : string) :
  all_chars p (s +:+ t) = all_chars p s && all_chars p t.
Proof.
  induction s as [|a s IH]; simpl; [reflexivity|]. now rewrite IH, andb_assoc.
Qed.

Lemma length_append (s t : string) :
  String.length (s +:+ t) = String.length s + String.length t.
Proof. induction s as [|a s IH]; simpl; [reflexivity|]. now rewrite IH. Qed.

Lemma substring_prefix (s t : string) : substring 0 (String.length s) (s +:+ t) = s.
Proof.
  induction s as [|a s IH]; simpl; [by destruct t|]. now rewrite IH.
Qed.

(** The text a group takes is what stands before the rest. *)
Lemma consumed_app (pre post : string) : Re.consumed (pre +:+ post) post = pre.
Proof.
  unfold Re.consumed. rewrite length_append.
  replace (String.length pre + String.length post - String.length post)
    with (String.length pre) by lia.
  apply substring_prefix.
Qed.

(** No white space character is the letter s, in either case. *)
Lemma space_is_not_s (w : ascii) :
  Str.isspace w = true -> Str.char_eqb (Str.lower_char w) "s" = false.
Proof.
  destruct w as [b0 b1 b2 b3 b4 b5 b6 b7].
  destruct b0, b1, b2, b3, b4, b5, b6, b7; intros H; try reflexivity;
    vm_compute in H; discriminate H.
Qed.

Lemma quote_not_not_quote (q : ascii) : Re.quote q = true -> Re.not_quote q = false.
Proof. unfold Re.not_quote. now intros ->. Qed.

(** The alternate pattern fails at a declaration written in the
    alternate order with white space after the first attribute. *)
Lemma alternate_pattern_fails (q w : ascii) (c ws n tail : string) :
  Re.quote q = true ->
  all_chars Re.not_quote c = true ->
  Str.isspace w = true ->
  Re.match_ META_RE_ALT (alternate_declaration q c (String w ws) n +:+ tail) = None.
Proof.
  intros Hq Hc Hw. unfold Re.match_, META_RE_ALT, alternate_declaration.
  simpl. rewrite Hq. rewrite string_app_assoc.
  rewrite rep_fails; [reflexivity| |].
  - simpl. now apply quote_not_not_quote.
  - intros t1 t2 ->. rewrite all_chars_app in Hc. apply andb_prop in Hc as [_ Hc].
    destruct t2 as [|a t2]; simpl.
    + rewrite Hq. simpl. now rewrite (space_is_not_s w Hw).
    + simpl in Hc. apply andb_prop in Hc as [Ha _].
      unfold Re.not_quote in Ha. apply negb_true_iff in Ha. now rewrite Ha.
Qed.

(** The primary pattern matches a declaration written in the primary
    order, with the name and the content as its two groups. *)
Lemma primary_pattern_matches (q : ascii) (n ws c tail : string) :
  Re.quote q = true ->
  n <> EmptyString -> all_chars Re.not_quote n = true ->
  ws <> EmptyString -> all_chars Str.isspace ws = true ->
  all_chars Re.not_quote c = true ->
  Re.match_ META_RE (primary_declaration q n ws c +:+ tail)
  = Some (<[2 := c]> (<[1 := n]> ∅), ">" +:+ tail).
Proof.
  intros Hq Hn0 Hn Hws0 Hws Hc. unfold Re.match_, META_RE, primary_declaration.
  repeat first [rewrite string_app_assoc | progress simpl]. rewrite Hq.
  erewrite rep_succeeds;
    [reflexivity|now apply quote_not_not_quote|
    |exact Hn|destruct n; simpl; [congruence|lia]].
  rewrite Hq.
  apply rep_succeeds;
    [reflexivity| |exact Hws|destruct ws; simpl; [congruence|lia]].
  simpl. rewrite Hq.
  apply rep_succeeds;
    [now apply quote_not_not_quote| |exact Hc|simpl; lia].
  rewrite Hq.
  rewrite !consumed_app. reflexivity.
Qed.

(** Both patterns start with the literal [<]. *)
Lemma lit_lt (x : ascii) :
  Str.char_eqb (Str.lower_char x) (Str.lower_char "<") = Str.char_eqb x "<".
Proof.
  destruct x as [b0 b1 b2 b3 b4 b5 b6 b7].
  destruct b0, b1, b2, b3, b4, b5, b6, b7; reflexivity.
Qed.

Lemma META_RE_starts_with_lt : starts_with_lt META_RE.
Proof.
  split; [reflexivity|]. intros a s Ha. unfold Re.match_, META_RE. simpl.
  rewrite lit_lt. unfold not_lt in Ha. apply negb_true_iff in Ha. now rewrite Ha.
Qed.

Lemma META_RE_ALT_starts_with_lt : starts_with_lt META_RE_ALT.
Proof.
  split; [reflexivity|]. intros a s Ha. unfold Re.match_, META_RE_ALT. simpl.
  rewrite lit_lt. unfold not_lt in Ha. apply negb_true_iff in Ha. now rewrite Ha.
Qed.

(** Such a pattern has no match in a text without [<]. *)
Lemma finditer_from_no_lt (r : Re.regex) (fuel : nat) (s : string) :
  starts_with_lt r -> all_chars not_lt s = true -> Re.finditer_from fuel r s = [].
Proof.
  intros [Hnil Hcons]. revert s. induction fuel as [|fuel IH]; intros s Hs; [reflexivity|].
  destruct s as [|a s]; simpl in *.
  - now rewrite Hnil.
  - apply andb_prop in Hs as [Ha Hs]. rewrite (Hcons a s Ha). now apply IH.
Qed.

Lemma plain_not_quote (s : string) : all_chars plain s = true -> all_chars Re.not_quote s = true.
Proof.
  induction s as [|a s IH]; simpl; [reflexivity|]. unfold plain at 1.
  intros [[-> _]%andb_prop Hs]%andb_prop. now rewrite IH.
Qed.

Lemma plain_not_lt (s : string) : all_chars plain s = true -> all_chars not_lt s = true.
Proof.
  induction s as [|a s IH]; simpl; [reflexivity|]. unfold plain at 1.
  intros [[_ ->]%andb_prop Hs]%andb_prop. now rewrite IH.
Qed.

Lemma space_not_lt (w : ascii) : Str.isspace w = true -> not_lt w = true.
Proof.
  destruct w as [b0 b1 b2 b3 b4 b5 b6 b7].
  destruct b0, b1, b2, b3, b4, b5, b6, b7; intros H; try reflexivity;
    vm_compute in H; discriminate H.
Qed.

Lemma spaces_not_lt (s : string) : all_chars Str.isspace s = true -> all_chars not_lt s = true.
Proof.
  induction s as [|a s IH]; simpl; [reflexivity|].
  intros [Ha Hs]%andb_prop. now rewrite (space_not_lt a Ha), IH.
Qed.

Lemma quote_not_lt (q : ascii) : Re.quote q = true -> not_lt q = true.
Proof.
  destruct q as [b0 b1 b2 b3 b4 b5 b6 b7].
  destruct b0, b1, b2, b3, b4, b5, b6, b7; intros H; try reflexivity;
    vm_compute in H; discriminate H.
Qed.

(** A text whose only [<] is its first character has at most the match
    that starts there. *)
Lemma finditer_none (r : Re.regex) (s : string) :
  starts_with_lt r -> all_chars not_lt s = true ->
  Re.match_ r (String "<" s) = None ->
  Re.finditer r (String "<" s) = [].
Proof.
  intros Hr Hs Hm. unfold Re.finditer. rewrite finditer_from_S, Hm.
  now apply finditer_from_no_lt.
Qed.

Lemma finditer_one (r : Re.regex) (s rest : string) (m : Re.captures) :
  starts_with_lt r -> all_chars not_lt rest = true ->
  Re.match_ r (String "<" s) = Some (m, rest) ->
  String.length rest <= String.length s ->
  Re.finditer r (String "<" s) = [m].
Proof.
  intros Hr Hrest Hm Hlen. unfold Re.finditer. rewrite finditer_from_S, Hm.
  destruct (String.length rest <? String.length (String "<" s)) eqn:Hlt.
  - f_equal. now apply finditer_from_no_lt.
  - apply Nat.ltb_ge in Hlt. simpl in Hlt. lia.
Qed.

End Declarations.

(* ===================================================================== *)
(** * Metadata Extractor *)
(* ===================================================================== *)

Section Extractor.

Implicit Types (data : gmap string string) (ms : list Re.captures).

Lemma store_primary_entry data m :
  store_primary data m = <[(primary_entry m).1 := (primary_entry m).2]> data.
Proof. reflexivity. Qed.

(** Matches under other names leave a name alone. *)
Lemma foldl_store_primary_other data ms name :
  name ∉ (primary_entry <$> ms).*1 ->
  foldl store_primary data ms !! name = data !! name.
Proof.
  revert data. induction ms as [|m ms IH]; intros data Hn; simpl; [reflexivity|].
  rewrite !fmap_cons, not_elem_of_cons in Hn. destruct Hn as [Hne Hn].
  rewrite IH by exact Hn. rewrite store_primary_entry.
  apply lookup_insert_ne. congruence.
Qed.

(** The second loop never replaces a value. *)
Lemma foldl_store_alternate_keeps data ms name c :
  data !! name = Some c -> foldl store_alternate data ms !! name = Some c.
Proof.
  revert data. induction ms as [|m ms IH]; intros data Hd; simpl; [exact Hd|].
  apply IH. unfold store_alternate.
  destruct (data !! Str.lower (Str.strip (Re.group m 2))) eqn:Hk; [exact Hd|].
  rewrite lookup_insert_ne; [exact Hd|]. congruence.
Qed.

Lemma meta_of_html_last_primary html name c before after :
  primary_entries html = before ++ (name, c) :: after ->
  name ∉ after.*1 ->
  meta_of_html html !! name = Some c.
Proof.
  unfold primary_entries, meta_of_html. intros Hsplit Hafter.
  apply foldl_store_alternate_keeps.
  apply fmap_app_inv in Hsplit as (ms1 & ms' & -> & Hms' & ->).
  symmetry in Hms'. apply fmap_cons_inv in Hms' as (m & ms2 & Hm & -> & ->).
  rewrite foldl_app. simpl.
  rewrite foldl_store_primary_other by exact Hafter.
  rewrite store_primary_entry, <- Hm. simpl. apply lookup_insert_eq.
Qed.

#[local] Arguments String.append !_ _ / : simpl nomatch.

(** The declarations of the two orders, seen by the two patterns. *)
Lemma finditer_primary_on_primary (q w : ascii) (n ws c : string) :
  Re.quote q = true -> n <> EmptyString -> all_chars plain n = true ->
  Str.isspace w = true -> all_chars Str.isspace ws = true -> all_chars plain c = true ->
  Re.finditer META_RE (primary_declaration q n (String w ws) c)
  = [<[2 := c]> (<[1 := n]> ∅)].
Proof.
  intros Hq Hn0 Hn Hw Hws Hc.
  pose proof (primary_pattern_matches q n (String w ws) c EmptyString Hq Hn0
                (plain_not_quote n Hn) ltac:(discriminate)
                ltac:(simpl; now rewrite Hw, Hws) (plain_not_quote c Hc)) as Hm.
  rewrite string_app_nil_r in Hm.
  apply (finditer_one META_RE _ ">" _ META_RE_starts_with_lt eq_refl Hm).
  simpl. lia.
Qed.

Lemma body_not_lt (q w : ascii) (a b ws x y : string) :
  Re.quote q = true -> Str.isspace w = true -> all_chars Str.isspace ws = true ->
  all_chars plain x = true -> all_chars plain y = true ->
  all_chars not_lt a = true -> all_chars not_lt b = true ->
  all_chars not_lt
    (a +:+ String q (x +:+ String q (String w ws +:+ b +:+ String q (y +:+ String q ">"))))
  = true.
Proof.
  intros Hq Hw Hws Hx Hy Ha Hb.
  repeat first [rewrite all_chars_app | progress simpl].
  rewrite Ha, Hb, (quote_not_lt q Hq), (space_not_lt w Hw), (spaces_not_lt ws Hws),
    (plain_not_lt x Hx), (plain_not_lt y Hy). reflexivity.
Qed.

Lemma finditer_alternate_on_primary (q w : ascii) (n ws c : string) :
  Re.quote q = true -> all_chars plain n = true ->
  Str.isspace w = true -> all_chars Str.isspace ws = true -> all_chars plain c = true ->
  Re.finditer META_RE_ALT (primary_declaration q n (String w ws) c) = [].
Proof.
  intros Hq Hn Hw Hws Hc.
  apply (finditer_none META_RE_ALT _ META_RE_ALT_starts_with_lt).
  - apply (body_not_lt q w "meta name=" "content=" ws n c); auto.
  - reflexivity.
Qed.

Lemma finditer_primary_on_alternate (q w : ascii) (n ws c : string) :
  Re.quote q = true -> all_chars plain n = true ->
  Str.isspace w = true -> all_chars Str.isspace ws = true -> all_chars plain c = true ->
  Re.finditer META_RE (alternate_declaration q c (String w ws) n) = [].
Proof.
  intros Hq Hn Hw Hws Hc.
  apply (finditer_none META_RE _ META_RE_starts_with_lt).
  - apply (body_not_lt q w "meta content=" "name=" ws c n); auto.
  - reflexivity.
Qed.

Lemma finditer_alternate_on_alternate (q w : ascii) (n ws c : string) :
  Re.quote q = true -> all_chars plain n = true ->
  Str.isspace w = true -> all_chars Str.isspace ws = true -> all_chars plain c = true ->
  Re.finditer META_RE_ALT (alternate_declaration q c (String w ws) n) = [].
Proof.
  intros Hq Hn Hw Hws Hc.
  apply (finditer_none META_RE_ALT _ META_RE_ALT_starts_with_lt).
  - apply (body_not_lt q w "meta content=" "name=" ws c n); auto.
  - pose proof (alternate_pattern_fails q w c ws n EmptyString Hq
                  (plain_not_quote c Hc) Hw) as Hm.
    now rewrite string_app_nil_r in Hm.
Qed.

End Extractor.

(** The two declarations on a concrete input, with single and with double
    quotes; the alternate pattern does match when the letter [s] is glued
    between the attributes. *)
Example alternate_order_examples :
  meta_of_html (meta_content_name "2025-06-01" "post-date") = ∅
  /\ meta_of_html (meta_content_name_dq "2025-06-01" "post-date") = ∅
  /\ meta_of_html (meta_name_content "post-date" "2025-06-01") !! "post-date"
     = Some "2025-06-01"
  /\ meta_of_html (meta_name_content_dq "post-date" "2025-06-01") !! "post-date"
     = Some "2025-06-01"
  /\ meta_of_html "<meta content='2025-06-01'sname='post-date'>" !! "post-date"
     = Some "2025-06-01".
Proof. repeat split; vm_compute; reflexivity. Qed.

(** C1 (the code departs from it): the extractor is meant to recognise a
    declaration in either attribute order.  Take a name and a content
    without quote and without [<], either quote character and any white
    space between the two attributes.  The declaration written
    [name=... content=...] yields the mapping from the lower-cased name to
    the content.  The same declaration written [content=... name=...]
    yields the empty mapping: the alternate pattern asks for the letter
    [s] where the primary one asks for white space, so it is never
    matched by a declaration whose attributes are separated by white
    space. *)
Theorem alternate_order_not_recognised (q w : ascii) (n ws c : string) :
  Re.quote q = true ->
  n <> EmptyString -> all_chars plain n = true ->
  Str.isspace w = true -> all_chars Str.isspace ws = true ->
  all_chars plain c = true ->
  meta_of_html (primary_declaration q n (String w ws) c)
  = {[Str.lower (Str.strip n) := Str.strip c]}
  /\ meta_of_html (alternate_declaration q c (String w ws) n) = ∅.
Proof.
  intros Hq Hn0 Hn Hw Hws Hc. unfold meta_of_html. split.
  - rewrite finditer_primary_on_primary, finditer_alternate_on_primary by assumption.
    simpl. unfold store_primary, Re.group.
    rewrite lookup_insert_ne by discriminate. rewrite !lookup_insert_eq. simpl.
    apply insert_empty.
  - rewrite finditer_primary_on_alternate, finditer_alternate_on_alternate by assumption.
    reflexivity.
Qed.

Lemma alternate_order_not_recognised_witness :
  meta_of_html (primary_declaration Str.dquote "Post-Date" " " "2025-06-01")
  = {[Str.lower (Str.strip "Post-Date") := Str.strip "2025-06-01"]}
  /\ meta_of_html (alternate_declaration Str.dquote "2025-06-01" " " "Post-Date") = ∅.
Proof.
  apply (alternate_order_not_recognised Str.dquote " " "Post-Date" "" "2025-06-01").
  - reflexivity.
  - discriminate.
  - reflexivity.
  - reflexivity.
  - reflexivity.
  - reflexivity.
Defined.

(** C9: when the primary pattern matches a name several times, the
    mapping holds the content of the last of these matches. Stated for
    the last match of a name among the matches of the primary pattern
    ([after] has no match of that name), whatever stands before it. *)
Theorem later_primary_match_overwrites (os : OS) (path html name c : string)
    (before after : list (string * string)) :
  read_text os path = Some html ->
  primary_entries html = before ++ (name, c) :: after ->
  name ∉ after.*1 ->
  (read_meta_from_html os path).1 !! name = Some c.
Proof.
  intros Hread Hsplit Hafter. unfold read_meta_from_html. rewrite Hread. simpl.
  eapply meta_of_html_last_primary; eassumption.
Qed.

Lemma later_primary_match_overwrites_witness :
  (read_meta_from_html
     (os_of [] (fun _ => meta_name_content "k" "1" +:+ meta_name_content "K" " 2 "))
     "posts/a/index.html").1 !! "k" = Some "2".
Proof.
  apply (later_primary_match_overwrites _ _
           (meta_name_content "k" "1" +:+ meta_name_content "K" " 2 ")
           "k" "2" [("k", "1")] []).
  - reflexivity.
  - vm_compute. reflexivity.
  - simpl. apply not_elem_of_nil.
Defined.

(* ===================================================================== *)
(** * Post Collector *)
(* ===================================================================== *)

Section Collector.

Variable os : OS.

Lemma post_of_meta_inl name meta p :
  post_of_meta name meta = inl p ->
  meta !! "post-date" = Some (date p) /\ date_parses (date p).
Proof.
  unfold post_of_meta, date_parses.
  destruct (meta !! "post-date") as [d|]; [|discriminate].
  destruct (Str.truthy d); simpl; [|discriminate].
  destruct (Datetime.strptime d) eqn:Hd; [|discriminate].
  intros [= <-]. simpl. rewrite Hd. eauto.
Qed.

Lemma post_of_meta_bad_date name meta :
  (meta !! "post-date" = None
   \/ exists d, meta !! "post-date" = Some d /\ ~ date_parses d) ->
  exists w, post_of_meta name meta = inr w /\ is_date_warning w.
Proof.
  unfold post_of_meta, date_parses.
  intros [-> | (d & -> & Hd)]; [eexists; split; [reflexivity|exact I]|].
  destruct (Str.truthy d); simpl; [|eexists; split; [reflexivity|exact I]].
  destruct (Datetime.strptime d); [|eexists; split; [reflexivity|exact I]].
  exfalso. apply Hd. eauto.
Qed.

(** One turn of the loop adds nothing or one record with a good date,
    and only adds to what is printed. *)
Lemma gather_step_shape st name :
  exists ps evs,
    gather_step os st name = (st.1 ++ ps, st.2 ++ evs)
    /\ Forall (fun p => date_parses (date p)) ps.
Proof.
  destruct st as [posts log]. unfold gather_step. simpl.
  destruct (path_isdir os _); simpl;
    [|exists [], []; rewrite !app_nil_r; split; [reflexivity|constructor]].
  destruct (path_exists os _); simpl;
    [|exists [], [WARN_no_index_html (path_join POSTS_DIR name)];
      rewrite app_nil_r; split; [reflexivity|constructor]].
  destruct (read_meta_from_html os _) as [meta printed].
  destruct (post_of_meta name meta) as [p|w] eqn:Hp.
  - exists [p], printed. split; [reflexivity|].
    constructor; [|constructor]. eapply post_of_meta_inl; eassumption.
  - exists [], (printed ++ [w]). rewrite app_nil_r. split; [reflexivity|constructor].
Qed.

Lemma foldl_gather_step_shape names st :
  exists ps evs,
    foldl (gather_step os) st names = (st.1 ++ ps, st.2 ++ evs)
    /\ Forall (fun p => date_parses (date p)) ps.
Proof.
  revert st. induction names as [|name names IH]; intros st; simpl.
  - exists [], []. rewrite !app_nil_r. split; [by destruct st|constructor].
  - destruct (gather_step_shape st name) as (ps1 & evs1 & Hstep & Hps1).
    destruct (IH (gather_step os st name)) as (ps2 & evs2 & Hfold & Hps2).
    exists (ps1 ++ ps2), (evs1 ++ evs2). rewrite Hfold, Hstep. simpl.
    rewrite !app_assoc. split; [reflexivity|]. apply Forall_app; split; assumption.
Qed.

(** The list after one turn, and after the loop: the records of the
    entries that pass, in the order of the listing. *)
Lemma gather_step_posts st name :
  (gather_step os st name).1 = st.1 ++ option_list (collected os name).
Proof.
  destruct st as [posts log]. unfold gather_step, collected, index_file_of, folder_of.
  destruct (path_isdir os _); simpl; [|now rewrite app_nil_r].
  destruct (path_exists os _); simpl; [|now rewrite app_nil_r].
  destruct (read_meta_from_html os _) as [meta printed]. simpl.
  destruct (post_of_meta name meta); simpl; [reflexivity|now rewrite app_nil_r].
Qed.

Lemma foldl_gather_step_posts names st :
  (foldl (gather_step os) st names).1 = st.1 ++ omap (collected os) names.
Proof.
  revert st. induction names as [|name names IH]; intros st; simpl.
  - now rewrite app_nil_r.
  - rewrite IH, gather_step_posts, <- app_assoc. f_equal.
    now destruct (collected os name).
Qed.

Lemma discover_posts : (discover os).1 = omap (collected os) (listdir os POSTS_DIR).
Proof. unfold discover. now rewrite foldl_gather_step_posts. Qed.

Lemma collected_bad_date name :
  ((read_meta_from_html os (index_file_of name)).1 !! "post-date" = None
   \/ exists d, (read_meta_from_html os (index_file_of name)).1 !! "post-date" = Some d
                /\ ~ date_parses d) ->
  collected os name = None.
Proof.
  intros Hbad. unfold collected.
  destruct (post_of_meta_bad_date name _ Hbad) as (w & -> & _).
  now destruct (_ && _).
Qed.

Lemma discover_dates_parse : Forall (fun p => date_parses (date p)) (discover os).1.
Proof.
  unfold discover.
  destruct (foldl_gather_step_shape (listdir os POSTS_DIR) ([], [])) as (ps & evs & -> & Hps).
  exact Hps.
Qed.

Lemma gather_posts_unfold :
  gather_posts os =
    if path_isdir os POSTS_DIR
    then (sort_desc (discover os).1,
          (discover os).2 ++ [INFO_found_valid_posts (length (sort_desc (discover os).1))])
    else ([], [WARN_posts_dir_not_found]).
Proof.
  unfold gather_posts. destruct (path_isdir os POSTS_DIR); simpl; [|reflexivity].
  destruct (discover os); reflexivity.
Qed.

Lemma gather_posts_dates : Forall (fun p => date_parses (date p)) (gather_posts os).1.
Proof.
  rewrite gather_posts_unfold. destruct (path_isdir os POSTS_DIR); simpl; [|constructor].
  rewrite sort_desc_perm. apply discover_dates_parse.
Qed.

(** A directory whose date is missing or does not parse: the turn of the
    loop leaves the list as it is and prints the warning. *)
Lemma gather_step_bad_date st name :
  path_isdir os (folder_of name) = true ->
  path_exists os (index_file_of name) = true ->
  ((read_meta_from_html os (index_file_of name)).1 !! "post-date" = None
   \/ exists d, (read_meta_from_html os (index_file_of name)).1 !! "post-date" = Some d
                /\ ~ date_parses d) ->
  exists w, is_date_warning w
    /\ gather_step os st name
       = (st.1, st.2 ++ (read_meta_from_html os (index_file_of name)).2 ++ [w]).
Proof.
  unfold index_file_of, folder_of. intros Hdir Hex Hbad.
  destruct st as [posts log]. unfold gather_step. rewrite Hdir, Hex. simpl.
  destruct (read_meta_from_html os _) as [meta printed]. simpl in *.
  destruct (post_of_meta_bad_date name meta Hbad) as (w & -> & Hw).
  exists w. split; [exact Hw|reflexivity].
Qed.

Lemma discover_bad_date_warned name :
  name ∈ listdir os POSTS_DIR ->
  path_isdir os (folder_of name) = true ->
  path_exists os (index_file_of name) = true ->
  ((read_meta_from_html os (index_file_of name)).1 !! "post-date" = None
   \/ exists d, (read_meta_from_html os (index_file_of name)).1 !! "post-date" = Some d
                /\ ~ date_parses d) ->
  exists w, is_date_warning w /\ w ∈ (discover os).2.
Proof.
  intros Hin Hdir Hex Hbad. unfold discover.
  apply list_elem_of_split in Hin as (l1 & l2 & ->).
  rewrite foldl_app. simpl.
  destruct (gather_step_bad_date (foldl (gather_step os) ([], []) l1) name Hdir Hex Hbad)
    as (w & Hw & ->).
  exists w. split; [exact Hw|].
  destruct (foldl_gather_step_shape l2
              ((foldl (gather_step os) ([], []) l1).1,
               (foldl (gather_step os) ([], []) l1).2
                 ++ (read_meta_from_html os (index_file_of name)).2 ++ [w]))
    as (ps & evs & -> & _).
  simpl. rewrite !elem_of_app, list_elem_of_singleton. auto.
Qed.

End Collector.

(** C2: every record the collector returns has a date that parses in the
    fixed format.  A directory whose date is missing (no [post-date], or
    an empty one) or does not parse is left out: it contributes no record
    to the collection, which is made of the records of the other entries;
    its turn of the loop leaves the list unchanged, the warning it prints
    is in the output of the run, and the run goes on to its last line, the
    count of the records found. *)
Theorem gather_posts_dates_parse (os : OS) :
  Forall (fun p => date_parses (date p)) (gather_posts os).1
  /\ forall name : string,
       path_isdir os POSTS_DIR = true ->
       name ∈ listdir os POSTS_DIR ->
       path_isdir os (folder_of name) = true ->
       path_exists os (index_file_of name) = true ->
       ((read_meta_from_html os (index_file_of name)).1 !! "post-date" = None
        \/ exists d, (read_meta_from_html os (index_file_of name)).1 !! "post-date" = Some d
                     /\ ~ date_parses d) ->
       collected os name = None
       /\ (gather_posts os).1 = sort_desc (omap (collected os) (listdir os POSTS_DIR))
       /\ (forall st, (gather_step os st name).1 = st.1)
       /\ (exists w, is_date_warning w /\ is_warning w = true /\ w ∈ (gather_posts os).2)
       /\ last (gather_posts os).2
          = Some (INFO_found_valid_posts (length (gather_posts os).1)).
Proof.
  split; [apply gather_posts_dates|].
  intros name Hposts Hin Hdir Hex Hbad.
  split; [now apply collected_bad_date|]. split; [|split; [|split]].
  - rewrite gather_posts_unfold, Hposts. simpl. now rewrite discover_posts.
  - intros st. destruct (gather_step_bad_date os st name Hdir Hex Hbad) as (w & _ & ->).
    reflexivity.
  - destruct (discover_bad_date_warned os name Hin Hdir Hex Hbad) as (w & Hw & Hlog).
    exists w. split; [exact Hw|]. split; [by destruct w|].
    rewrite gather_posts_unfold, Hposts. simpl. apply elem_of_app. auto.
  - rewrite gather_posts_unfold, Hposts. simpl. apply last_snoc.
Qed.

Lemma gather_posts_dates_parse_witness :
  collected example_os "d" = None
  /\ (gather_posts example_os).1
     = sort_desc (omap (collected example_os) (listdir example_os POSTS_DIR))
  /\ (forall st, (gather_step example_os st "d").1 = st.1)
  /\ (exists w, is_date_warning w /\ is_warning w = true /\ w ∈ (gather_posts example_os).2)
  /\ last (gather_posts example_os).2
     = Some (INFO_found_valid_posts (length (gather_posts example_os).1)).
Proof.
  apply (proj2 (gather_posts_dates_parse example_os) "d").
  - reflexivity.
  - simpl. repeat constructor.
  - reflexivity.
  - reflexivity.
  - right. exists "June". split.
    + vm_compute. reflexivity.
    + intros [x Hx]. vm_compute in Hx. discriminate Hx.
Defined.

(** What the sort guarantees: the list the collector returns is in
    non-increasing order of the [date] texts, compared as strings, and
    records of one date stand in the order in which the loop found
    them. *)
Lemma gather_posts_sorted (os : OS) :
  (forall (i j : nat) (A B : post),
      (gather_posts os).1 !! i = Some A ->
      (gather_posts os).1 !! j = Some B ->
      String.ltb (date B) (date A) = true ->
      i < j)
  /\ (forall d : string,
        filter (fun p => date p = d) (gather_posts os).1
        = filter (fun p => date p = d)
            (if path_isdir os POSTS_DIR then (discover os).1 else [])).
Proof.
  rewrite gather_posts_unfold. split.
  - intros i j A B Hi Hj Hlt. destruct (path_isdir os POSTS_DIR); simpl in *; [|discriminate].
    destruct (Nat.lt_ge_cases i j) as [Hij|Hji]; [exact Hij|exfalso].
    destruct (Nat.eq_dec j i) as [->|Hne].
    + rewrite Hi in Hj. injection Hj as ->. rewrite string_ltb_irrefl in Hlt. discriminate.
    + assert (not_below B A) as Hnb.
      { eapply strongly_sorted_lookup; [apply sort_desc_sorted|exact Hj|exact Hi|lia]. }
      unfold not_below, key_lt in Hnb. congruence.
  - intros d. destruct (path_isdir os POSTS_DIR); simpl; [|reflexivity].
    apply sort_desc_filter.
Qed.

(** The date check accepts a month and a day without padding, and the
    keys are compared as strings: a post dated [2025-6-1] is placed before
    one dated [2025-12-31]. *)
Example unpadded_dates_sort_as_strings :
  Datetime.strptime "2025-6-1" = Some (Datetime.Date 2025 6 1)
  /\ slug <$> (gather_posts unpadded_os).1 = ["june"; "december"].
Proof. split; vm_compute; reflexivity. Qed.

(** C3: the collector does not return its records newest first, as its
    documentation says.  The date check accepts dates that are not
    zero-padded and the record keeps the text; the sort compares the
    texts.  Whenever two records of the collection are dated so that the
    text of the earlier day is above the text of the later day, the
    record of the earlier day stands before the other one, and the list
    is not sorted newest first. *)
Theorem gather_posts_not_newest_first (os : OS) (A B : post) (dA dB : Datetime.date) :
  A ∈ (gather_posts os).1 -> B ∈ (gather_posts os).1 ->
  Datetime.strptime (date A) = Some dA -> Datetime.strptime (date B) = Some dB ->
  earlier dA dB ->
  String.ltb (date B) (date A) = true ->
  (exists i j : nat,
      (gather_posts os).1 !! i = Some A /\ (gather_posts os).1 !! j = Some B /\ i < j)
  /\ ~ newest_first (gather_posts os).1.
Proof.
  intros HA HB HdA HdB Hearlier Hlt.
  apply list_elem_of_lookup in HA as [i Hi]. apply list_elem_of_lookup in HB as [j Hj].
  pose proof (proj1 (gather_posts_sorted os) i j A B Hi Hj Hlt) as Hij.
  split; [exists i, j; auto|].
  intros Hnewest. pose proof (Hnewest j i B A dB dA Hj Hi HdB HdA Hearlier). lia.
Qed.

Lemma gather_posts_not_newest_first_witness :
  ((slug <$> (gather_posts autumn_os).1 = ["sep"; "oct"; "jan"]
    /\ date <$> (gather_posts autumn_os).1 = ["2025-9-30"; "2025-10-01"; "2025-01-15"])
   /\ Datetime.strptime "2025-9-30" = Some (Datetime.Date 2025 9 30)
   /\ Datetime.strptime "2025-10-01" = Some (Datetime.Date 2025 10 1))
  /\ (exists i j : nat,
        (gather_posts autumn_os).1 !! i
        = Some (Post "sep" "/posts/sep/" "sep" "2025-9-30" "" "" "" [])
        /\ (gather_posts autumn_os).1 !! j
           = Some (Post "oct" "/posts/oct/" "oct" "2025-10-01" "" "" "" [])
        /\ i < j)
  /\ ~ newest_first (gather_posts autumn_os).1.
Proof.
  split; [repeat split; vm_compute; reflexivity|].
  apply (gather_posts_not_newest_first autumn_os
           (Post "sep" "/posts/sep/" "sep" "2025-9-30" "" "" "" [])
           (Post "oct" "/posts/oct/" "oct" "2025-10-01" "" "" "" [])
           (Datetime.Date 2025 9 30) (Datetime.Date 2025 10 1)).
  - apply list_elem_of_lookup. exists 0. vm_compute. reflexivity.
  - apply list_elem_of_lookup. exists 1. vm_compute. reflexivity.
  - vm_compute. reflexivity.
  - vm_compute. reflexivity.
  - unfold earlier. simpl. lia.
  - vm_compute. reflexivity.
Defined.

(** C10: in the fallback chains a value that is present and empty counts
    as absent.  For each of [post-slug], [post-title], [post-summary] and
    [post-date], a mapping that holds the empty string under that name
    gives what the mapping without that name gives.  With an empty date
    the post is skipped with the warning of a missing date, not that of a
    bad format.  With a date that parses a record is built, and in it an
    empty slug gives the directory name, an empty title gives [title] or,
    when that is absent or empty too, the slug, and an empty summary gives
    [description] or else the empty string. *)
Theorem empty_value_like_absent (name : string) (meta : gmap string string) (k : string) :
  k ∈ fallback_keys ->
  meta !! k = Some "" ->
  post_of_meta name meta = post_of_meta name (delete k meta)
  /\ (k = "post-date" ->
      post_of_meta name meta
      = inr (WARN_missing_post_date (or_str (meta !! "post-slug") name)))
  /\ (k <> "post-date" ->
      forall (d : string) (dt : Datetime.date),
        meta !! "post-date" = Some d -> Datetime.strptime d = Some dt ->
        exists p : post,
          post_of_meta name meta = inl p
          /\ date p = d
          /\ (k = "post-slug" -> slug p = name /\ url p = "/posts/" +:+ name +:+ "/")
          /\ (k = "post-title" ->
              (forall t, meta !! "title" = Some t -> t <> "" -> title p = t)
              /\ (meta !! "title" = None \/ meta !! "title" = Some "" -> title p = slug p))
          /\ (k = "post-summary" ->
              (forall t, meta !! "description" = Some t -> summary p = t)
              /\ (meta !! "description" = None -> summary p = ""))).
Proof.
  intros Hk Hempty. unfold fallback_keys in Hk.
  rewrite !elem_of_cons in Hk.
  assert (forall d dt, Datetime.strptime d = Some dt -> Str.truthy d = true) as Htruthy.
  { intros [|c d] dt Hd; [discriminate Hd | reflexivity]. }
  destruct Hk as [-> | [-> | [-> | [-> | Hnil]]]]; [| | | |by apply elem_of_nil in Hnil].
  all: split; [unfold post_of_meta;
               rewrite ?lookup_delete_eq, ?Hempty; rewrite ?lookup_delete_ne by discriminate;
               reflexivity|].
  all: split; [try discriminate|].
  4: { intros _. unfold post_of_meta. rewrite Hempty. reflexivity. }
  4: { intros Hne. now contradict Hne. }
  all: intros _ d dt Hd Hdt; unfold post_of_meta; rewrite Hd, Hempty, (Htruthy d dt Hdt), Hdt;
    cbn [negb or_str or_get Str.truthy]; eexists; split; [reflexivity|];
    cbn [slug url title date summary]; split; [reflexivity|];
    (split; [|split]); try discriminate; intros _.
  - split; reflexivity.
  - split.
    + intros t Ht Hne. rewrite Ht. destruct t; [now contradict Hne | reflexivity].
    + intros [Ht|Ht]; rewrite Ht; reflexivity.
  - split.
    + intros t Ht. rewrite Ht. reflexivity.
    + intros Ht. rewrite Ht. reflexivity.
Qed.

Lemma empty_value_like_absent_witness :
  post_of_meta "c" empty_date_meta = inr (WARN_missing_post_date "c")
  /\ (exists p : post, post_of_meta "dir" empty_fields_meta = inl p
        /\ date p = "2025-06-01" /\ slug p = "dir" /\ url p = "/posts/dir/")
  /\ (exists p : post, post_of_meta "dir" empty_fields_meta = inl p /\ title p = "T")
  /\ (exists p : post, post_of_meta "dir" empty_fields_meta = inl p /\ summary p = "D").
Proof.
  split; [|split; [|split]].
  - apply (proj1 (proj2 (empty_value_like_absent "c" empty_date_meta "post-date"
                           ltac:(unfold fallback_keys; repeat constructor)
                           ltac:(vm_compute; reflexivity)))).
    reflexivity.
  - destruct (proj2 (proj2 (empty_value_like_absent "dir" empty_fields_meta "post-slug"
                              ltac:(unfold fallback_keys; repeat constructor)
                              ltac:(vm_compute; reflexivity)))
                ltac:(discriminate) "2025-06-01" (Datetime.Date 2025 6 1)
                ltac:(vm_compute; reflexivity) ltac:(vm_compute; reflexivity))
      as (p & Hp & Hd & Hslug & _).
    exists p. destruct (Hslug eq_refl) as [Hs Hu]. auto.
  - destruct (proj2 (proj2 (empty_value_like_absent "dir" empty_fields_meta "post-title"
                              ltac:(unfold fallback_keys; repeat constructor)
                              ltac:(vm_compute; reflexivity)))
                ltac:(discriminate) "2025-06-01" (Datetime.Date 2025 6 1)
                ltac:(vm_compute; reflexivity) ltac:(vm_compute; reflexivity))
      as (p & Hp & _ & _ & Htitle & _).
    exists p. split; [exact Hp|].
    apply (proj1 (Htitle eq_refl) "T"); [vm_compute; reflexivity | discriminate].
  - destruct (proj2 (proj2 (empty_value_like_absent "dir" empty_fields_meta "post-summary"
                              ltac:(unfold fallback_keys; repeat constructor)
                              ltac:(vm_compute; reflexivity)))
                ltac:(discriminate) "2025-06-01" (Datetime.Date 2025 6 1)
                ltac:(vm_compute; reflexivity) ltac:(vm_compute; reflexivity))
      as (p & Hp & _ & _ & _ & Hsum).
    exists p. split; [exact Hp|].
    apply (proj1 (Hsum eq_refl) "D"). vm_compute. reflexivity.
Defined.

(* ===================================================================== *)
(** * Index Writer *)
(* ===================================================================== *)

Section IndexWriter.

Lemma ceil_div_bounds n d : 0 < d -> n <= d * ceil_div n d /\ d * ceil_div n d < n + d.
Proof.
  intros Hd. unfold ceil_div.
  pose proof (Nat.div_mod_eq n d) as Hdm.
  pose proof (Nat.mod_upper_bound n d ltac:(lia)) as Hr.
  destruct (n mod d =? 0) eqn:Hz.
  - apply Nat.eqb_eq in Hz. lia.
  - apply Nat.eqb_neq in Hz. lia.
Qed.

(** The ceiling is the only number within these bounds. *)
Lemma ceil_div_unique n d c : n <= d * c -> d * c < n + d -> c = ceil_div n d.
Proof.
  intros H1 H2. assert (0 < d) as Hd by (destruct d; lia).
  destruct (ceil_div_bounds n d Hd) as [H3 H4]. nia.
Qed.

Lemma page_count_ceil n : page_count n = Nat.max 1 (ceil_div n 20).
Proof.
  unfold page_count, PER_PAGE. f_equal. apply ceil_div_unique.
  - pose proof (Nat.div_mod_eq (n + 20 - 1) 20) as Hdm.
    pose proof (Nat.mod_upper_bound (n + 20 - 1) 20 ltac:(lia)) as Hr. lia.
  - pose proof (Nat.div_mod_eq (n + 20 - 1) 20) as Hdm. lia.
Qed.

Lemma page_file_name_not_main posts N :
  String.eqb (page_file posts N).1 OUTPUT_INDEX_MAIN = false.
Proof. reflexivity. Qed.

Lemma page_artifacts_eq posts :
  page_artifacts posts
  = (fun N => (page_file posts N).2) <$> seq 1 (page_count (length posts)).
Proof.
  unfold page_artifacts, write_paginated_indexes. simpl.
  rewrite omap_app. simpl. rewrite app_nil_r.
  induction (seq 1 (page_count (length posts))) as [|N Ns IH]; [reflexivity|].
  rewrite !fmap_cons. cbn [omap list_omap].
  rewrite page_file_name_not_main. simpl in *. f_equal. exact IH.
Qed.

Lemma length_page_artifacts posts :
  length (page_artifacts posts) = page_count (length posts).
Proof. now rewrite page_artifacts_eq, length_fmap, length_seq. Qed.

Lemma page_artifacts_lookup posts N :
  1 <= N <= page_count (length posts) ->
  page_artifacts posts !! (N - 1) = Some (page_file posts N).2.
Proof.
  intros HN. rewrite page_artifacts_eq, list_lookup_fmap.
  rewrite lookup_seq_lt by lia. replace (1 + (N - 1)) with N by lia. reflexivity.
Qed.

Lemma slice_lookup {A} (l : list A) start k :
  slice l start (start + PER_PAGE) !! k
  = if decide (k < PER_PAGE) then l !! (start + k) else None.
Proof.
  unfold slice. replace (start + PER_PAGE - start) with PER_PAGE by lia.
  destruct (decide (k < PER_PAGE)) as [Hk|Hk].
  - rewrite lookup_take_lt by exact Hk. apply lookup_drop.
  - apply lookup_take_ge. lia.
Qed.

(** Cutting a list into [c] slices of [PER_PAGE] and gluing them again
    gives the list, when [c] slices are enough. *)
Lemma slices_concat {A} (c : nat) (l : list A) :
  length l <= c * PER_PAGE ->
  mjoin ((fun N => slice l ((N - 1) * PER_PAGE) ((N - 1) * PER_PAGE + PER_PAGE))
           <$> seq 1 c) = l.
Proof.
  revert l. induction c as [|c IH]; intros l Hl.
  - destruct l; [reflexivity|simpl in Hl; lia].
  - simpl seq. rewrite fmap_cons. cbn [mjoin list_join].
    transitivity (take PER_PAGE l ++ drop PER_PAGE l); [|apply take_drop]. f_equal.
    rewrite <- (IH (drop PER_PAGE l)) by (rewrite length_drop; lia).
    f_equal. rewrite <- fmap_S_seq, <- list_fmap_compose.
    apply list_fmap_ext. intros i N [-> _]%lookup_seq. unfold slice.
    replace (S (1 + i) - 1) with (S i) by lia. replace (1 + i - 1) with i by lia.
    rewrite drop_drop. unfold PER_PAGE. repeat (f_equal; try lia).
Qed.

Lemma page_slices_eq posts :
  page_slices posts
  = (fun N => slice posts ((N - 1) * PER_PAGE) ((N - 1) * PER_PAGE + PER_PAGE))
      <$> seq 1 (page_count (length posts)).
Proof.
  unfold page_slices. rewrite page_artifacts_eq.
  induction (seq 1 (page_count (length posts))) as [|N Ns IH]; [reflexivity|].
  simpl in *. f_equal. exact IH.
Qed.

Lemma page_slices_concat posts : mjoin (page_slices posts) = posts.
Proof.
  rewrite page_slices_eq. apply slices_concat.
  rewrite page_count_ceil.
  destruct (ceil_div_bounds (length posts) 20 ltac:(lia)) as [H _].
  unfold PER_PAGE. lia.
Qed.

End IndexWriter.

(** C4: the writer produces [max(1, ceil(n / 20))] page artifacts for a
    list of [n] records, numbered from 1 and each carrying that total; for
    the empty list that is one artifact, page 1 with no records.  The
    ceiling is the number [c] with [n <= 20 * c < n + 20]. *)
Theorem page_artifacts_count (posts : list post) :
  length (page_artifacts posts) = Nat.max 1 (ceil_div (length posts) 20)
  /\ (length posts <= 20 * ceil_div (length posts) 20
      /\ 20 * ceil_div (length posts) 20 < length posts + 20)
  /\ page <$> page_artifacts posts = seq 1 (Nat.max 1 (ceil_div (length posts) 20))
  /\ Forall (fun a => total_pages a = Nat.max 1 (ceil_div (length posts) 20)
                      /\ total_posts a = length posts /\ per_page a = 20)
       (page_artifacts posts)
  /\ page_artifacts [] = [IndexJson 1 20 0 1 (Some [])].
Proof.
  split; [rewrite <- page_count_ceil; apply length_page_artifacts|].
  split; [apply ceil_div_bounds; lia|].
  rewrite <- page_count_ceil.
  rewrite page_artifacts_eq. split; [|split; [|reflexivity]].
  - rewrite <- list_fmap_compose. simpl. apply list_fmap_id.
  - apply Forall_fmap, Forall_true. intros N. simpl. auto.
Qed.

(** C5: page [N], for [N] from 1 to the number of pages, holds the records
    at the offsets [(N-1)*20] up to [N*20] (exclusive) of the list, in the
    order of the list: its record number [k] is record number
    [(N-1)*20 + k] of the list for [k] below 20, and it has no further
    record.  The slices of all pages, one after the other, are the list,
    so their lengths add up to [n]. *)
Theorem pages_hold_consecutive_slices (posts : list post) :
  (forall N : nat,
      1 <= N <= Nat.max 1 (ceil_div (length posts) 20) ->
      exists (a : index_json) (sl : list post),
        page_artifacts posts !! (N - 1) = Some a
        /\ page a = N
        /\ page_posts a = Some sl
        /\ forall k : nat,
             sl !! k = if decide (k < 20) then posts !! ((N - 1) * 20 + k) else None)
  /\ mjoin (page_slices posts) = posts
  /\ sum_list (length <$> page_slices posts) = length posts.
Proof.
  split; [|split].
  - intros N HN. rewrite <- page_count_ceil in HN.
    eexists _, _. split; [apply page_artifacts_lookup; exact HN|].
    split; [reflexivity|]. split; [reflexivity|].
    intros k. apply (slice_lookup posts ((N - 1) * PER_PAGE) k).
  - apply page_slices_concat.
  - rewrite <- length_join. now rewrite page_slices_concat.
Qed.

Lemma pages_hold_consecutive_slices_witness :
  exists (a : index_json) (sl : list post),
    page_artifacts (numbered_posts 45) !! (3 - 1) = Some a
    /\ page a = 3
    /\ page_posts a = Some sl
    /\ forall k : nat,
         sl !! k = if decide (k < 20) then numbered_posts 45 !! ((3 - 1) * 20 + k) else None.
Proof.
  apply (proj1 (pages_hold_consecutive_slices (numbered_posts 45)) 3).
  vm_compute. lia.
Defined.

(* ===================================================================== *)
(** * Feed Writers *)
(* ===================================================================== *)

Section Feeds.

Lemma site_url_rstrip : Str.rstrip_char "/" SITE_URL = SITE_URL.
Proof. reflexivity. Qed.

Lemma post_url_entry p : post_url p = sitemap_post_entry p.
Proof.
  unfold post_url, sitemap_post_entry, post_lastmod. rewrite site_url_rstrip.
  destruct (updated p) as [|c u]; reflexivity.
Qed.

Lemma sitemap_entries_eq posts :
  sitemap_entries posts = sitemap_static_entries ++ (sitemap_post_entry <$> posts).
Proof.
  unfold sitemap_entries, write_sitemap. simpl. do 5 f_equal.
  apply list_fmap_ext. intros _ p _. apply post_url_entry.
Qed.

Lemma rss_item_entry p : rss_item p = feed_item p (format_rss_date (date p)).
Proof. unfold rss_item, feed_item. now rewrite site_url_rstrip. Qed.

Lemma filter_items (l : list post) :
  filter (fun e => tag_of e = "item") (rss_item <$> l) = rss_item <$> l.
Proof.
  induction l as [|p l IH]; [reflexivity|].
  rewrite fmap_cons, filter_cons_True by reflexivity. now rewrite IH.
Qed.

Lemma rss_items_eq build_date posts :
  rss_items build_date posts
  = (fun p => feed_item p (format_rss_date (date p))) <$> take 50 posts.
Proof.
  unfold rss_items, write_rss. simpl. rewrite app_nil_r.
  repeat (rewrite filter_cons_False by discriminate).
  rewrite filter_items. apply list_fmap_ext. intros _ p _. apply rss_item_entry.
Qed.

Lemma strptime_range s dt :
  Datetime.strptime s = Some dt ->
  (1 <= Datetime.year dt <= 9999 /\ 1 <= Datetime.month dt <= 12
   /\ 1 <= Datetime.day dt <= Datetime.days_in_month (Datetime.year dt) (Datetime.month dt))%Z.
Proof.
  unfold Datetime.strptime.
  destruct (Re.match_ Datetime.Ymd_RE s) as [[m [|c rest]]|]; try discriminate.
  destruct (Datetime.int (Re.group m 1)) as [y|]; [|discriminate].
  destruct (Datetime.int (Re.group m 2)) as [mo|]; [|discriminate].
  destruct (Datetime.int (Re.group m 3)) as [d|]; [|discriminate].
  simpl. unfold Datetime.make.
  destruct (_ && _) eqn:Hc; [|discriminate]. intros [= <-]. simpl.
  repeat (apply andb_prop in Hc as [Hc ?]). lia.
Qed.

Lemma is_leap_spec (y : Z) :
  Datetime.is_leap y = true
  <-> ((y mod 4 = 0)%Z /\ ((y mod 100 <> 0)%Z \/ (y mod 400 = 0)%Z)).
Proof.
  unfold Datetime.is_leap.
  rewrite andb_true_iff, orb_true_iff, negb_true_iff, !Z.eqb_eq, Z.eqb_neq. tauto.
Qed.

(** The day of the week of the library is that of Zeller's congruence,
    which counts from Saturday where the library counts from Monday. *)
Lemma weekday_zeller (y m d : Z) :
  (1 <= y)%Z -> (1 <= m <= 12)%Z ->
  zeller y m d = ((Datetime.weekday (Datetime.Date y m d) + 2) mod 7)%Z.
Proof.
  intros Hy Hm.
  unfold zeller, Datetime.weekday, Datetime.toordinal, Datetime.days_before_year,
    Datetime.days_before_month. cbn [Datetime.year Datetime.month Datetime.day].
  assert (m = 1 \/ m = 2 \/ m = 3 \/ m = 4 \/ m = 5 \/ m = 6 \/ m = 7 \/ m = 8 \/ m = 9
          \/ m = 10 \/ m = 11 \/ m = 12)%Z as Hcases by lia.
  destruct (Datetime.is_leap y) eqn:Hl.
  - apply is_leap_spec in Hl.
    repeat (destruct Hcases as [->|Hcases]); try subst m;
      cbn -[Z.div Z.modulo Z.mul Z.add Z.sub nth];
      match goal with
      | |- context [nth ?a ?l 0%Z] =>
          let v := eval vm_compute in (nth a l 0%Z) in change (nth a l 0%Z) with v
      end;
      Z.div_mod_to_equations; lia.
  - assert (~ ((y mod 4 = 0)%Z /\ ((y mod 100 <> 0)%Z \/ (y mod 400 = 0)%Z))) as Hn.
    { intros H. apply is_leap_spec in H. congruence. }
    repeat (destruct Hcases as [->|Hcases]); try subst m;
      cbn -[Z.div Z.modulo Z.mul Z.add Z.sub nth];
      match goal with
      | |- context [nth ?a ?l 0%Z] =>
          let v := eval vm_compute in (nth a l 0%Z) in change (nth a l 0%Z) with v
      end;
      Z.div_mod_to_equations; lia.
Qed.

Lemma strftime_day_name (y m d : Z) :
  (1 <= y)%Z -> (1 <= m <= 12)%Z ->
  nth (Z.to_nat (Datetime.weekday (Datetime.Date y m d))) Datetime.DAYNAMES ""
  = day_name y m d.
Proof.
  intros Hy Hm. unfold day_name. rewrite (weekday_zeller y m d Hy Hm).
  assert (0 <= Datetime.weekday (Datetime.Date y m d) < 7)%Z as Hw.
  { unfold Datetime.weekday. apply Z.mod_pos_bound. lia. }
  assert (forall w : Z, (0 <= w < 7)%Z ->
            nth (Z.to_nat w) Datetime.DAYNAMES ""
            = nth (Z.to_nat ((w + 2) mod 7))
                ["Sat"; "Sun"; "Mon"; "Tue"; "Wed"; "Thu"; "Fri"] "") as Hnames.
  { intros w Hw'.
    assert (w = 0 \/ w = 1 \/ w = 2 \/ w = 3 \/ w = 4 \/ w = 5 \/ w = 6)%Z as Hc by lia.
    repeat (destruct Hc as [->|Hc]); try subst w; reflexivity. }
  now apply Hnames.
Qed.

Lemma strftime_month_name (m : Z) :
  (1 <= m <= 12)%Z -> nth (Z.to_nat m) Datetime.MONTHNAMES "" = month_name m.
Proof.
  intros Hm.
  assert (m = 1 \/ m = 2 \/ m = 3 \/ m = 4 \/ m = 5 \/ m = 6 \/ m = 7 \/ m = 8 \/ m = 9
          \/ m = 10 \/ m = 11 \/ m = 12)%Z as Hcases by lia.
  repeat (destruct Hcases as [->|Hcases]); try subst m; reflexivity.
Qed.

Lemma two_digits_padded (d : Z) :
  (1 <= d <= 31)%Z -> Datetime.two_digits d = padded 2 (Z.to_nat d).
Proof.
  intros Hd.
  assert (forallb (fun n => String.eqb (Datetime.two_digits (Z.of_nat n)) (padded 2 n))
            (seq 1 31) = true) as Hall by (vm_compute; reflexivity).
  rewrite forallb_forall in Hall.
  specialize (Hall (Z.to_nat d)). rewrite Z2Nat.id in Hall by lia.
  apply String.eqb_eq, Hall, in_seq. lia.
Qed.

(** From the year 1000 on the decimal text of the year has four digits;
    before, it has fewer. *)
Lemma year_four_digits (y : nat) :
  1000 <= y < 10 ^ 4 -> Str.of_nat y = padded 4 y.
Proof.
  intros Hy.
  assert (forallb (fun n => String.eqb (Str.of_nat n) (padded 4 n)) (seq 1000 (9 * 1000))
          = true) as Hall by (vm_compute; reflexivity).
  rewrite forallb_forall in Hall.
  apply String.eqb_eq, Hall, in_seq. simpl in Hy. lia.
Qed.

Lemma year_short (y : nat) : y < 1000 -> String.length (Str.of_nat y) < 4.
Proof.
  intros Hy.
  assert (forallb (fun n => String.length (Str.of_nat n) <? 4) (seq 0 1000) = true)
    as Hall by (vm_compute; reflexivity).
  rewrite forallb_forall in Hall.
  apply Nat.ltb_lt, Hall, in_seq. lia.
Qed.

Lemma length_padded (w n : nat) : String.length (padded w n) = w.
Proof. revert n. induction w as [|w IH]; intros n; simpl; [reflexivity|]. now rewrite IH. Qed.

Lemma length_date_text (y m d : Z) (t : string) :
  String.length (date_text y m d t)
  = String.length (day_name y m d) + String.length (month_name m) + String.length t + 19.
Proof.
  unfold date_text. rewrite !length_append, length_padded. simpl. lia.
Qed.

(** What [strftime] prints for a date that [strptime] returned. *)
Lemma strftime_date_text (y m d : Z) :
  (1 <= y)%Z -> (1 <= m <= 12)%Z -> (1 <= d <= 31)%Z ->
  Datetime.strftime (Datetime.Date y m d) = date_text y m d (Str.of_nat (Z.to_nat y)).
Proof.
  intros Hy Hm Hd. unfold Datetime.strftime, date_text.
  cbn [Datetime.year Datetime.month Datetime.day].
  now rewrite strftime_day_name, strftime_month_name, two_digits_padded by assumption.
Qed.

Lemma days_in_month_bound (y m : Z) : (Datetime.days_in_month y m <= 31)%Z.
Proof.
  unfold Datetime.days_in_month. destruct (_ && _); [lia|].
  destruct (Z.to_nat m) as [|[|[|[|[|[|[|[|[|[|[|[|[|[|k]]]]]]]]]]]]]]; simpl; lia.
Qed.

Lemma format_rss_date_parsed (s : string) (y m d : Z) :
  Datetime.strptime s = Some (Datetime.Date y m d) ->
  format_rss_date s = date_text y m d (Str.of_nat (Z.to_nat y))
  /\ ((1000 <= y)%Z -> format_rss_date s = rfc822 y m d)
  /\ ((y < 1000)%Z -> format_rss_date s <> rfc822 y m d).
Proof.
  intros Hs. pose proof (strptime_range s _ Hs) as (Hy & Hm & Hd).
  cbn [Datetime.year Datetime.month Datetime.day] in Hy, Hm, Hd.
  pose proof (days_in_month_bound y m) as Hdm.
  assert (format_rss_date s = date_text y m d (Str.of_nat (Z.to_nat y))) as Heq.
  { unfold format_rss_date. rewrite Hs. apply strftime_date_text; lia. }
  split; [exact Heq|]. rewrite Heq. unfold rfc822. split.
  - intros Hbig. rewrite year_four_digits; [reflexivity|].
    split; [lia|]. apply Nat2Z.inj_lt. rewrite Nat2Z.inj_pow, Z2Nat.id by lia. simpl. lia.
  - intros Hsmall Habs. apply (f_equal String.length) in Habs.
    rewrite !length_date_text, length_padded in Habs.
    pose proof (year_short (Z.to_nat y) ltac:(lia)). lia.
Qed.

End Feeds.

(** C6: the sitemap has the five entries of the static pages, in the
    order in which they are declared, and after them one entry for each
    post, in the order of the list given: [5 + n] entries. The entry of a
    post has the site URL followed by the post's [url] as location,
    [updated] when it is not empty and [date] otherwise as last
    modification, [monthly] as change frequency and [0.7] as priority. *)
Theorem sitemap_entries_layout (posts : list post) :
  length (sitemap_entries posts) = 5 + length posts
  /\ take 5 (sitemap_entries posts) = sitemap_static_entries
  /\ drop 5 (sitemap_entries posts) = sitemap_post_entry <$> posts
  /\ forall (i : nat) (p : post),
       posts !! i = Some p -> sitemap_entries posts !! (5 + i) = Some (sitemap_post_entry p).
Proof.
  rewrite sitemap_entries_eq. repeat split.
  - rewrite length_app, length_fmap. reflexivity.
  - intros i p Hp. rewrite lookup_app_r by (simpl; lia).
    replace (5 + i - length sitemap_static_entries) with i by (simpl; lia).
    now rewrite list_lookup_fmap, Hp.
Qed.

Lemma sitemap_entries_layout_witness :
  sitemap_entries [numbered_post 7] !! (5 + 0) = Some (sitemap_post_entry (numbered_post 7)).
Proof.
  apply (proj2 (proj2 (proj2 (sitemap_entries_layout [numbered_post 7]))) 0 (numbered_post 7)).
  reflexivity.
Defined.

(** C8: the date conversion of the feed returns a string for every
    string, and the argument itself when it does not parse in the fixed
    format.  When it parses, the result is the name of the day of that
    date, the day of the month on two digits, the name of the month, the
    year in decimal and midnight GMT.  From the year 1000 on this is the
    RFC-822 rendering of the date.  For an earlier year it is not: the
    year is printed without leading zeros, on fewer than four digits,
    where the documentation of the function says RFC 822. *)
Theorem format_rss_date_cases (s : string) :
  (forall y m d : Z,
      Datetime.strptime s = Some (Datetime.Date y m d) ->
      format_rss_date s = date_text y m d (Str.of_nat (Z.to_nat y))
      /\ ((1000 <= y)%Z -> format_rss_date s = rfc822 y m d)
      /\ ((y < 1000)%Z -> format_rss_date s <> rfc822 y m d))
  /\ (Datetime.strptime s = None -> format_rss_date s = s).
Proof.
  split.
  - intros y m d Hs. now apply format_rss_date_parsed.
  - unfold format_rss_date. intros ->. reflexivity.
Qed.

Lemma format_rss_date_cases_witness :
  (format_rss_date "0001-01-01" = "Mon, 01 Jan 1 00:00:00 GMT"
   /\ rfc822 1 1 1 = "Mon, 01 Jan 0001 00:00:00 GMT"
   /\ format_rss_date "0001-01-01" <> rfc822 1 1 1)
  /\ format_rss_date "2025-06-01" = "Sun, 01 Jun 2025 00:00:00 GMT"
  /\ format_rss_date "1 June 2025" = "1 June 2025".
Proof.
  split; [split; [|split]|split].
  - apply (proj1 (proj1 (format_rss_date_cases "0001-01-01") 1%Z 1%Z 1%Z
                    ltac:(vm_compute; reflexivity))).
  - vm_compute. reflexivity.
  - apply (proj2 (proj2 (proj1 (format_rss_date_cases "0001-01-01") 1%Z 1%Z 1%Z
                           ltac:(vm_compute; reflexivity)))).
    lia.
  - apply (proj1 (proj2 (proj1 (format_rss_date_cases "2025-06-01") 2025%Z 6%Z 1%Z
                           ltac:(vm_compute; reflexivity)))).
    lia.
  - apply (proj2 (format_rss_date_cases "1 June 2025")). vm_compute. reflexivity.
Defined.

(** C7: the feed has [min(n, 50)] items, for the first 50 posts of the
    list in its order.  The item of a post has its title, the site URL
    followed by the post's [url] as link and as guid, the converted date
    as publish date, the summary as description, and one category for
    each tag, in the order of the tags.  The date of every record of the
    collector parses, and its publish date is the RFC-822 rendering of
    that day when the year is 1000 or later.  For a record of an earlier
    year it is not: the item of a post dated 0001-01-01 has the year as
    the single digit 1.  For a single directory with date 2025-06-01,
    title Foo and tags [a, b] the item has the two categories a and b, in
    this order. *)
Theorem rss_items_layout (build_date : string) (posts : list post) :
  length (rss_items build_date posts) = Nat.min (length posts) 50
  /\ rss_items build_date posts
     = (fun p => feed_item p (format_rss_date (date p))) <$> take 50 posts
  /\ (forall (i : nat) (p : post),
        i < 50 -> posts !! i = Some p ->
        rss_items build_date posts !! i = Some (feed_item p (format_rss_date (date p))))
  /\ (forall (os : OS) (p : post),
        p ∈ (gather_posts os).1 ->
        exists y m d : Z,
          Datetime.strptime (date p) = Some (Datetime.Date y m d)
          /\ ((1000 <= y)%Z -> format_rss_date (date p) = rfc822 y m d)
          /\ ((y < 1000)%Z -> format_rss_date (date p) <> rfc822 y m d))
  /\ rss_items build_date (gather_posts year_one_os).1
     = [ Element "item" [] None
           [ leaf "title" "old";
             leaf "link" "https://comparellms.in/posts/old/";
             leaf "guid" "https://comparellms.in/posts/old/";
             leaf "pubDate" "Mon, 01 Jan 1 00:00:00 GMT";
             leaf "description" "" ] ]
  /\ rss_items build_date (gather_posts roundtrip_os).1
     = [ Element "item" [] None
           [ leaf "title" "Foo";
             leaf "link" "https://comparellms.in/posts/foo/";
             leaf "guid" "https://comparellms.in/posts/foo/";
             leaf "pubDate" "Sun, 01 Jun 2025 00:00:00 GMT";
             leaf "description" "";
             leaf "category" "a";
             leaf "category" "b" ] ].
Proof.
  rewrite !rss_items_eq. split; [|split; [|split; [|split; [|split]]]].
  - rewrite length_fmap, length_take. lia.
  - reflexivity.
  - intros i p Hi Hp. now rewrite list_lookup_fmap, lookup_take_lt, Hp by exact Hi.
  - intros os p Hp.
    pose proof (gather_posts_dates os) as Hall. rewrite Forall_forall in Hall.
    destruct (Hall p Hp) as [[y m d] Hdt]. exists y, m, d. split; [exact Hdt|].
    apply (format_rss_date_parsed _ _ _ _ Hdt).
  - vm_compute. reflexivity.
  - vm_compute. reflexivity.
Qed.

Lemma rss_items_layout_witness :
  rss_items "now" [numbered_post 7] !! 0
  = Some (feed_item (numbered_post 7) (format_rss_date (date (numbered_post 7))))
  /\ exists y m d : Z,
       Datetime.strptime "2025-06-01" = Some (Datetime.Date y m d)
       /\ ((1000 <= y)%Z -> format_rss_date "2025-06-01" = rfc822 y m d)
       /\ ((y < 1000)%Z -> format_rss_date "2025-06-01" <> rfc822 y m d).
Proof.
  split.
  - apply (proj1 (proj2 (proj2 (rss_items_layout "now" [numbered_post 7]))) 0).
    + lia.
    + reflexivity.
  - apply (proj1 (proj2 (proj2 (proj2 (rss_items_layout "now" []))))
             roundtrip_os
             (Post "foo" "/posts/foo/" "Foo" "2025-06-01" "" "" "" ["a"; "b"])).
    apply list_elem_of_lookup. exists 0. vm_compute. reflexivity.
Defined.

(* ===================================================================== *)
(** * More on the Metadata Extractor *)
(* ===================================================================== *)

Section Trimming.

Lemma lower_char_idem (c : ascii) : Str.lower_char (Str.lower_char c) = Str.lower_char c.
Proof.
  destruct c as [b0 b1 b2 b3 b4 b5 b6 b7].
  destruct b0, b1, b2, b3, b4, b5, b6, b7; reflexivity.
Qed.

Lemma isspace_lower_char (c : ascii) : Str.isspace (Str.lower_char c) = Str.isspace c.
Proof.
  destruct c as [b0 b1 b2 b3 b4 b5 b6 b7].
  destruct b0, b1, b2, b3, b4, b5, b6, b7; reflexivity.
Qed.

Lemma lower_idem (s : string) : Str.lower (Str.lower s) = Str.lower s.
Proof.
  induction s as [|c s IH]; simpl; [reflexivity|]. now rewrite lower_char_idem, IH.
Qed.

Lemma lstrip_idem (s : string) : Str.lstrip (Str.lstrip s) = Str.lstrip s.
Proof.
  induction s as [|c s IH]; simpl; [reflexivity|].
  destruct (Str.isspace c) eqn:Hc; [exact IH|]. simpl. now rewrite Hc.
Qed.

Lemma rstrip_idem (s : string) : Str.rstrip (Str.rstrip s) = Str.rstrip s.
Proof.
  induction s as [|c s IH]; simpl; [reflexivity|].
  destruct (Str.rstrip s) as [|d r] eqn:Hr.
  - destruct (Str.isspace c) eqn:Hc; simpl; [reflexivity|]. now rewrite Hc.
  - simpl. simpl in IH. now rewrite IH.
Qed.

Lemma rstrip_lstrip (s : string) : Str.rstrip (Str.lstrip s) = Str.lstrip (Str.rstrip s).
Proof.
  induction s as [|c s IH]; simpl; [reflexivity|].
  destruct (Str.isspace c) eqn:Hc.
  - rewrite IH. destruct (Str.rstrip s) as [|d r]; simpl; [reflexivity|]. now rewrite Hc.
  - simpl. destruct (Str.rstrip s) as [|d r]; simpl; now rewrite Hc.
Qed.

Lemma strip_idem (s : string) : Str.strip (Str.strip s) = Str.strip s.
Proof.
  unfold Str.strip. now rewrite rstrip_lstrip, rstrip_idem, lstrip_idem.
Qed.

Lemma lstrip_lower (s : string) : Str.lstrip (Str.lower s) = Str.lower (Str.lstrip s).
Proof.
  induction s as [|c s IH]; simpl; [reflexivity|].
  rewrite isspace_lower_char. now destruct (Str.isspace c).
Qed.

Lemma rstrip_lower (s : string) : Str.rstrip (Str.lower s) = Str.lower (Str.rstrip s).
Proof.
  induction s as [|c s IH]; simpl; [reflexivity|].
  rewrite IH, isspace_lower_char.
  destruct (Str.rstrip s); simpl; [now destruct (Str.isspace c)|reflexivity].
Qed.

Lemma strip_lower (s : string) : Str.strip (Str.lower s) = Str.lower (Str.strip s).
Proof. unfold Str.strip. now rewrite rstrip_lower, lstrip_lower. Qed.

End Trimming.

Section ExtractorInvariant.

Lemma stored_tidy (n c : string) :
  tidy_entry (Str.lower (Str.strip n)) (Str.strip c).
Proof.
  unfold tidy_entry, lower_case, trimmed.
  rewrite lower_idem, strip_lower, !strip_idem. auto.
Qed.

Lemma store_primary_tidy (data : gmap string string) (m : gmap nat string) :
  map_Forall tidy_entry data -> map_Forall tidy_entry (store_primary data m).
Proof. intros H. apply map_Forall_insert_2; [apply stored_tidy|exact H]. Qed.

Lemma store_alternate_tidy (data : gmap string string) (m : gmap nat string) :
  map_Forall tidy_entry data -> map_Forall tidy_entry (store_alternate data m).
Proof.
  intros H. unfold store_alternate. destruct (data !! _); [exact H|].
  apply map_Forall_insert_2; [apply stored_tidy|exact H].
Qed.

Lemma foldl_tidy (f : gmap string string -> gmap nat string -> gmap string string)
    (ms : list (gmap nat string)) (data : gmap string string) :
  (forall d m, map_Forall tidy_entry d -> map_Forall tidy_entry (f d m)) ->
  map_Forall tidy_entry data -> map_Forall tidy_entry (foldl f data ms).
Proof.
  intros Hf. revert data. induction ms as [|m ms IH]; intros data H; simpl; [exact H|].
  apply IH, Hf, H.
Qed.

End ExtractorInvariant.

Lemma read_meta_map_tidy (os : OS) (path : string) :
  map_Forall tidy_entry (read_meta_from_html os path).1.
Proof.
  unfold read_meta_from_html. destruct (read_text os path) as [html|]; simpl.
  - unfold meta_of_html.
    apply foldl_tidy; [apply store_alternate_tidy|].
    apply foldl_tidy; [apply store_primary_tidy|]. apply map_Forall_empty.
  - apply map_Forall_empty.
Qed.

(** X1: whatever the file holds, and also when it cannot be read, every
    name in the mapping the extractor returns is in lower case and has no
    white space around it, and every value has no white space around
    it. *)
Theorem read_meta_entries_tidy (os : OS) (path k v : string) :
  (read_meta_from_html os path).1 !! k = Some v ->
  lower_case k /\ trimmed k /\ trimmed v.
Proof.
  intros Hkv. exact (read_meta_map_tidy os path k v Hkv).
Qed.

Lemma read_meta_entries_tidy_witness :
  lower_case "post-title" /\ trimmed "post-title" /\ trimmed "Foo".
Proof.
  apply (read_meta_entries_tidy (os_of [] (fun _ => meta_name_content " Post-Title " " Foo "))
           "posts/a/index.html" "post-title" "Foo").
  vm_compute. reflexivity.
Defined.

Section Scan.

#[local] Arguments String.append !_ _ / : simpl nomatch.

Variable r : Re.regex.
Hypothesis r_lt : starts_with_lt r.
Hypothesis r_consumes :
  forall s rest m, Re.match_ r s = Some (m, rest) -> String.length rest < String.length s.

Lemma finditer_eq_from (fuel : nat) (s : string) :
  String.length s < fuel -> Re.finditer_from fuel r s = Re.finditer r s.
Proof. intros H. unfold Re.finditer. apply (finditer_fuel r r_consumes); lia. Qed.

Lemma finditer_nil : Re.finditer r EmptyString = [].
Proof. destruct r_lt as [Hnil _]. unfold Re.finditer. simpl. now rewrite Hnil. Qed.

(** The scan passes over a character other than [<]. *)
Lemma finditer_skip_char (a : ascii) (s : string) :
  not_lt a = true -> Re.finditer r (String a s) = Re.finditer r s.
Proof.
  intros Ha. destruct r_lt as [_ Hcons]. unfold Re.finditer at 1.
  rewrite finditer_from_S, (Hcons a s Ha). apply finditer_eq_from. simpl. lia.
Qed.

Lemma finditer_skip (pre s : string) :
  all_chars not_lt pre = true -> Re.finditer r (pre +:+ s) = Re.finditer r s.
Proof.
  induction pre as [|a pre IH]; simpl; [reflexivity|].
  intros [Ha Hpre]%andb_prop. rewrite finditer_skip_char by exact Ha. now apply IH.
Qed.

(** At a [<] where the pattern fails the scan goes on behind it; where
    the pattern matches, the scan goes on behind the match. *)
Lemma finditer_fail_here (a : ascii) (s : string) :
  Re.match_ r (String a s) = None -> Re.finditer r (String a s) = Re.finditer r s.
Proof.
  intros Hm. unfold Re.finditer at 1. rewrite finditer_from_S, Hm.
  apply finditer_eq_from. simpl. lia.
Qed.

Lemma finditer_match_here (s rest : string) (m : gmap nat string) :
  Re.match_ r s = Some (m, rest) -> Re.finditer r s = m :: Re.finditer r rest.
Proof.
  intros Hm. pose proof (r_consumes _ _ _ Hm) as Hlen. unfold Re.finditer at 1.
  rewrite finditer_from_S, Hm.
  destruct (String.length rest <? String.length s) eqn:Hlt.
  - f_equal. apply finditer_eq_from. lia.
  - apply Nat.ltb_ge in Hlt. lia.
Qed.

End Scan.

Section RoundTrip.

#[local] Arguments String.append !_ _ / : simpl nomatch.

Variables (q w : ascii) (ws sep : string).
Hypothesis q_quote : Re.quote q = true.
Hypothesis w_space : Str.isspace w = true.
Hypothesis ws_space : all_chars Str.isspace ws = true.
Hypothesis sep_no_lt : all_chars not_lt sep = true.

Lemma alternate_fails_on_primary (n c tail : string) :
  Re.match_ META_RE_ALT (primary_declaration q n (String w ws) c +:+ tail) = None.
Proof. reflexivity. Qed.

Lemma primary_declaration_body (n c tail : string) :
  all_chars plain n = true -> all_chars plain c = true ->
  exists body : string,
    primary_declaration q n (String w ws) c +:+ tail = String "<" (body +:+ tail)
    /\ all_chars not_lt body = true.
Proof.
  intros Hn Hc.
  exists ("meta name=" +:+ String q (n +:+ String q (String w ws +:+ "content="
            +:+ String q (c +:+ String q ">")))).
  split.
  - unfold primary_declaration. simpl. now rewrite !string_app_assoc.
  - apply (body_not_lt q w "meta name=" "content=" ws n c); auto.
Qed.

Lemma finditer_primary_render (l : list (string * string)) :
  Forall plain_entry l ->
  Re.finditer META_RE (render_meta q w ws sep l)
  = (fun e => <[2 := e.2]> (<[1 := e.1]> (∅ : gmap nat string))) <$> l.
Proof.
  induction 1 as [|e l (Hn0 & Hn & Hc) _ IH].
  - apply (finditer_nil META_RE META_RE_starts_with_lt).
  - cbn [render_meta]. rewrite fmap_cons, <- IH.
    rewrite (finditer_match_here META_RE META_RE_consumes _
               (">" +:+ sep +:+ render_meta q w ws sep l)
               (<[2 := e.2]> (<[1 := e.1]> ∅))).
    + f_equal.
      change (">" +:+ sep +:+ render_meta q w ws sep l)
        with (String ">" (sep +:+ render_meta q w ws sep l)).
      rewrite (finditer_skip_char META_RE META_RE_starts_with_lt META_RE_consumes)
        by reflexivity.
      apply (finditer_skip META_RE META_RE_starts_with_lt META_RE_consumes), sep_no_lt.
    + apply primary_pattern_matches; auto using plain_not_quote; try discriminate.
      simpl. now rewrite w_space, ws_space.
Qed.

Lemma finditer_alternate_render (l : list (string * string)) :
  Forall plain_entry l ->
  Re.finditer META_RE_ALT (render_meta q w ws sep l) = [].
Proof.
  induction 1 as [|e l (Hn0 & Hn & Hc) _ IH].
  - apply (finditer_nil META_RE_ALT META_RE_ALT_starts_with_lt).
  - cbn [render_meta].
    pose proof (alternate_fails_on_primary e.1 e.2 (sep +:+ render_meta q w ws sep l)) as Hf.
    destruct (primary_declaration_body e.1 e.2 (sep +:+ render_meta q w ws sep l) Hn Hc)
      as (body & Heq & Hbody).
    rewrite Heq in Hf |- *.
    rewrite (finditer_fail_here META_RE_ALT META_RE_ALT_consumes) by exact Hf.
    rewrite !(finditer_skip META_RE_ALT META_RE_ALT_starts_with_lt META_RE_ALT_consumes)
      by assumption.
    exact IH.
Qed.

End RoundTrip.

Lemma foldl_store_primary_render (l : list (string * string)) (data : gmap string string) :
  foldl store_primary data
    ((fun e => <[2 := e.2]> (<[1 := e.1]> (∅ : gmap nat string))) <$> l)
  = list_to_map (reverse (stored <$> l)) ∪ data.
Proof.
  revert data. induction l as [|e l IH]; intros data.
  - simpl. now rewrite (left_id_L ∅ (∪)).
  - rewrite fmap_cons. cbn [foldl]. rewrite IH.
    unfold store_primary at 1, Re.group.
    rewrite lookup_insert_ne by discriminate. rewrite !lookup_insert_eq. cbn [default].
    rewrite fmap_cons, reverse_cons, list_to_map_app. cbn [list_to_map foldr].
    rewrite <- (assoc_L (∪)). f_equal.
    rewrite insert_empty. unfold stored. simpl.
    now rewrite <- insert_union_singleton_l.
Qed.

(** X2: a file made of declarations in the primary order is read back:
    names and contents without quotes and without [<], either quote
    character, any white space between the two attributes, any text
    without [<] after each declaration.  The mapping holds, for every
    declaration, the content (trimmed) under the name (trimmed, in lower
    case); of two declarations of one name the later one counts. *)
Theorem rendered_declarations_read_back (os : OS) (path : string) (q w : ascii)
    (ws sep : string) (l : list (string * string)) :
  Re.quote q = true ->
  Str.isspace w = true -> all_chars Str.isspace ws = true ->
  all_chars not_lt sep = true ->
  Forall plain_entry l ->
  read_text os path = Some (render_meta q w ws sep l) ->
  (read_meta_from_html os path).1 = list_to_map (reverse (stored <$> l)).
Proof.
  intros Hq Hw Hws Hsep Hl Hread. unfold read_meta_from_html. rewrite Hread. simpl.
  unfold meta_of_html.
  rewrite (finditer_primary_render q w ws sep Hq Hw Hws Hsep l Hl).
  rewrite (finditer_alternate_render q w ws sep Hq Hw Hws Hsep l Hl). simpl.
  rewrite foldl_store_primary_render. apply (right_id_L ∅ (∪)).
Qed.

Lemma rendered_declarations_read_back_witness :
  (read_meta_from_html
     (os_of [] (fun _ => render_meta "'" " " "" " "
                           [("post-date", "2025-06-01"); ("Post-Title", " Foo ");
                            ("post-title", "Bar")]))
     "posts/a/index.html").1
  = list_to_map (reverse (stored <$> [("post-date", "2025-06-01"); ("Post-Title", " Foo ");
                                      ("post-title", "Bar")])).
Proof.
  apply (rendered_declarations_read_back _ _ "'" " " "" " ").
  - reflexivity.
  - reflexivity.
  - reflexivity.
  - reflexivity.
  - repeat constructor; discriminate.
  - reflexivity.
Defined.

Section AnyCase.

Lemma app_cons (a : ascii) (s t : string) : String a s +:+ t = String a (s +:+ t).
Proof. reflexivity. Qed.

Lemma app_nil_l (t : string) : EmptyString +:+ t = t.
Proof. reflexivity. Qed.

(** A keyword of the pattern matches every spelling of it. *)
Lemma exec_word {A : Type} (w kw s : string) (caps : gmap nat string)
    (k : string -> gmap nat string -> option A) :
  Str.lower kw = Str.lower w -> Re.exec (Re.word w) (kw +:+ s) caps k = k s caps.
Proof.
  revert kw. induction w as [|c w IH]; intros [|x kw] Hl; try discriminate.
  - reflexivity.
  - simpl in Hl. injection Hl as Hx Hl. rewrite app_cons. simpl.
    unfold Str.char_eqb. rewrite Hx, Ascii.eqb_refl. now apply IH.
Qed.

(** And nothing that starts with another letter. *)
Lemma exec_word_fail {A : Type} (c x : ascii) (w s : string) (caps : gmap nat string)
    (k : string -> gmap nat string -> option A) :
  Str.lower_char x <> Str.lower_char c ->
  Re.exec (Re.word (String c w)) (String x s) caps k = None.
Proof.
  intros Hx. simpl. unfold Str.char_eqb.
  destruct (Ascii.eqb_spec (Str.lower_char x) (Str.lower_char c)); [contradiction|reflexivity].
Qed.

Lemma lower_cons_inv (kw : string) (c : ascii) (w : string) :
  Str.lower kw = String c w ->
  exists x kw', kw = String x kw' /\ Str.lower_char x = c /\ Str.lower kw' = w.
Proof.
  destruct kw as [|x kw']; [discriminate|]. simpl. intros [= Hx Hw]. eauto.
Qed.

Lemma not_space_of_lower (x c : ascii) :
  Str.lower_char x = c -> Str.isspace c = false -> Str.isspace x = false.
Proof. intros <-. now rewrite isspace_lower_char. Qed.

Lemma primary_matches_any_case (kw_meta ws0 kw_name : string) (q1 : ascii) (n : string)
    (q2 : ascii) (ws1 kw_content : string) (q3 : ascii) (c : string) (q4 : ascii)
    (tail : string) :
  Str.lower kw_meta = "<meta" -> Str.lower kw_name = "name=" ->
  Str.lower kw_content = "content=" ->
  ws0 <> EmptyString -> all_chars Str.isspace ws0 = true ->
  ws1 <> EmptyString -> all_chars Str.isspace ws1 = true ->
  Re.quote q1 = true -> Re.quote q2 = true -> Re.quote q3 = true -> Re.quote q4 = true ->
  n <> EmptyString -> all_chars Re.not_quote n = true ->
  all_chars Re.not_quote c = true ->
  Re.match_ META_RE
    (free_declaration kw_meta ws0 kw_name q1 n q2 ws1 kw_content q3 c q4 +:+ tail)
  = Some (<[2 := c]> (<[1 := n]> ∅), tail).
Proof.
  intros Hmeta Hname Hcontent Hws0n Hws0 Hws1n Hws1 Hq1 Hq2 Hq3 Hq4 Hn0 Hn Hc.
  destruct (lower_cons_inv _ _ _ Hname) as (x1 & kn & -> & Hx1 & Hkn).
  destruct (lower_cons_inv _ _ _ Hcontent) as (x2 & kc & -> & Hx2 & Hkc).
  pose proof (not_space_of_lower x1 _ Hx1 eq_refl) as Hx1s.
  pose proof (not_space_of_lower x2 _ Hx2 eq_refl) as Hx2s.
  unfold Re.match_, META_RE, free_declaration. cbn [Re.seq_of].
  repeat first [rewrite string_app_assoc | rewrite app_cons | rewrite app_nil_l].
  cbn [Re.exec].
  rewrite exec_word by exact Hmeta.
  apply rep_succeeds; [exact Hx1s| |exact Hws0|destruct ws0; simpl; [congruence|lia]].
  rewrite <- app_cons.
  rewrite exec_word by (simpl; now rewrite Hx1, Hkn).
  rewrite Hq1.
  apply rep_succeeds;
    [now apply quote_not_not_quote| |exact Hn|destruct n; simpl; [congruence|lia]].
  rewrite Hq2.
  apply rep_succeeds; [exact Hx2s| |exact Hws1|destruct ws1; simpl; [congruence|lia]].
  rewrite <- app_cons.
  rewrite exec_word by (simpl; now rewrite Hx2, Hkc).
  rewrite Hq3.
  apply rep_succeeds; [now apply quote_not_not_quote| |exact Hc|simpl; lia].
  rewrite Hq4. rewrite !consumed_app. reflexivity.
Qed.

End AnyCase.

Section AnyCaseFile.

Lemma not_lt_lower_char (x : ascii) : not_lt (Str.lower_char x) = not_lt x.
Proof.
  destruct x as [b0 b1 b2 b3 b4 b5 b6 b7].
  destruct b0, b1, b2, b3, b4, b5, b6, b7; reflexivity.
Qed.

Lemma not_lt_lower (s : string) : all_chars not_lt (Str.lower s) = all_chars not_lt s.
Proof.
  induction s as [|a s IH]; simpl; [reflexivity|]. now rewrite not_lt_lower_char, IH.
Qed.

Lemma lower_char_lt (x : ascii) : Str.lower_char x = "<"%char -> x = "<"%char.
Proof.
  destruct x as [b0 b1 b2 b3 b4 b5 b6 b7].
  destruct b0, b1, b2, b3, b4, b5, b6, b7; intros H; try reflexivity;
    vm_compute in H; discriminate H.
Qed.

Lemma not_quote_not_lt_plain (s : string) :
  all_chars plain s = all_chars Re.not_quote s && all_chars not_lt s.
Proof.
  induction s as [|a s IH]; simpl; [reflexivity|]. rewrite IH. unfold plain.
  destruct (Re.not_quote a), (not_lt a), (all_chars Re.not_quote s); reflexivity.
Qed.

Lemma alternate_fails_any_case (kw_meta ws0 kw_name rest : string) :
  Str.lower kw_meta = "<meta" -> Str.lower kw_name = "name=" ->
  all_chars Str.isspace ws0 = true ->
  Re.match_ META_RE_ALT (kw_meta +:+ ws0 +:+ kw_name +:+ rest) = None.
Proof.
  intros Hmeta Hname Hws0.
  destruct (lower_cons_inv _ _ _ Hname) as (x1 & kn & -> & Hx1 & Hkn).
  unfold Re.match_, META_RE_ALT. cbn [Re.seq_of Re.exec].
  rewrite exec_word by exact Hmeta. rewrite app_cons.
  apply rep_fails.
  - now apply (not_space_of_lower x1 _ Hx1).
  - intros t1 t2 ->. rewrite all_chars_app in Hws0. apply andb_prop in Hws0 as [_ Ht2].
    destruct t2 as [|a t2].
    + rewrite app_nil_l. apply exec_word_fail. rewrite Hx1. discriminate.
    + rewrite app_cons. apply exec_word_fail. simpl in Ht2.
      apply andb_prop in Ht2 as [Ha _]. intros Heq.
      rewrite <- isspace_lower_char, Heq in Ha. discriminate Ha.
Qed.

End AnyCaseFile.

(** X3: the extractor recognises a declaration in the primary order
    whatever the letter case of [<meta], [name=] and [content=], whatever
    white space separates the parts, and whichever of the two quote
    characters opens or closes a value (the closing one need not be the
    opening one).  For a name and a content without quote and without
    [<], followed by any text without [<], the mapping is the single
    entry of the declaration. *)
Theorem declaration_read_in_any_case (os : OS) (path : string)
    (kw_meta ws0 kw_name : string) (q1 : ascii) (n : string) (q2 : ascii)
    (ws1 kw_content : string) (q3 : ascii) (c : string) (q4 : ascii) (tail : string) :
  Str.lower kw_meta = "<meta" -> Str.lower kw_name = "name=" ->
  Str.lower kw_content = "content=" ->
  ws0 <> EmptyString -> all_chars Str.isspace ws0 = true ->
  ws1 <> EmptyString -> all_chars Str.isspace ws1 = true ->
  Re.quote q1 = true -> Re.quote q2 = true -> Re.quote q3 = true -> Re.quote q4 = true ->
  n <> EmptyString -> all_chars plain n = true -> all_chars plain c = true ->
  all_chars not_lt tail = true ->
  read_text os path
  = Some (free_declaration kw_meta ws0 kw_name q1 n q2 ws1 kw_content q3 c q4 +:+ tail) ->
  (read_meta_from_html os path).1 = {[Str.lower (Str.strip n) := Str.strip c]}.
Proof.
  intros Hmeta Hname Hcontent Hws0n Hws0 Hws1n Hws1 Hq1 Hq2 Hq3 Hq4 Hn0 Hn Hc Htail Hread.
  unfold read_meta_from_html. rewrite Hread. cbn [fst]. unfold meta_of_html.
  rewrite not_quote_not_lt_plain in Hn, Hc.
  apply andb_prop in Hn as [Hn Hnl]. apply andb_prop in Hc as [Hc Hcl].
  rewrite (finditer_match_here META_RE META_RE_consumes _ tail (<[2 := c]> (<[1 := n]> ∅)))
    by (apply primary_matches_any_case; assumption).
  rewrite <- (string_app_nil_r tail) at 1.
  rewrite (finditer_skip META_RE META_RE_starts_with_lt META_RE_consumes) by exact Htail.
  rewrite (finditer_nil META_RE META_RE_starts_with_lt).
  assert (Re.finditer META_RE_ALT
            (free_declaration kw_meta ws0 kw_name q1 n q2 ws1 kw_content q3 c q4 +:+ tail)
          = []) as ->.
  { unfold free_declaration.
    repeat first [rewrite string_app_assoc | rewrite app_cons | rewrite app_nil_l].
    pose proof (alternate_fails_any_case kw_meta ws0 kw_name
                  (String q1 (n +:+ String q2 (ws1 +:+ kw_content
                     +:+ String q3 (c +:+ String q4 tail)))) Hmeta Hname Hws0) as Hfail.
    destruct (lower_cons_inv _ _ _ Hmeta) as (x0 & km & -> & Hx0 & Hkm).
    apply lower_char_lt in Hx0 as ->.
    rewrite app_cons in Hfail |- *.
    rewrite (finditer_fail_here META_RE_ALT META_RE_ALT_consumes) by exact Hfail.
    rewrite <- (string_app_nil_r (km +:+ _)).
    rewrite (finditer_skip META_RE_ALT META_RE_ALT_starts_with_lt META_RE_ALT_consumes).
    - apply (finditer_nil META_RE_ALT META_RE_ALT_starts_with_lt).
    - repeat first [rewrite all_chars_app | progress cbn [all_chars]].
      rewrite <- (not_lt_lower km), Hkm.
      rewrite <- (not_lt_lower kw_name), Hname.
      rewrite <- (not_lt_lower kw_content), Hcontent.
      rewrite (spaces_not_lt ws0 Hws0), (spaces_not_lt ws1 Hws1), Hnl, Hcl, Htail.
      rewrite (quote_not_lt q1 Hq1), (quote_not_lt q2 Hq2), (quote_not_lt q3 Hq3),
        (quote_not_lt q4 Hq4).
      reflexivity. }
  simpl. unfold store_primary, Re.group.
  rewrite lookup_insert_ne by discriminate. rewrite !lookup_insert_eq. simpl.
  apply insert_empty.
Qed.

Lemma declaration_read_in_any_case_witness :
  (read_meta_from_html
     (os_of [] (fun _ => free_declaration "<META" "  " "Name=" "'" "Post-Date" Str.dquote
                           " " "CONTENT=" Str.dquote "2025-06-01" "'" +:+ " />"))
     "posts/a/index.html").1
  = {[Str.lower (Str.strip "Post-Date") := Str.strip "2025-06-01"]}.
Proof.
  apply (declaration_read_in_any_case _ _ "<META" "  " "Name=" "'" "Post-Date" Str.dquote
           " " "CONTENT=" Str.dquote "2025-06-01" "'" " />");
    try reflexivity; discriminate.
Defined.

(* ===================================================================== *)
(** * More on the Post Collector *)
(* ===================================================================== *)

Section Tags.

#[local] Arguments String.append !_ _ / : simpl nomatch.

Lemma split_pieces_no_sep (s : string) :
  Forall (fun t => all_chars not_comma t = true) (Str.split "," s).
Proof.
  induction s as [|c s IH]; simpl; [repeat constructor|].
  destruct (Str.char_eqb c ",") eqn:Hc; [constructor; [reflexivity|exact IH]|].
  destruct (Str.split "," s) as [|h t]; [repeat constructor; simpl; unfold not_comma;
    now rewrite Hc|].
  apply Forall_cons in IH as [Hh Ht]. constructor; [|exact Ht].
  simpl. unfold not_comma at 1. now rewrite Hc, Hh.
Qed.

Lemma lstrip_all_chars p (s : string) :
  all_chars p s = true -> all_chars p (Str.lstrip s) = true.
Proof.
  induction s as [|c s IH]; simpl; [reflexivity|].
  intros [Hc Hs]%andb_prop. destruct (Str.isspace c); [now apply IH|].
  simpl. now rewrite Hc, Hs.
Qed.

Lemma rstrip_all_chars p (s : string) :
  all_chars p s = true -> all_chars p (Str.rstrip s) = true.
Proof.
  induction s as [|c s IH]; simpl; [reflexivity|].
  intros [Hc Hs]%andb_prop. specialize (IH Hs).
  destruct (Str.rstrip s) as [|d r].
  - destruct (Str.isspace c); simpl; [reflexivity|now rewrite Hc].
  - simpl in *. now rewrite Hc, IH.
Qed.

Lemma strip_all_chars p (s : string) :
  all_chars p s = true -> all_chars p (Str.strip s) = true.
Proof. intros H. unfold Str.strip. now apply lstrip_all_chars, rstrip_all_chars. Qed.

Lemma truthy_nonempty (s : string) : Str.truthy s = true <-> s <> EmptyString.
Proof. destruct s; simpl; split; congruence. Qed.

Lemma parse_tags_clean (tags_raw : string) : Forall clean_tag (parse_tags tags_raw).
Proof.
  unfold parse_tags. pose proof (split_pieces_no_sep tags_raw) as Hs.
  induction Hs as [|t l Ht _ IH]; simpl; [constructor|].
  destruct (Str.truthy (Str.strip t)) eqn:Htr; simpl; [|exact IH].
  constructor; [|exact IH]. split; [now apply truthy_nonempty|].
  split; [apply strip_idem|now apply strip_all_chars].
Qed.

(** Splitting at the commas of a joined list. *)
Lemma split_app_sep (t rest : string) :
  all_chars not_comma t = true ->
  Str.split "," (t +:+ String "," rest) = t :: Str.split "," rest.
Proof.
  induction t as [|c t IH]; simpl; [reflexivity|].
  unfold not_comma at 1. intros [Hc Ht]%andb_prop. apply negb_true_iff in Hc.
  rewrite Hc, IH by exact Ht. reflexivity.
Qed.

Lemma split_no_sep (t : string) :
  all_chars not_comma t = true -> Str.split "," t = [t].
Proof.
  induction t as [|c t IH]; simpl; [reflexivity|].
  unfold not_comma at 1. intros [Hc Ht]%andb_prop. apply negb_true_iff in Hc.
  rewrite Hc, IH by exact Ht. reflexivity.
Qed.

Lemma strip_blank_trimmed (t : string) :
  t <> EmptyString -> trimmed t -> Str.strip (String " " t) = t.
Proof.
  unfold trimmed, Str.strip. intros Ht0 Ht. simpl.
  destruct (Str.rstrip t) as [|d r] eqn:Hr.
  - simpl in Ht. congruence.
  - change (Str.lstrip (String " " (String d r))) with (Str.lstrip (String d r)).
    exact Ht.
Qed.

End Tags.

(** X4: the tags of a record are what stands between the commas of
    [post-tags], trimmed, without the empty pieces: no tag is empty, has
    white space around it or holds a comma.  A list of such tags written
    with [', '.join] is read back as it is. *)
Theorem tags_clean_and_read_back (tags_raw : string) (l : list string) :
  Forall clean_tag (parse_tags tags_raw)
  /\ (Forall clean_tag l -> parse_tags (join_tags l) = l).
Proof.
  split; [apply parse_tags_clean|].
  unfold parse_tags.
  set (keep := fun t => let t' := Str.strip t in if Str.truthy t' then Some t' else None).
  assert (forall t, clean_tag t -> keep t = Some t /\ keep (String " " t) = Some t)
    as Hkeep.
  { intros t (Ht0 & Ht & _). unfold keep. cbv zeta.
    rewrite strip_blank_trimmed by assumption. rewrite Ht.
    apply truthy_nonempty in Ht0. now rewrite Ht0. }
  assert (forall l, Forall clean_tag l ->
            omap keep (Str.split "," (join_tags l)) = l
            /\ omap keep (Str.split "," (String " " (join_tags l))) = l) as Hall.
  { clear l. induction 1 as [|t l Ht Hl [IH1 IH2]]; [split; reflexivity|].
    pose proof Ht as (Ht0 & Htt & Htc).
    destruct (Hkeep t Ht) as [Hk1 Hk2].
    assert (all_chars not_comma (String " " t) = true) as Hbt by (simpl; exact Htc).
    destruct l as [|u l].
    - cbn [join_tags]. rewrite split_no_sep by exact Htc.
      rewrite split_no_sep by exact Hbt. cbn [omap list_omap].
      rewrite Hk1, Hk2. split; reflexivity.
    - change (join_tags (t :: u :: l)) with (t +:+ String "," (String " " (join_tags (u :: l)))).
      change (String " " (t +:+ String "," (String " " (join_tags (u :: l)))))
        with (String " " t +:+ String "," (String " " (join_tags (u :: l)))).
      rewrite !split_app_sep by assumption. cbn [omap list_omap].
      rewrite Hk1, Hk2. cbn [mbind option_bind].
      split; (f_equal; exact IH2). }
  intros Hl. apply (Hall l Hl).
Qed.

Lemma tags_clean_and_read_back_witness :
  parse_tags (join_tags ["llm"; "open source"; "gpt-4"]) = ["llm"; "open source"; "gpt-4"].
Proof.
  apply (proj2 (tags_clean_and_read_back "" ["llm"; "open source"; "gpt-4"])).
  repeat constructor; discriminate.
Defined.

(** X5: an index file that cannot be read does not stop the run.  The
    extractor returns the empty mapping and prints the error; the
    collector then finds no date, leaves the list as it is and prints the
    warning of a missing date under the name of the directory. *)
Theorem unreadable_index_skipped (os : OS) (name : string) (st : list post * list event) :
  is_directory os name ->
  path_exists os (index_file_of name) = true ->
  read_text os (index_file_of name) = None ->
  read_meta_from_html os (index_file_of name)
  = (∅, [ERROR_could_not_read (index_file_of name)])
  /\ gather_step os st name
     = (st.1, st.2 ++ [ERROR_could_not_read (index_file_of name);
                       WARN_missing_post_date name])
  /\ collected os name = None.
Proof.
  unfold is_directory, collected, index_file_of, folder_of. intros Hdir Hex Hread.
  assert (read_meta_from_html os (path_join (path_join POSTS_DIR name) "index.html")
          = (∅, [ERROR_could_not_read (path_join (path_join POSTS_DIR name) "index.html")]))
    as Hmeta by (unfold read_meta_from_html; now rewrite Hread).
  split; [exact Hmeta|]. split.
  - destruct st as [posts log]. unfold gather_step. rewrite Hdir, Hex, Hmeta. reflexivity.
  - rewrite Hdir, Hex, Hmeta. reflexivity.
Qed.

Lemma unreadable_index_skipped_witness :
  read_meta_from_html mixed_os (index_file_of "locked")
  = (∅, [ERROR_could_not_read (index_file_of "locked")])
  /\ gather_step mixed_os ([], []) "locked"
     = ([], [] ++ [ERROR_could_not_read (index_file_of "locked");
                   WARN_missing_post_date "locked"])
  /\ collected mixed_os "locked" = None.
Proof.
  apply (unreadable_index_skipped mixed_os "locked" ([], [])); reflexivity.
Defined.

Section Accounting.

Variable os : OS.

(** One turn of the loop on an entry that is not a directory changes
    nothing. *)
Lemma gather_step_not_directory st name :
  ~ is_directory os name -> gather_step os st name = st.
Proof.
  unfold is_directory, folder_of. intros Hnd. destruct st as [posts log].
  unfold gather_step. destruct (path_isdir os _); [contradiction|reflexivity].
Qed.

Lemma foldl_gather_step_filter names st :
  foldl (gather_step os) st names
  = foldl (gather_step os) st (filter (is_directory os) names).
Proof.
  revert st. induction names as [|name names IH]; intros st; [reflexivity|].
  rewrite filter_cons. destruct (decide (is_directory os name)) as [Hd|Hd]; simpl.
  - apply IH.
  - rewrite gather_step_not_directory by exact Hd. apply IH.
Qed.

Lemma read_meta_no_warning (path : string) :
  warnings (read_meta_from_html os path).2 = [].
Proof. unfold read_meta_from_html. now destruct (read_text os path). Qed.

Lemma post_of_meta_inr_warning name meta w :
  post_of_meta name meta = inr w -> is_warning w = true.
Proof.
  unfold post_of_meta.
  destruct (meta !! "post-date") as [d|]; [|by intros [= <-]].
  destruct (Str.truthy d); cbn [negb]; [|by intros [= <-]].
  destruct (Datetime.strptime d); [discriminate|by intros [= <-]].
Qed.

(** One turn on a directory adds a record or a warning, never both. *)
Lemma gather_step_directory st name :
  is_directory os name ->
  length (gather_step os st name).1 + length (warnings (gather_step os st name).2)
  = S (length st.1 + length (warnings st.2)).
Proof.
  unfold is_directory, folder_of. intros Hd. destruct st as [posts log].
  unfold gather_step. rewrite Hd. cbn [negb fst snd].
  set (idx := path_join (path_join POSTS_DIR name) "index.html").
  destruct (path_exists os idx); cbn [negb].
  - pose proof (read_meta_no_warning idx) as Hnw.
    destruct (read_meta_from_html os idx) as [meta printed]. cbn [snd] in Hnw.
    destruct (post_of_meta name meta) as [p|w] eqn:Hp; cbn [fst snd].
    + unfold warnings in *. rewrite length_app, filter_app, Hnw, app_nil_r. simpl. lia.
    + apply post_of_meta_inr_warning in Hp.
      unfold warnings in *. rewrite !filter_app, Hnw, length_app.
      rewrite filter_cons_True by exact Hp. simpl. lia.
  - cbn [fst snd]. unfold warnings. rewrite filter_app, length_app. simpl. lia.
Qed.

Lemma foldl_gather_step_count names st :
  length (foldl (gather_step os) st names).1
  + length (warnings (foldl (gather_step os) st names).2)
  = length (filter (is_directory os) names) + (length st.1 + length (warnings st.2)).
Proof.
  revert st. induction names as [|name names IH]; intros st; [reflexivity|].
  cbn [foldl]. rewrite IH, filter_cons.
  destruct (decide (is_directory os name)) as [Hd|Hd].
  - rewrite gather_step_directory by exact Hd. simpl. lia.
  - rewrite gather_step_not_directory by exact Hd. lia.
Qed.

End Accounting.

(** X6: no directory is dropped without a trace.  When the posts
    directory exists, every entry of it that is a directory gives either
    one record or one warning: the number of these entries is the number
    of records returned plus the number of warnings printed, and the last
    line printed tells the number of records.  Entries that are not
    directories change nothing: the run returns and prints the same
    without them. *)
Theorem every_directory_accounted_for (os : OS) :
  path_isdir os POSTS_DIR = true ->
  length (filter (is_directory os) (listdir os POSTS_DIR))
  = length (gather_posts os).1 + length (warnings (gather_posts os).2)
  /\ last (gather_posts os).2 = Some (INFO_found_valid_posts (length (gather_posts os).1))
  /\ gather_posts os
     = gather_posts (with_listing os (filter (is_directory os) (listdir os POSTS_DIR))).
Proof.
  intros Hposts. rewrite !gather_posts_unfold. cbn [with_listing path_isdir].
  rewrite Hposts. cbn [fst snd]. split; [|split].
  - pose proof (foldl_gather_step_count os (listdir os POSTS_DIR) ([], [])) as Hc.
    fold (discover os) in Hc. simpl in Hc.
    rewrite (Permutation_length (sort_desc_perm _)).
    unfold warnings in *. rewrite filter_app, length_app. simpl. lia.
  - apply last_snoc.
  - assert (discover (with_listing os (filter (is_directory os) (listdir os POSTS_DIR)))
            = discover os) as ->; [|reflexivity].
    unfold discover. cbn [with_listing listdir].
    symmetry. apply (foldl_gather_step_filter os).
Qed.

Lemma every_directory_accounted_for_witness :
  length (filter (is_directory mixed_os) (listdir mixed_os POSTS_DIR))
  = length (gather_posts mixed_os).1 + length (warnings (gather_posts mixed_os).2)
  /\ last (gather_posts mixed_os).2
     = Some (INFO_found_valid_posts (length (gather_posts mixed_os).1))
  /\ gather_posts mixed_os
     = gather_posts (with_listing mixed_os
                       (filter (is_directory mixed_os) (listdir mixed_os POSTS_DIR))).
Proof. apply (every_directory_accounted_for mixed_os). reflexivity. Defined.

Section Records.

Variable os : OS.

(** Every record returned comes from an entry of the listing. *)
Lemma gather_posts_origin (p : post) :
  p ∈ (gather_posts os).1 ->
  exists name : string,
    name ∈ listdir os POSTS_DIR
    /\ post_of_meta name (read_meta_from_html os (index_file_of name)).1 = inl p.
Proof.
  rewrite gather_posts_unfold. destruct (path_isdir os POSTS_DIR); cbn [fst].
  - rewrite sort_desc_perm, discover_posts. intros (name & Hin & Hc)%list_elem_of_omap.
    exists name. split; [exact Hin|]. unfold collected in Hc.
    destruct (_ && _); [|discriminate].
    destruct (post_of_meta name _) as [p'|w]; [|discriminate]. now injection Hc as ->.
  - intros H%elem_of_nil. contradiction.
Qed.

Lemma or_str_nonempty (a : option string) (s : string) :
  s <> EmptyString -> or_str a s <> EmptyString.
Proof.
  intros Hs. unfold or_str. destruct a as [t|]; [|exact Hs].
  destruct (Str.truthy t) eqn:Ht; [now apply truthy_nonempty|exact Hs].
Qed.

Lemma default_trimmed (meta : gmap string string) (k : string) :
  map_Forall tidy_entry meta -> trimmed (default EmptyString (meta !! k)).
Proof.
  intros Hm. destruct (meta !! k) as [v|] eqn:Hk; [|reflexivity].
  apply (Hm k v Hk).
Qed.

Lemma post_of_meta_fields (name : string) (meta : gmap string string) (p : post) :
  post_of_meta name meta = inl p ->
  slug p = or_str (meta !! "post-slug") name
  /\ url p = "/posts/" +:+ slug p +:+ "/"
  /\ title p = or_str (or_get (meta !! "post-title") (meta !! "title")) (slug p)
  /\ meta !! "post-date" = Some (date p)
  /\ updated p = default EmptyString (meta !! "post-updated")
  /\ summary p = or_str (meta !! "post-summary") (default EmptyString (meta !! "description"))
  /\ thumb p = default EmptyString (meta !! "post-thumb")
  /\ tags p = parse_tags (default EmptyString (meta !! "post-tags")).
Proof.
  unfold post_of_meta.
  destruct (meta !! "post-date") as [d|]; [|discriminate].
  destruct (Str.truthy d); cbn [negb]; [|discriminate].
  destruct (Datetime.strptime d); [|discriminate].
  intros [= <-]. cbn. repeat split; reflexivity.
Qed.

End Records.

(** X7: the records of the collection are well formed.  The [url] of a
    record is [/posts/], its slug and [/]; its tags are not empty, have
    no white space around them and hold no comma; its date, update date,
    summary and thumbnail have no white space around them.  Its slug and
    its title are not empty, as long as no entry of the listing has the
    empty name. *)
Theorem records_well_formed (os : OS) (p : post) :
  p ∈ (gather_posts os).1 ->
  url p = "/posts/" +:+ slug p +:+ "/"
  /\ Forall clean_tag (tags p)
  /\ trimmed (date p) /\ trimmed (updated p) /\ trimmed (summary p) /\ trimmed (thumb p)
  /\ (EmptyString ∉ listdir os POSTS_DIR ->
      slug p <> EmptyString /\ title p <> EmptyString).
Proof.
  intros (name & Hin & Hp)%gather_posts_origin.
  pose proof (read_meta_map_tidy os (index_file_of name)) as Htidy.
  destruct (post_of_meta_fields _ _ _ Hp)
    as (Hslug & Hurl & Htitle & Hdate & Hupd & Hsum & Hthumb & Htags).
  split; [exact Hurl|]. split; [rewrite Htags; apply parse_tags_clean|].
  split; [apply (Htidy _ _ Hdate)|].
  split; [rewrite Hupd; now apply default_trimmed|].
  split.
  { rewrite Hsum. unfold or_str.
    destruct (_ !! "post-summary") as [t|] eqn:Ht; [|now apply default_trimmed].
    destruct (Str.truthy t); [apply (Htidy _ _ Ht)|now apply default_trimmed]. }
  split; [rewrite Hthumb; now apply default_trimmed|].
  intros Hnames.
  assert (name <> EmptyString) as Hname by (intros ->; contradiction).
  assert (slug p <> EmptyString) as Hs by (rewrite Hslug; now apply or_str_nonempty).
  split; [exact Hs|]. rewrite Htitle. now apply or_str_nonempty.
Qed.

Lemma records_well_formed_witness :
  url (Post "hello" "/posts/hello/" "hello" "2025-06-01" "" "" "" ["a"; "b"])
  = "/posts/" +:+ "hello" +:+ "/".
Proof.
  apply (records_well_formed mixed_os
           (Post "hello" "/posts/hello/" "hello" "2025-06-01" "" "" "" ["a"; "b"])).
  vm_compute. repeat constructor.
Defined.

(* ===================================================================== *)
(** * More on the Index Writer *)
(* ===================================================================== *)

Section PageNames.

#[local] Arguments String.append !_ _ / : simpl nomatch.

Lemma to_uint_nonnil (n : nat) : Nat.to_uint n <> Decimal.Nil.
Proof.
  rewrite <- (DecimalNat.Unsigned.of_to n), DecimalNat.Unsigned.to_of.
  unfold Decimal.unorm. destruct (Decimal.nzhead _); discriminate.
Qed.

(** Two numbers with the same decimal writing are equal. *)
Lemma of_nat_inj (n m : nat) : Str.of_nat n = Str.of_nat m -> n = m.
Proof.
  unfold Str.of_nat. intros H. apply (f_equal NilZero.uint_of_string) in H.
  rewrite !NilZero.usu in H by apply to_uint_nonnil.
  injection H as H. now apply DecimalNat.Unsigned.to_uint_inj.
Qed.

Lemma app_inj_r (s1 s2 t : string) : s1 +:+ t = s2 +:+ t -> s1 = s2.
Proof.
  intros H. assert (String.length s1 = String.length s2) as Hlen.
  { apply (f_equal String.length) in H. rewrite !length_append in H. lia. }
  revert s2 H Hlen. induction s1 as [|a s1 IH]; intros [|b s2] H Hlen;
    try discriminate; [reflexivity|].
  simpl in *. injection H as -> H. f_equal. apply IH; [exact H|lia].
Qed.

Lemma page_name_inj (N M : nat) : page_name N = page_name M -> N = M.
Proof.
  unfold page_name. intros H. apply (inj (String.append OUTPUT_INDEX_PREFIX)) in H.
  apply app_inj_r in H. now apply of_nat_inj.
Qed.

Lemma page_file_fst (posts : list post) (N : nat) : (page_file posts N).1 = page_name N.
Proof. reflexivity. Qed.

Lemma page_name_not_main (N : nat) : page_name N <> OUTPUT_INDEX_MAIN.
Proof. unfold page_name. intros H. simpl in H. discriminate H. Qed.

Lemma NoDup_page_names (c : nat) : NoDup (page_name <$> seq 1 c).
Proof.
  apply (NoDup_fmap_2_strong page_name); [|apply NoDup_seq].
  intros N M _ _. apply page_name_inj.
Qed.

End PageNames.

Section PageSizes.

Lemma page_count_bounds (n : nat) :
  1 <= page_count n /\ n <= 20 * page_count n
  /\ (0 < n -> 20 * page_count n < n + 20) /\ (n = 0 -> page_count n = 1).
Proof.
  split; [|split; [|split]]; try (intros ->; reflexivity); rewrite page_count_ceil;
    destruct (ceil_div_bounds n 20 ltac:(lia)) as [H1 H2]; lia.
Qed.

Lemma page_slices_lookup (posts : list post) (N : nat) :
  1 <= N <= page_count (length posts) ->
  page_slices posts !! (N - 1) = Some (slice posts ((N - 1) * PER_PAGE) ((N - 1) * PER_PAGE + PER_PAGE)).
Proof.
  intros HN. rewrite page_slices_eq, list_lookup_fmap, lookup_seq_lt by lia.
  replace (1 + (N - 1)) with N by lia. reflexivity.
Qed.

Lemma length_slice {A} (l : list A) (start : nat) :
  length (slice l start (start + PER_PAGE)) = Nat.min PER_PAGE (length l - start).
Proof.
  unfold slice. replace (start + PER_PAGE - start) with PER_PAGE by lia.
  now rewrite length_take, length_drop.
Qed.

End PageSizes.

(** X8: every page but the last holds exactly 20 records; the last page
    holds the rest, at most 20 records and at least one unless the list
    is empty. *)
Theorem page_sizes (posts : list post) (N : nat) :
  1 <= N <= page_count (length posts) ->
  exists sl : list post,
    page_slices posts !! (N - 1) = Some sl
    /\ (N < page_count (length posts) -> length sl = 20)
    /\ (N = page_count (length posts) ->
        length sl = length posts - (N - 1) * 20
        /\ length sl <= 20
        /\ (posts <> [] -> 1 <= length sl)).
Proof.
  intros HN. eexists. split; [apply page_slices_lookup; exact HN|].
  rewrite length_slice. unfold PER_PAGE.
  destruct (page_count_bounds (length posts)) as (H1 & H2 & H3 & H4).
  split.
  - intros Hlt. destruct (Nat.eq_dec (length posts) 0) as [H0|H0]; [specialize (H4 H0); lia|].
    specialize (H3 ltac:(lia)). lia.
  - intros ->. split; [lia|]. split; [lia|].
    intros Hne.
    assert (0 < length posts) as Hpos by (destruct posts; simpl; [congruence|lia]).
    specialize (H3 Hpos). lia.
Qed.

Lemma page_sizes_witness :
  exists sl : list post,
    page_slices (numbered_posts 45) !! (3 - 1) = Some sl
    /\ (3 < page_count (length (numbered_posts 45)) -> length sl = 20)
    /\ (3 = page_count (length (numbered_posts 45)) ->
        length sl = length (numbered_posts 45) - (3 - 1) * 20
        /\ length sl <= 20
        /\ (numbered_posts 45 <> [] -> 1 <= length sl)).
Proof. apply (page_sizes (numbered_posts 45) 3). vm_compute. lia. Defined.

(** X9: the writer writes one file per page and then the pointer, under
    names that are all different, so no page replaces another one; it
    prints one line per file, in the order of the writes. The pointer
    tells page 1, the page size, the number of records and the number of
    pages, and has no records of its own. *)
Theorem index_files_written (posts : list post) :
  (write_paginated_indexes posts).1
  = ((fun N => (page_name N, (page_file posts N).2)) <$> seq 1 (page_count (length posts)))
    ++ [(OUTPUT_INDEX_MAIN, pointer (length posts))]
  /\ NoDup (write_paginated_indexes posts).1.*1
  /\ length (write_paginated_indexes posts).1 = page_count (length posts) + 1
  /\ (write_paginated_indexes posts).2 = INFO_wrote <$> (write_paginated_indexes posts).1.*1.
Proof.
  unfold write_paginated_indexes. cbn [fst snd]. split; [reflexivity|]. split; [|split].
  - rewrite fmap_app, <- list_fmap_compose. cbn [fmap list_fmap].
    apply NoDup_app. split; [apply NoDup_page_names|]. split; [|repeat constructor; apply not_elem_of_nil].
    intros name (N & -> & _)%list_elem_of_fmap Hmain%list_elem_of_singleton.
    now apply (page_name_not_main N).
  - rewrite length_app, length_fmap, length_seq. reflexivity.
  - rewrite !fmap_app, <- !list_fmap_compose. reflexivity.
Qed.

(* ===================================================================== *)
(** * More on dates *)
(* ===================================================================== *)

Section Digits.

Lemma code_digit (a : nat) : a < 10 -> Str.code (digit a) = 48 + a.
Proof. intros Ha. unfold Str.code, digit. apply nat_ascii_embedding. lia. Qed.

Lemma isdigit_digit (a : nat) : a < 10 -> Str.isdigit (digit a) = true.
Proof.
  intros Ha. unfold Str.isdigit, Str.between. rewrite code_digit by exact Ha.
  apply andb_true_intro. split; apply Nat.leb_le; lia.
Qed.

Lemma digit_value_digit (a : nat) : a < 10 -> Datetime.digit_value (digit a) = Z.of_nat a.
Proof. intros Ha. unfold Datetime.digit_value. rewrite code_digit by exact Ha. lia. Qed.

Lemma isdigit_not_space (c : ascii) : Str.isdigit c = true -> Str.isspace c = false.
Proof.
  destruct c as [b0 b1 b2 b3 b4 b5 b6 b7].
  destruct b0, b1, b2, b3, b4, b5, b6, b7; intros H; try reflexivity;
    vm_compute in H; discriminate H.
Qed.

Lemma padded_digits (w n : nat) : n < 10 ^ w -> all_chars Str.isdigit (padded w n) = true.
Proof.
  revert n. induction w as [|w IH]; intros n Hn; [reflexivity|].
  cbn [padded all_chars].
  assert (0 < 10 ^ w) as HP by (apply Nat.neq_0_lt_0, Nat.pow_nonzero; lia).
  rewrite Nat.pow_succ_r' in Hn.
  rewrite isdigit_digit by (apply Nat.Div0.div_lt_upper_bound; lia).
  rewrite IH by (apply Nat.mod_upper_bound; lia). reflexivity.
Qed.

Lemma rstrip_no_space (s : string) :
  all_chars (fun c => negb (Str.isspace c)) s = true -> Str.rstrip s = s.
Proof.
  induction s as [|c s IH]; simpl; [reflexivity|].
  intros [Hc Hs]%andb_prop. rewrite IH by exact Hs.
  apply negb_true_iff in Hc. rewrite Hc. now destruct s.
Qed.

Lemma strip_digits (s : string) : all_chars Str.isdigit s = true -> Str.strip s = s.
Proof.
  intros Hs. unfold Str.strip. rewrite rstrip_no_space.
  - destruct s as [|c s]; [reflexivity|]. simpl in *.
    apply andb_prop in Hs as [Hc _]. now rewrite (isdigit_not_space c Hc).
  - clear -Hs. induction s as [|c s IH]; simpl in *; [reflexivity|].
    apply andb_prop in Hs as [Hc Hs]. now rewrite (isdigit_not_space c Hc), IH.
Qed.

Lemma digits_padded (w n : nat) (acc : Z) :
  n < 10 ^ w ->
  Datetime.digits acc (padded w n) = Some (acc * Z.of_nat (10 ^ w) + Z.of_nat n)%Z.
Proof.
  revert n acc. induction w as [|w IH]; intros n acc Hn.
  - simpl in *. f_equal. lia.
  - cbn [padded Datetime.digits].
    assert (0 < 10 ^ w) as HP by (apply Nat.neq_0_lt_0, Nat.pow_nonzero; lia).
    rewrite Nat.pow_succ_r' in Hn |- *.
    assert (n / 10 ^ w < 10) as Hq by (apply Nat.Div0.div_lt_upper_bound; lia).
    rewrite isdigit_digit, digit_value_digit by exact Hq.
    rewrite IH by (apply Nat.mod_upper_bound; lia). f_equal.
    pose proof (Nat.div_mod_eq n (10 ^ w)) as E.
    set (P := 10 ^ w) in *. set (q := n / P) in *. set (r := n mod P) in *.
    clearbody P q r. subst n. rewrite Nat2Z.inj_add, !Nat2Z.inj_mul. lia.
Qed.

(** [int] reads a padded number back. *)
Lemma int_padded (w n : nat) :
  n < 10 ^ S w -> Datetime.int (padded (S w) n) = Some (Z.of_nat n).
Proof.
  intros Hn. unfold Datetime.int. rewrite strip_digits by now apply padded_digits.
  destruct (padded (S w) n) as [|c s] eqn:E; [discriminate E|]. rewrite <- E.
  rewrite digits_padded by exact Hn. reflexivity.
Qed.

End Digits.

Section DatePattern.

#[local] Arguments String.append !_ _ / : simpl nomatch.

Context {A : Type}.
Implicit Types (k : string -> gmap nat string -> option A) (caps : gmap nat string).

Lemma exec_lit c (s : string) caps k : Re.exec (Re.lit c) (String c s) caps k = k s caps.
Proof. simpl. unfold Str.char_eqb. now rewrite Ascii.eqb_refl. Qed.

(** The year: four digits. *)
Lemma exec_Y (y : nat) (rest : string) caps k :
  y < 10 ^ 4 -> Re.exec Datetime.Y_RE (padded 4 y +:+ rest) caps k = k rest caps.
Proof.
  intros Hy. pose proof (padded_digits 4 y Hy) as Hd.
  cbn [padded all_chars] in *.
  apply andb_prop in Hd as [H1 Hd]. apply andb_prop in Hd as [H2 Hd].
  apply andb_prop in Hd as [H3 Hd]. apply andb_prop in Hd as [H4 _].
  unfold Datetime.Y_RE. cbn [Re.seq_of Re.exec String.append].
  now rewrite H1, H2, H3, H4.
Qed.

(** The month, on two digits, before the rest of the pattern. *)
Lemma exec_m (m : nat) (rest : string) caps k (x : A) :
  1 <= m <= 12 -> k rest caps = Some x ->
  Re.exec Datetime.m_RE (padded 2 m +:+ rest) caps k = Some x.
Proof.
  intros Hm Hk.
  do 13 (destruct m as [|m]; [try lia; simpl; now rewrite Hk|]). lia.
Qed.

(** The day, on two digits. *)
Lemma exec_d (d : nat) (rest : string) caps k (x : A) :
  1 <= d <= 31 -> k rest caps = Some x ->
  Re.exec Datetime.d_RE (padded 2 d +:+ rest) caps k = Some x.
Proof.
  intros Hd Hk.
  do 32 (destruct d as [|d]; [try lia; simpl; now rewrite Hk|]). lia.
Qed.

End DatePattern.

Section CanonicalDates.

#[local] Arguments String.append !_ _ / : simpl nomatch.

Lemma padded_nonempty_app (w n : nat) (rest : string) :
  padded (S w) n +:+ rest
  = String (digit (n / 10 ^ w)) (padded w (n mod 10 ^ w) +:+ rest).
Proof. reflexivity. Qed.

Lemma days_in_month_le_31 (y m : Z) : (Datetime.days_in_month y m <= 31)%Z.
Proof.
  unfold Datetime.days_in_month. destruct (_ && _); [lia|].
  destruct (Z.to_nat m) as [|[|[|[|[|[|[|[|[|[|[|[|[|[|k]]]]]]]]]]]]]]; simpl; lia.
Qed.

Lemma match_iso_date (y m d : nat) :
  y < 10 ^ 4 -> 1 <= m <= 12 -> 1 <= d <= 31 ->
  Re.match_ Datetime.Ymd_RE (iso_date y m d)
  = Some (<[3 := padded 2 d]> (<[2 := padded 2 m]> (<[1 := padded 4 y]> ∅)), EmptyString).
Proof.
  intros Hy Hm Hd. unfold Re.match_, Datetime.Ymd_RE, iso_date.
  cbn [Re.seq_of Re.exec].
  rewrite exec_Y by exact Hy.
  change ("-" +:+ padded 2 m +:+ "-" +:+ padded 2 d)
    with (String "-" (padded 2 m +:+ String "-" (padded 2 d +:+ EmptyString))).
  rewrite exec_lit.
  apply exec_m; [exact Hm|]. rewrite exec_lit.
  apply exec_d; [exact Hd|]. cbn [Re.exec].
  rewrite !consumed_app. reflexivity.
Qed.

End CanonicalDates.

(** X10: every date of the calendar, written in the form of the format
    (the year on four digits, the month and the day on two), passes the
    date check and is read as itself. *)
Theorem canonical_date_accepted (y m d : nat) :
  1 <= y < 10 ^ 4 -> 1 <= m <= 12 -> 1 <= d ->
  (Z.of_nat d <= Datetime.days_in_month (Z.of_nat y) (Z.of_nat m))%Z ->
  Datetime.strptime (iso_date y m d)
  = Some (Datetime.Date (Z.of_nat y) (Z.of_nat m) (Z.of_nat d)).
Proof.
  intros Hy Hm Hd1 Hd.
  pose proof (days_in_month_le_31 (Z.of_nat y) (Z.of_nat m)) as H31.
  unfold Datetime.strptime.
  rewrite match_iso_date by lia. unfold Re.group.
  rewrite !lookup_insert. repeat case_decide; try lia. cbn [default]. unfold id.
  rewrite (int_padded 3 y) by exact (proj2 Hy).
  rewrite (int_padded 1 m), (int_padded 1 d) by (simpl; lia).
  cbn [mbind option_bind].
  unfold Datetime.make.
  assert (Z.of_nat y < 10000)%Z as Hy4.
  { pose proof (proj1 (Nat2Z.inj_lt _ _) (proj2 Hy)) as Hlt.
    now rewrite Nat2Z.inj_pow in Hlt. }
  destruct (_ && _) eqn:Hc; [reflexivity|].
  exfalso. repeat (apply andb_false_iff in Hc as [Hc|Hc]);
    (apply Z.leb_gt in Hc; lia).
Qed.

Lemma canonical_date_accepted_witness :
  Datetime.strptime (iso_date 2024 2 29) = Some (Datetime.Date 2024 2 29).
Proof.
  apply (canonical_date_accepted 2024 2 29).
  - simpl. lia.
  - lia.
  - lia.
  - vm_compute. discriminate.
Defined.

Section Reconversion.

Lemma strptime_not_digit (c : ascii) (s : string) :
  Str.isdigit c = false -> Datetime.strptime (String c s) = None.
Proof.
  intros Hc. unfold Datetime.strptime, Re.match_, Datetime.Ymd_RE, Datetime.Y_RE.
  cbn [Re.seq_of Re.exec]. now rewrite Hc.
Qed.

Lemma strftime_not_a_date (dt : Datetime.date) :
  Datetime.strptime (Datetime.strftime dt) = None.
Proof.
  unfold Datetime.strftime.
  assert (Z.to_nat (Datetime.weekday dt) < 7) as Hw.
  { unfold Datetime.weekday.
    pose proof (Z.mod_pos_bound (Datetime.toordinal dt + 6) 7 ltac:(lia)). lia. }
  destruct (Z.to_nat (Datetime.weekday dt)) as [|[|[|[|[|[|[|w]]]]]]]; try lia;
    apply strptime_not_digit; reflexivity.
Qed.

End Reconversion.

(** X11: what the date conversion of the feed returns is never taken for
    a date again: converting a second time changes nothing. *)
Theorem format_rss_date_idempotent (s : string) :
  format_rss_date (format_rss_date s) = format_rss_date s.
Proof.
  unfold format_rss_date at 2 3.
  destruct (Datetime.strptime s) as [dt|] eqn:Hs.
  - unfold format_rss_date. now rewrite strftime_not_a_date.
  - unfold format_rss_date. now rewrite Hs.
Qed.


(* ===================================================================== *)
(** * The working directory: clean-up and the run *)
(* ===================================================================== *)

Section PagePattern.

#[local] Arguments String.append !_ _ / : simpl nomatch.

Lemma strip_prefix_app (p s : string) : strip_prefix p (p +:+ s) = Some s.
Proof.
  induction p as [|a p IH]; simpl; [reflexivity|].
  unfold Str.char_eqb. now rewrite Ascii.eqb_refl.
Qed.

Lemma ends_with_refl (s : string) : ends_with s s = true.
Proof. destruct s; simpl; [reflexivity|]. now rewrite Ascii.eqb_refl, String.eqb_refl. Qed.

Lemma ends_with_app (suffix s : string) : ends_with suffix (s +:+ suffix) = true.
Proof.
  induction s as [|a s IH]; simpl; [apply ends_with_refl|].
  rewrite IH. apply orb_true_r.
Qed.

Lemma matches_page_name (N : nat) : matches_page_pattern (page_name N) = true.
Proof.
  unfold matches_page_pattern, page_name. rewrite strip_prefix_app. apply ends_with_app.
Qed.

Lemma elem_of_glob_pages (cwd : gmap string artifact) (name : string) :
  name ∈ glob_pages cwd <-> matches_page_pattern name = true /\ is_Some (cwd !! name).
Proof.
  unfold glob_pages. rewrite list_elem_of_filter, list_elem_of_fmap. split.
  - intros [Hm [[k a] [-> Hin]]]. apply elem_of_map_to_list in Hin. eauto.
  - intros [Hm [a Ha]]. split; [exact Hm|]. exists (name, a). split; [reflexivity|].
    now apply elem_of_map_to_list.
Qed.

Lemma NoDup_glob_pages (cwd : gmap string artifact) : NoDup (glob_pages cwd).
Proof. apply NoDup_filter, NoDup_fst_map_to_list. Qed.

End PagePattern.

Section CleanUp.

Variable perm : permissions.

Lemma foldl_remove_step_lookup (names : list string) (st : gmap string artifact * list line)
    (k : string) :
  (foldl (remove_step perm) st names).1 !! k
  = if decide (k ∈ names /\ can_remove perm k = true) then None else st.1 !! k.
Proof.
  revert st. induction names as [|f names IH]; intros st; cbn [foldl].
  - case_decide as H; [|reflexivity]. destruct H as [H _]. now apply elem_of_nil in H.
  - rewrite IH. clear IH.
    assert ((remove_step perm st f).1 !! k
            = if decide (k = f /\ can_remove perm k = true) then None else st.1 !! k) as ->.
    { unfold remove_step. destruct (decide (k = f)) as [->|Hne].
      - destruct (can_remove perm f) eqn:Hf; simpl.
        + rewrite lookup_delete_eq. case_decide as H; [reflexivity|].
          exfalso. apply H. auto.
        + case_decide as H; [|reflexivity]. destruct H as [_ H]. discriminate H.
      - case_decide as H; [destruct H; contradiction|].
        destruct (can_remove perm f); simpl; [now rewrite lookup_delete_ne|reflexivity]. }
    destruct (decide (k ∈ names /\ can_remove perm k = true)) as [H1|H1];
      destruct (decide (k ∈ f :: names /\ can_remove perm k = true)) as [H2|H2];
      destruct (decide (k = f /\ can_remove perm k = true)) as [H3|H3];
      try reflexivity; exfalso; rewrite elem_of_cons in H2; tauto.
Qed.

Lemma foldl_remove_step_log (names : list string) (st : gmap string artifact * list line) :
  (foldl (remove_step perm) st names).2
  = st.2 ++ (WARN_could_not_remove <$> filter (fun f => can_remove perm f = false) names).
Proof.
  revert st. induction names as [|f names IH]; intros st; simpl.
  - now rewrite app_nil_r.
  - rewrite IH, filter_cons. unfold remove_step.
    destruct (can_remove perm f) eqn:Hf; simpl.
    + reflexivity.
    + now rewrite <- app_assoc.
Qed.

Lemma cleanup_lookup (cwd : gmap string artifact) (name : string) :
  (cleanup_old_index_files perm cwd).1 !! name
  = if decide (matches_page_pattern name = true /\ can_remove perm name = true)
    then None else cwd !! name.
Proof.
  unfold cleanup_old_index_files. rewrite foldl_remove_step_lookup. simpl.
  repeat case_decide; try reflexivity.
  - destruct H as [H1 H2]. apply elem_of_glob_pages in H1 as [H1 _]. tauto.
  - destruct H0 as [H1 H2].
    destruct (cwd !! name) as [a|] eqn:Ha; [|reflexivity].
    exfalso. apply H. split; [|exact H2]. apply elem_of_glob_pages. split; [exact H1|].
    rewrite Ha. eauto.
Qed.

Lemma cleanup_log (cwd : gmap string artifact) :
  (cleanup_old_index_files perm cwd).2
  = WARN_could_not_remove <$> filter (fun f => can_remove perm f = false) (glob_pages cwd).
Proof. unfold cleanup_old_index_files. now rewrite foldl_remove_step_log. Qed.

Lemma cleanup_log_removable (cwd : gmap string artifact) :
  (forall name, matches_page_pattern name = true -> is_Some (cwd !! name) ->
     can_remove perm name = true) ->
  (cleanup_old_index_files perm cwd).2 = [].
Proof.
  intros Hr. rewrite cleanup_log.
  assert (forall l, (forall f, f ∈ l -> can_remove perm f = true) ->
            filter (fun f => can_remove perm f = false) l = []) as Hnil.
  { induction l as [|f l IH]; intros Hl; [reflexivity|].
    rewrite filter_cons. case_decide as H.
    - rewrite Hl in H by (apply elem_of_cons; now left). discriminate H.
    - apply IH. intros g Hg. apply Hl, elem_of_cons. now right. }
  rewrite Hnil; [reflexivity|].
  intros f Hf. apply elem_of_glob_pages in Hf as [Hm Hs]. now apply Hr.
Qed.

End CleanUp.

Section Writes.

Variable perm : permissions.

Lemma written_app (pre post : list (string * artifact)) (m : gmap string artifact) :
  written (pre ++ post) m = written post (written pre m).
Proof. unfold written. apply foldl_app. Qed.

Lemma written_notin (files : list (string * artifact)) (m : gmap string artifact)
    (k : string) :
  k ∉ files.*1 -> written files m !! k = m !! k.
Proof.
  revert m. induction files as [|f files IH]; intros m Hk; [reflexivity|].
  rewrite fmap_cons in Hk. apply not_elem_of_cons in Hk as [Hne Hk].
  change (written (f :: files) m) with (written files (<[f.1 := f.2]> m)).
  rewrite IH by exact Hk. now rewrite lookup_insert_ne by congruence.
Qed.

Lemma written_in (files : list (string * artifact)) (m : gmap string artifact)
    (k : string) (a : artifact) :
  NoDup files.*1 -> (k, a) ∈ files -> written files m !! k = Some a.
Proof.
  revert m. induction files as [|f files IH]; intros m Hnd Hin.
  - now apply elem_of_nil in Hin.
  - rewrite fmap_cons in Hnd. apply NoDup_cons in Hnd as [Hf Hnd].
    change (written (f :: files) m) with (written files (<[f.1 := f.2]> m)).
    apply elem_of_cons in Hin as [<-|Hin].
    + rewrite written_notin by exact Hf. simpl. now rewrite lookup_insert_eq.
    + now apply IH.
Qed.

Lemma write_all_prefix (pre post : list (string * artifact))
    (st : gmap string artifact * list line) :
  Forall (fun f => can_write perm f.1 = true) pre ->
  write_all perm (pre ++ post) st
  = write_all perm post (written pre st.1, st.2 ++ wrote_lines pre).
Proof.
  revert st. induction pre as [|f pre IH]; intros st Hw.
  - simpl. unfold wrote_lines. simpl. rewrite app_nil_r. now destruct st.
  - apply Forall_cons in Hw as [Hf Hw]. simpl. rewrite Hf. rewrite IH by exact Hw.
    cbn [fst snd]. now rewrite <- app_assoc.
Qed.

Lemma write_all_completed (files : list (string * artifact))
    (st : gmap string artifact * list line) :
  Forall (fun f => can_write perm f.1 = true) files ->
  write_all perm files st = (written files st.1, st.2 ++ wrote_lines files, Completed).
Proof.
  intros Hw. rewrite <- (app_nil_r files) at 1. now rewrite write_all_prefix.
Qed.

Lemma write_all_raised (pre post : list (string * artifact)) (f : string * artifact)
    (st : gmap string artifact * list line) :
  Forall (fun f => can_write perm f.1 = true) pre -> can_write perm f.1 = false ->
  write_all perm (pre ++ f :: post) st
  = (written pre st.1, st.2 ++ wrote_lines pre, Raised f.1).
Proof. intros Hw Hf. rewrite write_all_prefix by exact Hw. simpl. now rewrite Hf. Qed.

(** The writes stop at the first file that cannot be opened. *)
Lemma write_all_split (files : list (string * artifact))
    (st : gmap string artifact * list line) :
  exists pre : list (string * artifact),
    (write_all perm files st).1 = (written pre st.1, st.2 ++ wrote_lines pre)
    /\ Forall (fun f => can_write perm f.1 = true) pre
    /\ ((pre = files /\ (write_all perm files st).2 = Completed)
        \/ exists f post, files = pre ++ f :: post /\ can_write perm f.1 = false
             /\ (write_all perm files st).2 = Raised f.1).
Proof.
  assert (forall l : list (string * artifact),
            Forall (fun f => can_write perm f.1 = true) l
          \/ exists pre f post, l = pre ++ f :: post
               /\ Forall (fun f => can_write perm f.1 = true) pre
               /\ can_write perm f.1 = false) as Hcases.
  { induction l as [|f l [IH|(pre & g & post & -> & Hpre & Hg)]].
    - left. constructor.
    - destruct (can_write perm f.1) eqn:Hf.
      + left. now constructor.
      + right. exists [], f, l. split; [reflexivity|]. split; [constructor | exact Hf].
    - destruct (can_write perm f.1) eqn:Hf.
      + right. exists (f :: pre), g, post. split; [reflexivity|].
        split; [now constructor | exact Hg].
      + right. exists [], f, (pre ++ g :: post). split; [reflexivity|].
        split; [constructor | exact Hf]. }
  destruct (Hcases files) as [Hall|(pre & f & post & -> & Hpre & Hf)].
  - exists files. rewrite write_all_completed by exact Hall. simpl. auto.
  - exists pre. rewrite write_all_raised by assumption. simpl.
    split; [reflexivity|]. split; [exact Hpre|]. right. exists f, post. auto.
Qed.

End Writes.

Section Outputs.

Variable build_date : string.

Lemma output_files_names (posts : list post) :
  (output_files build_date posts).*1 = output_names posts.
Proof.
  unfold output_files, output_names, write_paginated_indexes. cbn [fst].
  rewrite !fmap_app, <- !list_fmap_compose. simpl.
  rewrite <- app_assoc. f_equal.
Qed.

Lemma NoDup_output_names (posts : list post) : NoDup (output_names posts).
Proof.
  unfold output_names. apply NoDup_app. split; [apply NoDup_page_names|]. split.
  - intros name Hin Hout. apply list_elem_of_fmap in Hin as [N [-> _]].
    pose proof (matches_page_name N) as Hm.
    rewrite !elem_of_cons in Hout. destruct Hout as [H|[H|[H|H]]].
    + rewrite H in Hm. discriminate Hm.
    + rewrite H in Hm. discriminate Hm.
    + rewrite H in Hm. discriminate Hm.
    + now apply elem_of_nil in H.
  - repeat (apply NoDup_cons; split); [| |apply not_elem_of_nil|apply NoDup_nil_2].
    + rewrite !elem_of_cons, elem_of_nil. intros [H|[H|[]]]; discriminate H.
    + rewrite !elem_of_cons, elem_of_nil. intros [H|[]]; discriminate H.
Qed.

Lemma output_names_pattern (posts : list post) (name : string) :
  name ∈ output_names posts -> matches_page_pattern name = true ->
  exists N, 1 <= N <= page_count (length posts) /\ name = page_name N.
Proof.
  unfold output_names. rewrite elem_of_app. intros [Hin|Hin] Hm.
  - apply list_elem_of_fmap in Hin as [N [-> HN]]. exists N. split; [|reflexivity].
    apply elem_of_seq in HN. lia.
  - rewrite !elem_of_cons, elem_of_nil in Hin.
    destruct Hin as [->|[->|[->|[]]]]; discriminate Hm.
Qed.

Lemma page_in_output_files (posts : list post) (N : nat) :
  1 <= N <= page_count (length posts) ->
  (page_name N, JsonFile (page_file posts N).2) ∈ output_files build_date posts.
Proof.
  intros HN. unfold output_files, write_paginated_indexes. cbn [fst].
  rewrite !fmap_app, <- !list_fmap_compose. rewrite !elem_of_app. left. left.
  apply list_elem_of_fmap. exists N. split.
  - reflexivity.
  - apply elem_of_seq. lia.
Qed.

Lemma pointer_in_output_files (posts : list post) :
  (OUTPUT_INDEX_MAIN, JsonFile (pointer (length posts))) ∈ output_files build_date posts.
Proof.
  unfold output_files, write_paginated_indexes. cbn [fst].
  rewrite !fmap_app. rewrite !elem_of_app. left. right. simpl.
  apply elem_of_cons. now left.
Qed.

Lemma sitemap_in_output_files (posts : list post) :
  (SITEMAP, XmlFile (write_sitemap posts).1) ∈ output_files build_date posts.
Proof.
  unfold output_files. rewrite elem_of_app. right. apply elem_of_cons. now left.
Qed.

Lemma rss_in_output_files (posts : list post) :
  (RSS, XmlFile (write_rss build_date posts).1) ∈ output_files build_date posts.
Proof.
  unfold output_files. rewrite elem_of_app. right. rewrite !elem_of_cons. right. now left.
Qed.

Lemma wrote_lines_output_files (posts : list post) :
  wrote_lines (output_files build_date posts)
  = Stage <$> ((write_paginated_indexes posts).2 ++ (write_sitemap posts).2
               ++ (write_rss build_date posts).2).
Proof.
  unfold wrote_lines, output_files, write_paginated_indexes, write_sitemap, write_rss.
  cbn [fst snd]. rewrite !fmap_app, <- !list_fmap_compose. simpl.
  rewrite <- !app_assoc. reflexivity.
Qed.

End Outputs.

Section Lines.

(** The lines printed before the summary are not the lines of the
    summary, and only the clean-up prints removal warnings. *)
Ltac split_elem :=
  repeat match goal with
  | H : _ ∈ _ ++ _ |- _ => apply elem_of_app in H as [H|H]
  | H : _ ∈ _ :: _ |- _ => apply elem_of_cons in H as [H|H]
  | H : _ ∈ [] |- _ => apply elem_of_nil in H; destruct H
  | H : _ ∈ _ <$> _ |- _ => apply list_elem_of_fmap in H as [? [H _]]
  end.

Lemma head_lines_plain (os : OS) (l : line) :
  l ∈ head_lines os -> l <> GENERATION_COMPLETE /\ forall name, l <> WARN_could_not_remove name.
Proof.
  unfold head_lines. intros H. destruct (gather_posts os).1; split_elem; subst;
    (split; [discriminate | intros; discriminate]).
Qed.

Lemma wrote_lines_plain (files : list (string * artifact)) (l : line) :
  l ∈ wrote_lines files -> l <> GENERATION_COMPLETE /\ forall name, l <> WARN_could_not_remove name.
Proof.
  unfold wrote_lines. intros H. split_elem; subst.
  split; [discriminate | intros; discriminate].
Qed.

Lemma cleanup_log_plain (perm : permissions) (cwd : gmap string artifact) (l : line) :
  l ∈ (cleanup_old_index_files perm cwd).2 -> l <> GENERATION_COMPLETE.
Proof. rewrite cleanup_log. intros H. split_elem; subst. discriminate. Qed.

Lemma summary_lines_plain (n k : nat) (l : line) :
  l ∈ summary_lines n k -> forall name, l <> WARN_could_not_remove name.
Proof. unfold summary_lines. intros H. split_elem; subst; intros; discriminate. Qed.

End Lines.

Section Run.

Variables (os : OS) (perm : permissions) (build_date : string).
Variable cwd : gmap string artifact.

Let posts := (gather_posts os).1.

(** The run, in one equation: the writes stop after the files [pre], and
    the summary is printed when [pre] is all of them. *)
Lemma main_shape :
  exists pre : list (string * artifact),
    (main os perm build_date cwd).1.1
    = written pre (cleanup_old_index_files perm cwd).1
    /\ Forall (fun f => can_write perm f.1 = true) pre
    /\ ((pre = output_files build_date posts
         /\ (main os perm build_date cwd).2 = Completed
         /\ (main os perm build_date cwd).1.2
            = head_lines os ++ (cleanup_old_index_files perm cwd).2 ++ wrote_lines pre
              ++ summary_lines (length posts) (page_count (length posts)))
        \/ exists f post, output_files build_date posts = pre ++ f :: post
             /\ can_write perm f.1 = false
             /\ (main os perm build_date cwd).2 = Raised f.1
             /\ (main os perm build_date cwd).1.2
                = head_lines os ++ (cleanup_old_index_files perm cwd).2 ++ wrote_lines pre).
Proof.
  unfold main. fold posts.
  set (st0 := ((cleanup_old_index_files perm cwd).1, _)).
  destruct (write_all_split perm (output_files build_date posts) st0)
    as (pre & Hst & Hpre & Hend).
  exists pre.
  destruct (write_all perm (output_files build_date posts) st0) as [st o] eqn:Hrun.
  simpl in Hst, Hend. subst st. subst st0. cbn [fst snd] in *.
  destruct Hend as [[-> ->]|(f & post & Hfiles & Hf & ->)].
  - cbn [fst snd]. split; [reflexivity|]. split; [exact Hpre|]. left.
    split; [reflexivity|]. split; [reflexivity|].
    unfold head_lines, summary_lines, page_count. fold posts.
    cbn [app]. rewrite <- !app_assoc. reflexivity.
  - cbn [fst snd]. split; [reflexivity|]. split; [exact Hpre|]. right.
    exists f, post. split; [exact Hfiles|]. split; [exact Hf|]. split; [reflexivity|].
    unfold head_lines. fold posts. cbn [app]. rewrite <- ?app_assoc. reflexivity.
Qed.

(** The files written are among the output files, under distinct names. *)
Lemma main_written :
  exists pre : list (string * artifact),
    (main os perm build_date cwd).1.1
    = written pre (cleanup_old_index_files perm cwd).1
    /\ NoDup pre.*1
    /\ (forall f, f ∈ pre -> f ∈ output_files build_date posts)
    /\ ((main os perm build_date cwd).2 = Completed -> pre = output_files build_date posts).
Proof.
  destruct main_shape as (pre & Hfiles & _ & Hend). exists pre.
  split; [exact Hfiles|].
  pose proof (NoDup_output_names posts) as Hnd.
  rewrite <- (output_files_names build_date) in Hnd.
  destruct Hend as [(-> & Ho & _)|(f & post & Hsplit & _ & Ho & _)].
  - split; [exact Hnd|]. split; [auto|]. reflexivity.
  - rewrite Hsplit, fmap_app in Hnd. apply NoDup_app in Hnd as [Hnd _].
    split; [exact Hnd|]. split.
    + intros g Hg. rewrite Hsplit. apply elem_of_app. now left.
    + rewrite Ho. discriminate.
Qed.

End Run.

(** X12: the clean-up removes the files named like a page that the
    system lets it remove, and nothing else: such a file is gone, every
    other entry of the directory is as before, and one warning is printed
    for each file named like a page that could not be removed. *)
Theorem cleanup_removes_what_it_can (perm : permissions) (cwd : gmap string artifact) :
  (forall name,
     (cleanup_old_index_files perm cwd).1 !! name
     = if decide (matches_page_pattern name = true /\ can_remove perm name = true)
       then None else cwd !! name)
  /\ exists kept : list string,
       (cleanup_old_index_files perm cwd).2 = WARN_could_not_remove <$> kept
       /\ NoDup kept
       /\ forall name, name ∈ kept
            <-> matches_page_pattern name = true /\ is_Some (cwd !! name)
                /\ can_remove perm name = false.
Proof.
  split; [apply cleanup_lookup|].
  exists (filter (fun f => can_remove perm f = false) (glob_pages cwd)).
  split; [apply cleanup_log|]. split; [apply NoDup_filter, NoDup_glob_pages|].
  intros name. rewrite list_elem_of_filter, elem_of_glob_pages. tauto.
Qed.

(** X13: a run touches no file but its own: a name that is neither the
    pointer, the sitemap or the feed, nor named like a page, holds after
    the run what it held before, however the run ends. *)
Theorem main_leaves_other_files (os : OS) (perm : permissions) (build_date : string)
    (cwd : gmap string artifact) (name : string) :
  matches_page_pattern name = false ->
  name <> OUTPUT_INDEX_MAIN -> name <> SITEMAP -> name <> RSS ->
  (main os perm build_date cwd).1.1 !! name = cwd !! name.
Proof.
  intros Hm H1 H2 H3.
  destruct (main_written os perm build_date cwd) as (pre & -> & _ & Hsub & _).
  rewrite written_notin.
  - rewrite cleanup_lookup. case_decide as H; [|reflexivity].
    destruct H as [H _]. congruence.
  - intros Hin. apply list_elem_of_fmap in Hin as [f [-> Hf]].
    apply Hsub in Hf.
    assert (f.1 ∈ output_names (gather_posts os).1) as Hn.
    { rewrite <- (output_files_names build_date). apply list_elem_of_fmap. eauto. }
    unfold output_names in Hn. rewrite elem_of_app, !elem_of_cons, elem_of_nil in Hn.
    destruct Hn as [Hn|[Hn|[Hn|[Hn|[]]]]]; try congruence.
    apply list_elem_of_fmap in Hn as [N [HN _]].
    rewrite HN, matches_page_name in Hm. discriminate.
Qed.

Lemma main_leaves_other_files_witness :
  (main example_os page_7_locked "now" earlier_cwd).1.1 !! "index.html"
  = Some (OtherFile "home").
Proof.
  rewrite (main_leaves_other_files example_os page_7_locked "now" earlier_cwd "index.html");
    [reflexivity | reflexivity | discriminate | discriminate | discriminate].
Defined.

(** X14: when every output file can be opened, the run completes: each
    page file, the pointer, the sitemap and the feed hold what the three
    writers produce for the collected posts, and the run closes with the
    summary, whose numbers are those of the pointer. *)
Theorem run_completes (os : OS) (perm : permissions) (build_date : string)
    (cwd : gmap string artifact) :
  (forall name, name ∈ output_names (gather_posts os).1 -> can_write perm name = true) ->
  let posts := (gather_posts os).1 in
  let result := main os perm build_date cwd in
  result.2 = Completed
  /\ (forall N, 1 <= N <= page_count (length posts) ->
        result.1.1 !! page_name N = Some (JsonFile (page_file posts N).2))
  /\ result.1.1 !! OUTPUT_INDEX_MAIN = Some (JsonFile (pointer (length posts)))
  /\ result.1.1 !! SITEMAP = Some (XmlFile (write_sitemap posts).1)
  /\ result.1.1 !! RSS = Some (XmlFile (write_rss build_date posts).1)
  /\ exists before,
       result.1.2
       = before ++ summary_lines (total_posts (pointer (length posts)))
                                 (total_pages (pointer (length posts)))
       /\ GENERATION_COMPLETE ∉ before.
Proof.
  intros Hw posts result.
  destruct (main_shape os perm build_date cwd) as (pre & Hfiles & Hpre & Hend).
  fold posts in Hend. fold result in Hfiles, Hend.
  destruct Hend as [(-> & Ho & Hlog)|(f & post & Hsplit & Hf & _)].
  - pose proof (NoDup_output_names posts) as Hnd.
    rewrite <- (output_files_names build_date) in Hnd.
    split; [exact Ho|]. rewrite Hfiles.
    split; [|split; [|split; [|split]]].
    + intros N HN. apply written_in; [exact Hnd|]. now apply page_in_output_files.
    + apply written_in; [exact Hnd|]. apply pointer_in_output_files.
    + apply written_in; [exact Hnd|]. apply sitemap_in_output_files.
    + apply written_in; [exact Hnd|]. apply rss_in_output_files.
    + exists (head_lines os ++ (cleanup_old_index_files perm cwd).2
              ++ wrote_lines (output_files build_date posts)).
      split; [rewrite Hlog, <- !app_assoc; reflexivity|].
      rewrite !elem_of_app. intros [H|[H|H]].
      * now apply head_lines_plain in H as [H _].
      * now apply cleanup_log_plain in H.
      * now apply wrote_lines_plain in H as [H _].
  - exfalso. assert (can_write perm f.1 = true) as Hf'; [|congruence].
    apply Hw. fold posts. rewrite <- (output_files_names build_date), Hsplit.
    apply list_elem_of_fmap. exists f. split; [reflexivity|].
    apply elem_of_app. right. apply elem_of_cons. now left.
Qed.

Lemma run_completes_witness :
  let posts := (gather_posts example_os).1 in
  let result := main example_os page_7_locked "now" earlier_cwd in
  result.2 = Completed
  /\ (forall N, 1 <= N <= page_count (length posts) ->
        result.1.1 !! page_name N = Some (JsonFile (page_file posts N).2))
  /\ result.1.1 !! OUTPUT_INDEX_MAIN = Some (JsonFile (pointer (length posts)))
  /\ result.1.1 !! SITEMAP = Some (XmlFile (write_sitemap posts).1)
  /\ result.1.1 !! RSS = Some (XmlFile (write_rss "now" posts).1)
  /\ exists before,
       result.1.2
       = before ++ summary_lines (total_posts (pointer (length posts)))
                                 (total_pages (pointer (length posts)))
       /\ GENERATION_COMPLETE ∉ before.
Proof.
  apply (run_completes example_os page_7_locked "now" earlier_cwd).
  intros name _. reflexivity.
Defined.

(** X15: no page of an earlier run outlives a run in which the clean-up
    may remove the old pages: however the run ends, a file named like a
    page that is in the directory afterwards is a page of this run, with
    this run's content, and no removal warning is printed.  When the run
    completes, the pages in the directory are exactly those the pointer
    counts. *)
Theorem no_stale_page_survives (os : OS) (perm : permissions) (build_date : string)
    (cwd : gmap string artifact) :
  (forall name, matches_page_pattern name = true -> is_Some (cwd !! name) ->
     can_remove perm name = true) ->
  let posts := (gather_posts os).1 in
  let result := main os perm build_date cwd in
  (forall name, matches_page_pattern name = true -> is_Some (result.1.1 !! name) ->
     exists N, 1 <= N <= page_count (length posts) /\ name = page_name N
               /\ result.1.1 !! name = Some (JsonFile (page_file posts N).2))
  /\ (forall name, WARN_could_not_remove name ∉ result.1.2)
  /\ (result.2 = Completed ->
      glob_pages result.1.1 ≡ₚ page_name <$> seq 1 (page_count (length posts))
      /\ length (glob_pages result.1.1) = total_pages (pointer (length posts))).
Proof.
  intros Hr posts result.
  assert (forall name, matches_page_pattern name = true ->
            (cleanup_old_index_files perm cwd).1 !! name = None) as Hclean.
  { intros name Hm. rewrite cleanup_lookup. case_decide as H; [reflexivity|].
    destruct (cwd !! name) as [a|] eqn:Ha; [|reflexivity].
    exfalso. apply H. split; [exact Hm|]. apply Hr; [exact Hm|]. rewrite Ha. eauto. }
  destruct (main_written os perm build_date cwd) as (pre & Hfiles & Hnd & Hsub & Hall).
  fold posts in Hsub, Hall. fold result in Hfiles, Hall.
  assert (forall name, matches_page_pattern name = true -> is_Some (result.1.1 !! name) ->
     exists N, 1 <= N <= page_count (length posts) /\ name = page_name N
               /\ result.1.1 !! name = Some (JsonFile (page_file posts N).2)) as Hpages.
  { intros name Hm Hs. rewrite Hfiles in Hs |- *.
    destruct (decide (name ∈ pre.*1)) as [Hin|Hout].
    - assert (name ∈ output_names posts) as Hn.
      { rewrite <- (output_files_names build_date).
        apply list_elem_of_fmap in Hin as [f [-> Hf]]. apply list_elem_of_fmap.
        exists f. split; [reflexivity|]. now apply Hsub. }
      destruct (output_names_pattern posts name Hn Hm) as [N [HN ->]].
      exists N. split; [exact HN|]. split; [reflexivity|].
      apply list_elem_of_fmap in Hin as [f [Hname Hf]].
      pose proof (Hsub f Hf) as Hf'.
      pose proof (page_in_output_files build_date posts N HN) as HN'.
      assert (f = (page_name N, JsonFile (page_file posts N).2)) as ->.
      { pose proof (NoDup_output_names posts) as Hnd'.
        rewrite <- (output_files_names build_date) in Hnd'.
        apply list_elem_of_lookup in Hf' as [i Hi].
        apply list_elem_of_lookup in HN' as [j Hj].
        assert (i = j) as ->.
        { eapply NoDup_lookup; [exact Hnd'| |].
          - rewrite list_lookup_fmap, Hi. simpl. rewrite <- Hname. reflexivity.
          - rewrite list_lookup_fmap, Hj. reflexivity. }
        congruence. }
      now apply written_in.
    - rewrite written_notin, Hclean in Hs by assumption. now destruct Hs. }
  split; [exact Hpages|]. split.
  - intros name Hin.
    destruct (main_shape os perm build_date cwd) as (pre' & _ & _ & Hend).
    fold posts in Hend. fold result in Hend.
    rewrite (cleanup_log_removable perm cwd Hr) in Hend.
    assert (result.1.2 = head_lines os ++ wrote_lines pre'
            \/ result.1.2 = head_lines os ++ wrote_lines pre'
                 ++ summary_lines (length posts) (page_count (length posts))) as Hlog.
    { destruct Hend as [(_ & _ & ->)|(f & post & _ & _ & _ & ->)]; auto. }
    assert (WARN_could_not_remove name ∉ head_lines os ++ wrote_lines pre') as Hno.
    { rewrite elem_of_app. intros [H|H].
      - apply head_lines_plain in H as [_ H]. now apply (H name).
      - apply wrote_lines_plain in H as [_ H]. now apply (H name). }
    destruct Hlog as [Hlog|Hlog]; rewrite Hlog in Hin; [now apply Hno|].
    rewrite app_assoc in Hin. apply elem_of_app in Hin as [Hin|Hin]; [now apply Hno|].
    now apply summary_lines_plain with (name := name) in Hin.
  - intros Hdone.
    assert (glob_pages result.1.1 ≡ₚ page_name <$> seq 1 (page_count (length posts)))
      as Hperm.
    { apply NoDup_Permutation; [apply NoDup_glob_pages | apply NoDup_page_names |].
      intros name. rewrite elem_of_glob_pages, list_elem_of_fmap. split.
      - intros [Hm Hs]. destruct (Hpages name Hm Hs) as (N & HN & -> & _).
        exists N. split; [reflexivity|]. apply elem_of_seq. lia.
      - intros [N [-> HN]]. apply elem_of_seq in HN.
        split; [apply matches_page_name|].
        rewrite Hfiles, (Hall Hdone).
        erewrite written_in; [eauto| |apply page_in_output_files; lia].
        rewrite output_files_names. apply NoDup_output_names. }
    split; [exact Hperm|].
    rewrite Hperm, length_fmap, length_seq. reflexivity.
Qed.

Lemma no_stale_page_survives_witness :
  let posts := (gather_posts example_os).1 in
  let result := main example_os allow_all "now" earlier_cwd in
  (forall name, matches_page_pattern name = true -> is_Some (result.1.1 !! name) ->
     exists N, 1 <= N <= page_count (length posts) /\ name = page_name N
               /\ result.1.1 !! name = Some (JsonFile (page_file posts N).2))
  /\ (forall name, WARN_could_not_remove name ∉ result.1.2)
  /\ (result.2 = Completed ->
      glob_pages result.1.1 ≡ₚ page_name <$> seq 1 (page_count (length posts))
      /\ length (glob_pages result.1.1) = total_pages (pointer (length posts))).
Proof.
  apply (no_stale_page_survives example_os allow_all "now" earlier_cwd).
  intros name _ _. reflexivity.
Defined.

(** X16: the run ends at the first output file that cannot be opened,
    with the error of that file: the files before it, in the order pages,
    pointer, sitemap, feed, are written; the file itself and those after
    it are left as the clean-up left them; the summary is not printed. *)
Theorem run_stops_at_first_failure (os : OS) (perm : permissions) (build_date : string)
    (cwd : gmap string artifact) (pre post : list (string * artifact))
    (f : string * artifact) :
  output_files build_date (gather_posts os).1 = pre ++ f :: post ->
  Forall (fun g => can_write perm g.1 = true) pre ->
  can_write perm f.1 = false ->
  let result := main os perm build_date cwd in
  result.2 = Raised f.1
  /\ (forall g, g ∈ pre -> result.1.1 !! g.1 = Some g.2)
  /\ (forall g, g ∈ f :: post ->
        result.1.1 !! g.1 = (cleanup_old_index_files perm cwd).1 !! g.1)
  /\ GENERATION_COMPLETE ∉ result.1.2.
Proof.
  intros Hsplit Hpre Hf result.
  pose proof (NoDup_output_names (gather_posts os).1) as Hnd.
  rewrite <- (output_files_names build_date), Hsplit, fmap_app in Hnd.
  apply NoDup_app in Hnd as (Hnd & Hdisj & _).
  assert (result = (written pre (cleanup_old_index_files perm cwd).1,
                    (head_lines os ++ (cleanup_old_index_files perm cwd).2)
                    ++ wrote_lines pre, Raised f.1)) as ->.
  { unfold result, main. rewrite Hsplit, write_all_raised by assumption. reflexivity. }
  cbn [fst snd]. split; [reflexivity|]. split; [|split].
  - intros [k a] Hg. now apply written_in.
  - intros g Hg. apply written_notin. intros Hin.
    apply (Hdisj g.1 Hin). apply list_elem_of_fmap. eauto.
  - rewrite !elem_of_app. intros [[H|H]|H].
    + now apply head_lines_plain in H as [H _].
    + now apply cleanup_log_plain in H.
    + now apply wrote_lines_plain in H as [H _].
Qed.

Lemma run_stops_at_first_failure_witness :
  let posts := (gather_posts example_os).1 in
  let pre := (fun f => (f.1, JsonFile f.2)) <$> (write_paginated_indexes posts).1 in
  let result := main example_os sitemap_locked "now" earlier_cwd in
  result.2 = Raised SITEMAP
  /\ (forall g, g ∈ pre -> result.1.1 !! g.1 = Some g.2)
  /\ (forall g, g ∈ [(SITEMAP, XmlFile (write_sitemap posts).1);
                     (RSS, XmlFile (write_rss "now" posts).1)] ->
        result.1.1 !! g.1 = (cleanup_old_index_files sitemap_locked earlier_cwd).1 !! g.1)
  /\ GENERATION_COMPLETE ∉ result.1.2.
Proof.
  intros posts pre.
  apply (run_stops_at_first_failure example_os sitemap_locked "now" earlier_cwd pre
           [(RSS, XmlFile (write_rss "now" posts).1)]
           (SITEMAP, XmlFile (write_sitemap posts).1)).
  - reflexivity.
  - apply (bool_decide_unpack _). vm_compute. exact I.
  - reflexivity.
Defined.

(** X17: a site without posts still gets its files: when no post is
    collected, for instance because the posts directory is missing, the
    run warns, writes a first page with an empty list, a pointer that
    counts no post and one page, a sitemap with the static pages only and
    a feed without items, and reports no post and one page. *)
Theorem empty_site_outputs (os : OS) (perm : permissions) (build_date : string)
    (cwd : gmap string artifact) :
  (gather_posts os).1 = [] ->
  (forall name, name ∈ [page_name 1; OUTPUT_INDEX_MAIN; SITEMAP; RSS] ->
     can_write perm name = true) ->
  let result := main os perm build_date cwd in
  result.2 = Completed
  /\ result.1.1 !! page_name 1 = Some (JsonFile (IndexJson 1 20 0 1 (Some [])))
  /\ result.1.1 !! OUTPUT_INDEX_MAIN = Some (JsonFile (IndexJson 1 20 0 1 None))
  /\ result.1.1 !! SITEMAP = Some (XmlFile (write_sitemap []).1)
  /\ sitemap_entries [] = sitemap_static_entries
  /\ result.1.1 !! RSS = Some (XmlFile (write_rss build_date []).1)
  /\ rss_items build_date [] = []
  /\ WARN_no_posts_found ∈ result.1.2
  /\ exists before, result.1.2 = before ++ summary_lines 0 1.
Proof.
  intros Hposts Hw result.
  destruct (main_shape os perm build_date cwd) as (pre & Hfiles & Hpre & Hend).
  fold result in Hfiles, Hend. rewrite Hposts in Hend.
  destruct Hend as [(-> & Ho & Hlog)|(f & post & Hsplit & Hf & _)].
  - pose proof (NoDup_output_names []) as Hnd.
    rewrite <- (output_files_names build_date) in Hnd.
    split; [exact Ho|]. rewrite Hfiles.
    split; [|split; [|split; [|split; [|split; [|split; [|split]]]]]].
    + apply written_in; [exact Hnd|]. apply (page_in_output_files build_date [] 1).
      vm_compute. lia.
    + apply written_in; [exact Hnd|]. apply (pointer_in_output_files build_date []).
    + apply written_in; [exact Hnd|]. apply sitemap_in_output_files.
    + reflexivity.
    + apply written_in; [exact Hnd|]. apply rss_in_output_files.
    + reflexivity.
    + rewrite Hlog. unfold head_lines. rewrite Hposts. rewrite !elem_of_app.
      left. right. right. apply elem_of_cons. now left.
    + rewrite Hlog. eexists. rewrite !app_assoc. reflexivity.
  - exfalso. assert (can_write perm f.1 = true) as Hf'; [|congruence].
    apply Hw. change [page_name 1; OUTPUT_INDEX_MAIN; SITEMAP; RSS] with (output_names []).
    rewrite <- (output_files_names build_date), Hsplit.
    apply list_elem_of_fmap. exists f. split; [reflexivity|].
    apply elem_of_app. right. apply elem_of_cons. now left.
Qed.

Lemma empty_site_outputs_witness :
  let result := main no_posts_dir allow_all "now" earlier_cwd in
  result.2 = Completed
  /\ result.1.1 !! page_name 1 = Some (JsonFile (IndexJson 1 20 0 1 (Some [])))
  /\ result.1.1 !! OUTPUT_INDEX_MAIN = Some (JsonFile (IndexJson 1 20 0 1 None))
  /\ result.1.1 !! SITEMAP = Some (XmlFile (write_sitemap []).1)
  /\ sitemap_entries [] = sitemap_static_entries
  /\ result.1.1 !! RSS = Some (XmlFile (write_rss "now" []).1)
  /\ rss_items "now" [] = []
  /\ WARN_no_posts_found ∈ result.1.2
  /\ exists before, result.1.2 = before ++ summary_lines 0 1.
Proof.
  apply (empty_site_outputs no_posts_dir allow_all "now" earlier_cwd).
  - reflexivity.
  - intros name _. reflexivity.
Defined.

(** X18: a page of an earlier run that the clean-up cannot remove, and
    that this run does not write again, stays in the directory with its
    old content, and a warning names it. *)
Theorem unremovable_page_stays (os : OS) (perm : permissions) (build_date : string)
    (cwd : gmap string artifact) (name : string) (a : artifact) :
  matches_page_pattern name = true -> cwd !! name = Some a ->
  can_remove perm name = false ->
  (forall N, 1 <= N <= page_count (length (gather_posts os).1) -> name <> page_name N) ->
  let result := main os perm build_date cwd in
  result.1.1 !! name = Some a /\ WARN_could_not_remove name ∈ result.1.2.
Proof.
  intros Hm Ha Hno Hnew result. split.
  - destruct (main_written os perm build_date cwd) as (pre & Hfiles & _ & Hsub & _).
    fold result in Hfiles. rewrite Hfiles, written_notin.
    + rewrite cleanup_lookup. case_decide as H; [|exact Ha].
      destruct H as [_ H]. congruence.
    + intros Hin. apply list_elem_of_fmap in Hin as [f [Hname Hf]].
      assert (name ∈ output_names (gather_posts os).1) as Hn.
      { rewrite <- (output_files_names build_date). apply list_elem_of_fmap.
        exists f. split; [exact Hname|]. now apply Hsub. }
      destruct (output_names_pattern _ _ Hn Hm) as [N [HN HeqN]].
      now apply (Hnew N HN).
  - destruct (main_shape os perm build_date cwd) as (pre & _ & _ & Hend).
    fold result in Hend.
    assert (WARN_could_not_remove name ∈ (cleanup_old_index_files perm cwd).2) as Hwarn.
    { rewrite cleanup_log. apply list_elem_of_fmap. exists name. split; [reflexivity|].
      apply list_elem_of_filter. split; [exact Hno|]. apply elem_of_glob_pages.
      split; [exact Hm|]. rewrite Ha. eauto. }
    destruct Hend as [(_ & _ & ->)|(f & post & _ & _ & _ & ->)];
      rewrite !elem_of_app; auto.
Qed.

Lemma unremovable_page_stays_witness :
  let result := main example_os page_7_locked "now" earlier_cwd in
  result.1.1 !! page_name 7 = Some (OtherFile "old page 7")
  /\ WARN_could_not_remove (page_name 7) ∈ result.1.2.
Proof.
  apply (unremovable_page_stays example_os page_7_locked "now" earlier_cwd (page_name 7)
           (OtherFile "old page 7")).
  - reflexivity.
  - reflexivity.
  - reflexivity.
  - intros N HN Heq. apply page_name_inj in Heq. subst N.
    vm_compute in HN. lia.
Defined.
